(** * ChefGenius (src/App.tsx): a shallow embedding and its properties

    The application is one React component.  Its state is the tuple of its
    [useState] cells; every event handler is a function from the state (and
    from what the environment supplies: a fresh UUID, the clock, the
    response of a service) to the next state and the effects it issues.

    Conventions.
    - A JavaScript string is a [string]; each [ascii] stands for one UTF-16
      code unit below 256.
    - A JavaScript number that the code only counts with is a [Z].
    - An exception is [None]; a [try] block is a computation in [option].
    - TypeScript's types are followed: a [Recipe[]] is a [list Recipe], a
      title is a string.  The source lets untyped data in at the calls of
      [JSON.parse]; each is taken at the type of its call site.  The spread
      of the parsed response in [generateRecipe] copies properties without
      looking at them, which is why the properties of a [Recipe] that come
      from that spread are optional here.

    The first part of the file holds the definitions, in the order of the
    source; the second part holds the properties. *)

From Stdlib Require Import ZArith QArith String Ascii List Bool Lia.
From Stdlib Require Import DecimalString DecimalZ DecimalPos.
From stdpp Require Import base option list strings gmap.
Import ListNotations.

Local Open Scope string_scope.
Local Open Scope Z_scope.

(** ** Strings: the built-in methods the handlers call *)

Module JsString.

(** [!s] on a string: only the empty string is falsy. *)
Definition falsy (s : string) : bool :=
  match s with EmptyString => true | String _ _ => false end.

(** The code units [String.prototype.trim] strips, among those below 256:
    TAB, LF, VT, FF, CR, SPACE and NBSP. *)
Definition is_whitespace (c : ascii) : bool :=
  let n := nat_of_ascii c in
  ((9 <=? n)%nat && (n <=? 13)%nat) || (n =? 32)%nat || (n =? 160)%nat.

Fixpoint trimStart (s : string) : string :=
  match s with
  | EmptyString => EmptyString
  | String c s' => if is_whitespace c then trimStart s' else s
  end.

Fixpoint trimEnd (s : string) : string :=
  match s with
  | EmptyString => EmptyString
  | String c s' =>
      match trimEnd s' with
      | EmptyString => if is_whitespace c then EmptyString else String c EmptyString
      | t => String c t
      end
  end.

Definition trim (s : string) : string := trimEnd (trimStart s).

(** [s.includes(sub)]: [sub] occurs in [s] at some position. *)
Fixpoint includes (s sub : string) : bool :=
  if String.prefix sub s then true
  else match s with
       | EmptyString => false
       | String _ s' => includes s' sub
       end.

Definition newline : ascii := ascii_of_nat 10.

(** [s.split('\n')]: never empty, [''.split('\n')] is [['']]. *)
Fixpoint split_lines (s : string) : list string :=
  match s with
  | EmptyString => [EmptyString]
  | String c s' =>
      if Ascii.eqb c newline then EmptyString :: split_lines s'
      else match split_lines s' with
           | h :: t => String c h :: t
           | [] => [String c EmptyString]
           end
  end.

End JsString.

(** ** Types (src/App.tsx, lines 27-46) *)

(** [interface Nutrition]: four string members.  A dish entered by hand
    has the four; the nutrition of a generated recipe is the object of the
    response as it is, and the schema of the request requires none of its
    members, so each is there or not. *)
Record Nutrition := {
  calories : option string;
  protein : option string;
  carbs : option string;
  fat : option string
}.

(** [interface Recipe].  [id], [title] and [createdAt] are always written by
    the code that builds a recipe.  The other properties are declared
    required, but [generateRecipe] copies them from the parsed response
    without looking at them, so on such a recipe each is there or not
    ([None] is JavaScript's [undefined]); [imageUrl] is optional in the
    interface itself. *)
Record Recipe := {
  id : string;
  title : string;
  description : option string;
  ingredients : option (list string);
  instructions : option (list string);
  prepTime : option string;
  servings : option string;
  nutrition : option Nutrition;
  imageUrl : option string;
  createdAt : Z
}.

Inductive View := kitchen | pantry | shopping.

(** The [customDish] cell: [{ title, desc, ingredients }]. *)
Record CustomDish := {
  dish_title : string;
  dish_desc : string;
  dish_ingredients : string
}.

Definition emptyDish : CustomDish :=
  {| dish_title := EmptyString; dish_desc := EmptyString; dish_ingredients := EmptyString |}.

(** The [useState] cells of [App] (lines 70-92), and [audioContextRef]. *)
Record State := {
  view : View;
  prompt : string;
  isGenerating : bool;
  isVisualizing : bool;
  currentRecipe : option Recipe;
  savedRecipes : list Recipe;
  manualShoppingItems : list string;
  newItemText : string;
  searchQuery : string;
  showAddDishModal : bool;
  customDish : CustomDish;
  isCameraOpen : bool;
  capturedImage : option string;
  cookingMode : option Recipe;
  currentStep : Z;
  isSpeaking : bool;
  audioContext : bool
}.

(** The state of the first render. *)
Definition initialState : State := {|
  view := kitchen;
  prompt := EmptyString;
  isGenerating := false;
  isVisualizing := false;
  currentRecipe := None;
  savedRecipes := [];
  manualShoppingItems := [];
  newItemText := EmptyString;
  searchQuery := EmptyString;
  showAddDishModal := false;
  customDish := emptyDish;
  isCameraOpen := false;
  capturedImage := None;
  cookingMode := None;
  currentStep := 0;
  isSpeaking := false;
  audioContext := false
|}.

(** The state setters. *)
Definition setView (x : View) (s : State) : State :=
  let '(Build_State _ b c d e f g h i j k l m n o p q) := s in
  Build_State x b c d e f g h i j k l m n o p q.
Definition setPrompt (x : string) (s : State) : State :=
  let '(Build_State a _ c d e f g h i j k l m n o p q) := s in
  Build_State a x c d e f g h i j k l m n o p q.
Definition setIsGenerating (x : bool) (s : State) : State :=
  let '(Build_State a b _ d e f g h i j k l m n o p q) := s in
  Build_State a b x d e f g h i j k l m n o p q.
Definition setIsVisualizing (x : bool) (s : State) : State :=
  let '(Build_State a b c _ e f g h i j k l m n o p q) := s in
  Build_State a b c x e f g h i j k l m n o p q.
Definition setCurrentRecipe (x : option Recipe) (s : State) : State :=
  let '(Build_State a b c d _ f g h i j k l m n o p q) := s in
  Build_State a b c d x f g h i j k l m n o p q.
Definition setSavedRecipes (x : list Recipe) (s : State) : State :=
  let '(Build_State a b c d e _ g h i j k l m n o p q) := s in
  Build_State a b c d e x g h i j k l m n o p q.
Definition setManualShoppingItems (x : list string) (s : State) : State :=
  let '(Build_State a b c d e f _ h i j k l m n o p q) := s in
  Build_State a b c d e f x h i j k l m n o p q.
Definition setNewItemText (x : string) (s : State) : State :=
  let '(Build_State a b c d e f g _ i j k l m n o p q) := s in
  Build_State a b c d e f g x i j k l m n o p q.
Definition setSearchQuery (x : string) (s : State) : State :=
  let '(Build_State a b c d e f g h _ j k l m n o p q) := s in
  Build_State a b c d e f g h x j k l m n o p q.
Definition setShowAddDishModal (x : bool) (s : State) : State :=
  let '(Build_State a b c d e f g h i _ k l m n o p q) := s in
  Build_State a b c d e f g h i x k l m n o p q.
Definition setCustomDish (x : CustomDish) (s : State) : State :=
  let '(Build_State a b c d e f g h i j _ l m n o p q) := s in
  Build_State a b c d e f g h i j x l m n o p q.
Definition setIsCameraOpen (x : bool) (s : State) : State :=
  let '(Build_State a b c d e f g h i j k _ m n o p q) := s in
  Build_State a b c d e f g h i j k x m n o p q.
Definition setCapturedImage (x : option string) (s : State) : State :=
  let '(Build_State a b c d e f g h i j k l _ n o p q) := s in
  Build_State a b c d e f g h i j k l x n o p q.
Definition setCookingMode (x : option Recipe) (s : State) : State :=
  let '(Build_State a b c d e f g h i j k l m _ o p q) := s in
  Build_State a b c d e f g h i j k l m x o p q.
Definition setCurrentStep (x : Z) (s : State) : State :=
  let '(Build_State a b c d e f g h i j k l m n _ p q) := s in
  Build_State a b c d e f g h i j k l m n x p q.
Definition setIsSpeaking (x : bool) (s : State) : State :=
  let '(Build_State a b c d e f g h i j k l m n o _ q) := s in
  Build_State a b c d e f g h i j k l m n o x q.
Definition setAudioContext (x : bool) (s : State) : State :=
  let '(Build_State a b c d e f g h i j k l m n o p _) := s in
  Build_State a b c d e f g h i j k l m n o p x.


(** ** Audio helpers (lines 48-66) *)

(** [decodeBase64] (lines 49-56).  [atob] is the browser's: it throws on
    text that is not base64 ([None]) and otherwise returns a binary string,
    one code unit below 256 per byte.  The loop stores
    [binaryString.charCodeAt(i)] at [bytes[i]]. *)
Definition decodeBase64 (atob : string -> option string) (base64 : string)
  : option (list Byte.byte) :=
  binaryString ← atob base64;
  Some (List.map byte_of_ascii (list_ascii_of_string binaryString)).

(** One element of an [Int16Array] over a little-endian buffer: the two
    bytes read as a 16-bit two's complement number. *)
Definition int16_le (lo hi : Byte.byte) : Z :=
  let u := Z.of_N (Byte.to_N lo) + 256 * Z.of_N (Byte.to_N hi) in
  if u <? 32768 then u else u - 65536.

(** [new Int16Array(data.buffer)]: a view of the whole buffer, one element
    per two bytes; a [RangeError] ([None]) when the byte length is odd. *)
Fixpoint int16Array (data : list Byte.byte) : option (list Z) :=
  match data with
  | [] => Some []
  | [_] => None
  | lo :: hi :: rest => cons (int16_le lo hi) <$> int16Array rest
  end.

(** An [AudioBuffer]: its sample rate, its length in sample frames, and the
    samples of each channel.  A sample is a float; the values the code
    stores, a 16-bit integer over [2^15], are floats exactly, so rationals
    carry them without rounding. *)
Record AudioBuffer := {
  sampleRate : Z;
  frameCount : nat;
  channels : list (list Q)
}.

Definition numberOfChannels (b : AudioBuffer) : nat := List.length (channels b).

(** The one method of [AudioContext] that [decodeAudioData] calls;
    [None] is an exception. *)
Record AudioContext := {
  createBuffer : nat -> nat -> Z -> option AudioBuffer
}.

(** [v / 32768.0]. *)
Definition normalize (v : Z) : Q := v # 32768.

(** The loop of lines 62-64, from index [i] on: [channelData[i] =
    dataInt16[i] / 32768.0].  A store past the end of a typed array is
    dropped, as [<[i:=_]>] does. *)
Fixpoint fillChannel (i : nat) (dataInt16 : list Z) (channelData : list Q) : list Q :=
  match dataInt16 with
  | [] => channelData
  | v :: rest => fillChannel (S i) rest (<[i := normalize v]> channelData)
  end.

(** [decodeAudioData] (lines 58-66).  [getChannelData(0)] is the channel's
    own storage, so the loop writes into the buffer that is returned. *)
Definition decodeAudioData (data : list Byte.byte) (ctx : AudioContext)
  : option AudioBuffer :=
  dataInt16 ← int16Array data;
  buffer ← createBuffer ctx 1%nat (List.length dataInt16) 24000;
  channelData ← channels buffer !! 0%nat;
  Some {| sampleRate := sampleRate buffer;
          frameCount := frameCount buffer;
          channels := <[0%nat := fillChannel 0 dataInt16 channelData]> (channels buffer) |}.

(** A buffer of silence, what [createBuffer] returns when it returns. *)
Definition silentBuffer (nch len : nat) (rate : Z) : AudioBuffer :=
  {| sampleRate := rate; frameCount := len;
     channels := replicate nch (replicate len (0 # 1)) |}.

(** [createBuffer] as the Web Audio API specifies it: a [NotSupportedError]
    when an argument is zero or outside its nominal range (1 to 32
    channels, 8000 to 96000 Hz), else silence of the shape asked for. *)
Definition webAudioContext : AudioContext :=
  {| createBuffer := fun nch len rate =>
       if ((1 <=? nch)%nat && (nch <=? 32)%nat && (1 <=? len)%nat
           && (8000 <=? rate) && (rate <=? 96000))%bool
       then Some (silentBuffer nch len rate)
       else None |}.
(** ** Effects

    What a handler does besides updating the state. *)
Inductive Effect :=
| Alert (msg : string)
| GenerateContent (model : string) (withImage : bool) (text : string)
| SetItem (key value : string)
| StartPlayback (buffer : AudioBuffer).

(** ** Recipe store (lines 176-198, 303, 345, 382) *)

(** The Heart button of the current recipe (line 303):
    [if (!savedRecipes.find(r => r.title === currentRecipe.title))
       setSavedRecipes([currentRecipe, ...savedRecipes])].
    The button exists only while [currentRecipe] is set. *)
Definition saveCurrentRecipe (s : State) : State :=
  match currentRecipe s with
  | None => s
  | Some cur =>
      match List.find (fun r => String.eqb (title r) (title cur)) (savedRecipes s) with
      | Some _ => s
      | None => setSavedRecipes (cur :: savedRecipes s) s
      end
  end.

Definition by_praj_suffix : string := " (by praj)".

(** The recipe [addManualDish] builds (lines 178-188); [uuid] is
    [crypto.randomUUID()] and [now] is [Date.now()]. *)
Definition manualRecipe (uuid : string) (now : Z) (d : CustomDish) : Recipe := {|
  id := uuid;
  title := dish_title d ++ by_praj_suffix;
  description :=
    Some ((if JsString.falsy (dish_desc d) then "A classic homemade dish." else dish_desc d)
          ++ " - Crafted by praj.");
  ingredients :=
    Some (List.filter (fun i => negb (JsString.falsy (JsString.trim i)))
            (JsString.split_lines (dish_ingredients d)));
  instructions := Some ["Step-by-step instructions not provided for manual entry."];
  prepTime := Some "Manual";
  servings := Some "N/A";
  nutrition := Some {| calories := Some "-"; protein := Some "-";
                       carbs := Some "-"; fat := Some "-" |};
  imageUrl := None;
  createdAt := now
|}.

(** [addManualDish] (lines 176-192). *)
Definition addManualDish (uuid : string) (now : Z) (s : State) : State :=
  if JsString.falsy (dish_title (customDish s)) then s
  else
    let newRecipe := manualRecipe uuid now (customDish s) in
    setShowAddDishModal false
      (setCustomDish emptyDish
         (setSavedRecipes (newRecipe :: savedRecipes s) s)).

(** The bin button of a pantry card (line 345):
    [setSavedRecipes(s => s.filter(r => r.id !== recipe.id))]. *)
Definition removeRecipe (rid : string) (s : State) : State :=
  setSavedRecipes (List.filter (fun r => negb (String.eqb (id r) rid)) (savedRecipes s)) s.

(** A click on a pantry card (line 342). *)
Definition selectRecipe (r : Recipe) (s : State) : State :=
  setView kitchen (setCurrentRecipe (Some r) s).

(** [addShoppingItem] (lines 194-198). *)
Definition addShoppingItem (s : State) : State :=
  if JsString.falsy (JsString.trim (newItemText s)) then s
  else
    setNewItemText EmptyString
      (setManualShoppingItems (manualShoppingItems s ++ [JsString.trim (newItemText s)]) s).

(** [l.filter((x, idx) => p(x, idx))], the index counted from [idx]. *)
Fixpoint filter_index {A} (p : A -> nat -> bool) (idx : nat) (l : list A) : list A :=
  match l with
  | [] => []
  | x :: l' => if p x idx then x :: filter_index p (S idx) l' else filter_index p (S idx) l'
  end.

(** The bin button of the [i]-th shopping item (line 382):
    [setManualShoppingItems(manualShoppingItems.filter((_, idx) => idx !== i))]. *)
Definition removeShoppingItem (i : nat) (s : State) : State :=
  setManualShoppingItems
    (filter_index (fun _ idx => negb (Nat.eqb idx i)) 0 (manualShoppingItems s)) s.

(** ** Cooking mode (lines 302, 465-479) *)

(** The Play button of the current recipe (line 302):
    [setCookingMode(currentRecipe)], and nothing else. *)
Definition enterCookingMode (s : State) : State :=
  match currentRecipe s with
  | None => s
  | Some r => setCookingMode (Some r) s
  end.

(** The Exit button (line 467): [setCookingMode(null)], and nothing else. *)
Definition exitCookingMode (s : State) : State := setCookingMode None s.

(** [cookingMode.instructions.length]. *)
Definition stepCount (r : Recipe) : option Z :=
  (fun l => Z.of_nat (List.length l)) <$> instructions r.

(** [disabled={currentStep === 0}] (line 477). *)
Definition prevDisabled (s : State) : bool := currentStep s =? 0.

(** [disabled={currentStep === cookingMode.instructions.length - 1}]
    (line 479), on the overlay of recipe [r] with [n] steps. *)
Definition nextDisabled (n : Z) (s : State) : bool := currentStep s =? n - 1.

(** A click on the previous button: nothing when the overlay is absent or
    the button is disabled, else
    [setCurrentStep(s => s - 1); setIsSpeaking(false)]. *)
Definition clickPrevious (s : State) : State :=
  match cookingMode s with
  | None => s
  | Some _ =>
      if prevDisabled s then s
      else setIsSpeaking false (setCurrentStep (currentStep s - 1) s)
  end.

(** A click on the next button. *)
Definition clickNext (s : State) : State :=
  match cookingMode s with
  | None => s
  | Some r =>
      match stepCount r with
      | None => s
      | Some n =>
          if nextDisabled n s then s
          else setIsSpeaking false (setCurrentStep (currentStep s + 1) s)
      end
  end.

(** ** JSON, as the handlers use it

    [JSON.parse] and [JSON.stringify] are the platform's.  TypeScript gives
    [JSON.parse] the type [any], and each call site uses the result at one
    type; [JSON_parse] at type [T] is that call: [None] is the
    [SyntaxError] of a text that is not JSON. *)
Class JsonParse (T : Type) := JSON_parse : string -> option T.
Class JsonStringify (T : Type) := JSON_stringify : T -> string.
#[global] Hint Mode JsonParse ! : typeclass_instances.
#[global] Hint Mode JsonStringify ! : typeclass_instances.

(** ** Narration (lines 200-220)

    An [async] function runs up to its first [await] inside the event that
    called it, and the rest when the awaited promise settles; the two
    halves are two functions. *)

Definition ttsModel : string := "gemini-2.5-flash-preview-tts".

(** [speakStep] up to [await ai.models.generateContent(...)]. *)
Definition speakStep (text : string) (s : State) : State * list Effect :=
  if isSpeaking s then (s, [])
  else (setAudioContext true (setIsSpeaking true s),
        [GenerateContent ttsModel false text]).

(** What the speech request settles to: a rejection, or a response whose
    first inline data part is there or not. *)
Inductive SpeechResponse :=
| SpeechRejected
| SpeechAnswer (b64 : option string).

(** The rest of [speakStep]. *)
Definition speakStep_resume (atob : string -> option string) (ctx : AudioContext)
    (resp : SpeechResponse) (s : State) : State * list Effect :=
  match resp with
  | SpeechRejected => (setIsSpeaking false s, [])
  | SpeechAnswer None => (setIsSpeaking false s, [])
  | SpeechAnswer (Some b64) =>
      if JsString.falsy b64 then (setIsSpeaking false s, [])
      else
        match decodeBase64 atob b64 ≫= (fun bytes => decodeAudioData bytes ctx) with
        | Some buffer => (s, [StartPlayback buffer])
        | None => (setIsSpeaking false s, [])
        end
  end.

(** [source.onended]. *)
Definition playbackEnded (s : State) : State := setIsSpeaking false s.

(** ** Recipe generation (lines 135-174) *)

Definition recipeModel : string := "gemini-3-pro-preview".

Definition crafted : string :=
  ". IMPORTANT: Always end the recipe description with the phrase 'Crafted by praj'.".

(** The text part of the request (lines 142-143). *)
Definition generationText (withImage : bool) (s : State) : string :=
  (if withImage then "Gourmet recipe for items in image. " else "Gourmet recipe for: ")
  ++ prompt s ++ crafted.

(** [generateRecipe] up to its [await]. *)
Definition generateRecipe (withImage : bool) (s : State) : State * list Effect :=
  (setIsCameraOpen false (setCurrentRecipe None (setIsGenerating true s)),
   [GenerateContent recipeModel withImage (generationText withImage s)]).

(** The parsed response, [data], at the properties a [Recipe] has: each is
    there or not.  The request names a schema, and a property that is there
    has the schema's type. *)
Record RecipeData := {
  d_title : option string;
  d_description : option string;
  d_ingredients : option (list string);
  d_instructions : option (list string);
  d_prepTime : option string;
  d_servings : option string;
  d_nutrition : option Nutrition;
  d_imageUrl : option string
}.

(** What the generation request settles to: a rejection, or a response with
    its [text] (which may be [undefined]). *)
Inductive GenerationResponse :=
| GenerationRejected
| GenerationAnswer (text : option string).

(** [response.text || '{}']. *)
Definition textOrEmptyObject (text : option string) : string :=
  match text with
  | Some t => if JsString.falsy t then "{}" else t
  | None => "{}"
  end.

Definition marker : string := "by praj".

(** [data.title.includes('by praj') ? data.title : `${data.title} (by praj)`]. *)
Definition finalTitle (t : string) : string :=
  if JsString.includes t marker then t else t ++ by_praj_suffix.

(** [{ ...data, title: finalTitle, id: crypto.randomUUID(), createdAt: Date.now() }]. *)
Definition recipeOfData (uuid : string) (now : Z) (t : string) (data : RecipeData) : Recipe := {|
  id := uuid;
  title := t;
  description := d_description data;
  ingredients := d_ingredients data;
  instructions := d_instructions data;
  prepTime := d_prepTime data;
  servings := d_servings data;
  nutrition := d_nutrition data;
  imageUrl := d_imageUrl data;
  createdAt := now
|}.

(** The [try] block after the [await] (lines 165-167), [None] when it
    throws: the request was rejected, [JSON.parse] threw, or [data.title]
    is [undefined] and calling [includes] on it threw. *)
Definition generatedRecipe {dataParse : JsonParse RecipeData} (uuid : string) (now : Z)
    (resp : GenerationResponse) : option Recipe :=
  match resp with
  | GenerationRejected => None
  | GenerationAnswer text =>
      data ← JSON_parse (textOrEmptyObject text);
      t ← d_title data;
      Some (recipeOfData uuid now (finalTitle t) data)
  end.

Definition generationError : string := "Error generating recipe.".

(** The rest of [generateRecipe]: [try], [catch] and [finally]. *)
Definition generateRecipe_resume {dataParse : JsonParse RecipeData} (uuid : string) (now : Z)
    (resp : GenerationResponse) (s : State) : State * list Effect :=
  let '(s1, effects) :=
    match generatedRecipe uuid now resp with
    | Some r => (setCapturedImage None (setCurrentRecipe (Some r) s), [])
    | None => (s, [Alert generationError])
    end in
  (setIsGenerating false s1, effects).

(** A whole run of [generateRecipe] with no other event in between. *)
Definition generateRecipe_run {dataParse : JsonParse RecipeData} (withImage : bool)
    (uuid : string) (now : Z) (resp : GenerationResponse) (s : State)
  : State * list Effect :=
  let '(s1, e1) := generateRecipe withImage s in
  let '(s2, e2) := generateRecipe_resume uuid now resp s1 in
  (s2, (e1 ++ e2)%list).

(** The state [generateRecipe] leaves when its [try] block throws: the one
    it set before the request, with the loading flag cleared. *)
Definition afterFailure (s : State) : State :=
  setIsGenerating false
    (setIsCameraOpen false (setCurrentRecipe None (setIsGenerating true s))).

(** The three ways the [try] block throws: the request is rejected,
    [JSON.parse] throws, [data.title] is [undefined]. *)
Inductive Throws {dataParse : JsonParse RecipeData} : GenerationResponse -> Prop :=
| throws_rejected : Throws GenerationRejected
| throws_syntax text :
    JSON_parse (T := RecipeData) (textOrEmptyObject text) = None ->
    Throws (GenerationAnswer text)
| throws_untitled text data :
    JSON_parse (textOrEmptyObject text) = Some data -> d_title data = None ->
    Throws (GenerationAnswer text).

(** ** Illustration (lines 222-235) *)

Definition imageModel : string := "gemini-2.5-flash-image".

(** [visualizeRecipe] up to its [await]. *)
Definition visualizeRecipe (s : State) : State * list Effect :=
  match currentRecipe s with
  | None => (s, [])
  | Some r =>
      (setIsVisualizing true s,
       [GenerateContent imageModel false
          ("Gourmet food photograph of " ++ title r ++ ". Plated beautifully.")])
  end.

(** [{ ...prev, imageUrl: url }]. *)
Definition withImageUrl (url : string) (r : Recipe) : Recipe := {|
  id := id r;
  title := title r;
  description := description r;
  ingredients := ingredients r;
  instructions := instructions r;
  prepTime := prepTime r;
  servings := servings r;
  nutrition := nutrition r;
  imageUrl := Some url;
  createdAt := createdAt r
|}.

(** The rest of [visualizeRecipe]; [part] is the first part of the response
    with inline data, as its MIME type and payload, and [None] also stands
    for a rejected request: the [finally] is all that runs then. *)
Definition visualizeRecipe_resume (part : option (string * string)) (s : State) : State :=
  let s1 :=
    match part with
    | Some (mimeType, data) =>
        setCurrentRecipe
          (withImageUrl ("data:" ++ mimeType ++ ";base64," ++ data) <$> currentRecipe s) s
    | None => s
    end in
  setIsVisualizing false s1.

(** ** Persistence (lines 95-109)

    [localStorage] is a finite map from keys to strings: [getItem] is the
    lookup ([None] is [null]) and [setItem] the insertion. *)

Definition recipesKey : string := "chefgenius_recipes_v3".
Definition shoppingKey : string := "chefgenius_shopping_v3".

Abbreviation Storage := (gmap string string).

(** The effects on [localStorage], applied in order. *)
Definition applyEffect (ls : Storage) (e : Effect) : Storage :=
  match e with
  | SetItem key value => <[key := value]> ls
  | _ => ls
  end.

Definition applyEffects (effects : list Effect) (ls : Storage) : Storage :=
  foldl applyEffect ls effects.

(** [if (stored) try { set(JSON.parse(stored)); } catch (e) {}]: what the
    setter is called with, if it is called.  A missing item and an empty
    one are falsy; a [SyntaxError] is swallowed. *)
Definition parsedItem {T} {parser : JsonParse T} (stored : option string) : option T :=
  match stored with
  | None => None
  | Some text => if JsString.falsy text then None else JSON_parse text
  end.

Section Effects.
Context {recipesParse : JsonParse (list Recipe)} {itemsParse : JsonParse (list string)}.
Context {recipesText : JsonStringify (list Recipe)} {itemsText : JsonStringify (list string)}.

(** The first effect (lines 96-101), run once after the first render. *)
Definition loadEffect (ls : Storage) (s : State) : State :=
  let storedRecipes := ls !! recipesKey in
  let storedItems := ls !! shoppingKey in
  let s1 := match parsedItem storedRecipes with
            | Some v => setSavedRecipes v s
            | None => s
            end in
  match parsedItem storedItems with
  | Some v => setManualShoppingItems v s1
  | None => s1
  end.

(** The second effect (lines 103-105), run after every render in which
    [savedRecipes] has changed, and after the first. *)
Definition saveRecipesEffect (s : State) : list Effect :=
  [SetItem recipesKey (JSON_stringify (savedRecipes s))].

(** The third effect (lines 107-109), likewise for [manualShoppingItems]. *)
Definition saveItemsEffect (s : State) : list Effect :=
  [SetItem shoppingKey (JSON_stringify (manualShoppingItems s))].

(** The two writing effects after a render of [s]; writing a collection
    that has not changed rewrites the same text. *)
Definition persist (s : State) : list Effect :=
  (saveRecipesEffect s ++ saveItemsEffect s)%list.

(** Mounting the component over the storage [ls].  The three effects run
    in the order they are declared after the first render, each seeing the
    first render's state: the first reads [ls] before the other two write
    the empty collections to it.  The loaded collections then cause a
    second render, whose effects write them back. *)
Definition mount (ls : Storage) : State * list Effect :=
  let s0 := initialState in
  let s1 := loadEffect ls s0 in
  (s1, (persist s0 ++ persist s1)%list).

(** The storage a session leaves behind when it ends in state [s]. *)
Definition stored (s : State) (ls : Storage) : Storage :=
  applyEffects (persist s) ls.

End Effects.

(** ** A JSON codec

    The platform's [JSON.stringify] and [JSON.parse], for the values the
    application stores: integers for numbers (a literal with a fraction or
    an exponent is outside this codec and refused), code units below 256
    in strings.  The handlers are stated over [JsonParse] and
    [JsonStringify]; this codec gives them instances to run on. *)

Module Json.

#[warnings="-register-all"]
Inductive value :=
| Null
| Bool (b : bool)
| Num (n : Z)
| Str (s : string)
| Arr (items : list value)
| Obj (members : list (string * value)).

Definition dquote : ascii := ascii_of_nat 34.
Definition backslash : ascii := ascii_of_nat 92.

(** *** Printing *)

Definition hexDigit (n : nat) : ascii :=
  if (n <? 10)%nat then ascii_of_nat (48 + n) else ascii_of_nat (87 + n).

(** One code unit of a string literal, as [JSON.stringify] writes it. *)
Definition escapeChar (c : ascii) : string :=
  let n := nat_of_ascii c in
  if (n =? 34)%nat then String backslash (String dquote EmptyString)
  else if (n =? 92)%nat then String backslash (String backslash EmptyString)
  else if (n =? 8)%nat then String backslash "b"
  else if (n =? 12)%nat then String backslash "f"
  else if (n =? 10)%nat then String backslash "n"
  else if (n =? 13)%nat then String backslash "r"
  else if (n =? 9)%nat then String backslash "t"
  else if (n <? 32)%nat then
    String backslash
      (String "u" (String "0" (String "0"
         (String (hexDigit (n / 16)) (String (hexDigit (n mod 16)) EmptyString)))))
  else String c EmptyString.

Fixpoint escape (s : string) : string :=
  match s with
  | EmptyString => EmptyString
  | String c s' => escapeChar c ++ escape s'
  end.

Definition printString (s : string) : string :=
  String dquote (escape s ++ String dquote EmptyString).

Definition printNumber (n : Z) : string := NilEmpty.string_of_int (Z.to_int n).

(** The texts of the elements, with commas between them. *)
Fixpoint commaSeparated {A} (f : A -> string) (l : list A) : string :=
  match l with
  | [] => EmptyString
  | [x] => f x
  | x :: l' => f x ++ String "," (commaSeparated f l')
  end.

Fixpoint print (v : value) : string :=
  match v with
  | Null => "null"
  | Bool true => "true"
  | Bool false => "false"
  | Num n => printNumber n
  | Str s => printString s
  | Arr items => String "[" (commaSeparated print items ++ "]")
  | Obj members =>
      String "{"
        (commaSeparated (fun m => printString m.1 ++ String ":" (print m.2)) members ++ "}")
  end.

(** *** Parsing *)

(** JSON's whitespace: space, TAB, LF and CR. *)
Definition isSpace (c : ascii) : bool :=
  let n := nat_of_ascii c in
  (n =? 32)%nat || (n =? 9)%nat || (n =? 10)%nat || (n =? 13)%nat.

Fixpoint skipSpace (s : string) : string :=
  match s with
  | String c s' => if isSpace c then skipSpace s' else s
  | EmptyString => EmptyString
  end.

Definition hexValue (c : ascii) : option nat :=
  let n := nat_of_ascii c in
  if ((48 <=? n) && (n <=? 57))%nat then Some (n - 48)%nat
  else if ((97 <=? n) && (n <=? 102))%nat then Some (n - 87)%nat
  else if ((65 <=? n) && (n <=? 70))%nat then Some (n - 55)%nat
  else None.

(** The character an escape letter stands for. *)
Definition unescape (c : ascii) : option ascii :=
  let n := nat_of_ascii c in
  if (n =? 34)%nat || (n =? 92)%nat || (n =? 47)%nat then Some c
  else if (n =? 98)%nat then Some (ascii_of_nat 8)
  else if (n =? 102)%nat then Some (ascii_of_nat 12)
  else if (n =? 110)%nat then Some (ascii_of_nat 10)
  else if (n =? 114)%nat then Some (ascii_of_nat 13)
  else if (n =? 116)%nat then Some (ascii_of_nat 9)
  else None.

(** A string literal after its opening quote: the text, and what follows
    the closing quote. *)
Fixpoint parseChars (s : string) : option (string * string) :=
  match s with
  | EmptyString => None
  | String c s' =>
      if Ascii.eqb c dquote then Some (EmptyString, s')
      else if Ascii.eqb c backslash then
        match s' with
        | String "u" (String h1 (String h2 (String h3 (String h4 s'')))) =>
            a ← hexValue h1; b ← hexValue h2; x ← hexValue h3; y ← hexValue h4;
            if ((a =? 0) && (b =? 0))%nat then
              '(t, rest) ← parseChars s'';
              Some (String (ascii_of_nat (16 * x + y)) t, rest)
            else None
        | String e s'' =>
            c' ← unescape e;
            '(t, rest) ← parseChars s'';
            Some (String c' t, rest)
        | EmptyString => None
        end
      else if (nat_of_ascii c <? 32)%nat then None
      else
        '(t, rest) ← parseChars s';
        Some (String c t, rest)
  end.

Definition isNumberChar (c : ascii) : bool :=
  let n := nat_of_ascii c in
  (n =? 45)%nat || ((48 <=? n) && (n <=? 57))%nat.

(** The longest prefix of number characters, and the rest. *)
Fixpoint spanNumber (s : string) : string * string :=
  match s with
  | String c s' =>
      if isNumberChar c then let '(t, rest) := spanNumber s' in (String c t, rest)
      else (EmptyString, s)
  | EmptyString => (EmptyString, EmptyString)
  end.

(** An integer literal: the digits must be the ones the number prints
    as, which refuses a lone sign and a leading zero; [-0] is zero. *)
Definition parseNumber (s : string) : option (Z * string) :=
  let '(t, rest) := spanNumber s in
  d ← NilEmpty.int_of_string t;
  let n := Z.of_int d in
  if String.eqb (printNumber n) t then Some (n, rest)
  else if String.eqb t "-0" then Some (0, rest)
  else None.

(** [s] without the prefix [word], if it starts with it. *)
Fixpoint dropPrefix (word s : string) : option string :=
  match word, s with
  | EmptyString, _ => Some s
  | String a word', String b s' => if Ascii.eqb a b then dropPrefix word' s' else None
  | String _ _, EmptyString => None
  end.

(** [s] after whitespace and the character [c], if that is what it
    starts with. *)
Definition token (c : ascii) (s : string) : option string :=
  match skipSpace s with
  | String a rest => if Ascii.eqb a c then Some rest else None
  | EmptyString => None
  end.

(** A value, and what follows it.  [fuel] bounds the number of values
    and separators read. *)
Fixpoint parseValue (fuel : nat) (s : string) : option (value * string) :=
  match fuel with
  | O => None
  | S fuel' =>
      match skipSpace s with
      | EmptyString => None
      | String c s' =>
          if isNumberChar c then
            '(n, rest) ← parseNumber (String c s'); Some (Num n, rest)
          else if Ascii.eqb c dquote then
            '(t, rest) ← parseChars s'; Some (Str t, rest)
          else if Ascii.eqb c "[" then
            match token "]" s' with
            | Some rest => Some (Arr [], rest)
            | None => '(l, rest) ← parseItems fuel' s'; Some (Arr l, rest)
            end
          else if Ascii.eqb c "{" then
            match token "}" s' with
            | Some rest => Some (Obj [], rest)
            | None => '(l, rest) ← parseMembers fuel' s'; Some (Obj l, rest)
            end
          else if Ascii.eqb c "t" then rest ← dropPrefix "rue" s'; Some (Bool true, rest)
          else if Ascii.eqb c "f" then rest ← dropPrefix "alse" s'; Some (Bool false, rest)
          else if Ascii.eqb c "n" then rest ← dropPrefix "ull" s'; Some (Null, rest)
          else None
      end
  end
with parseItems (fuel : nat) (s : string) : option (list value * string) :=
  match fuel with
  | O => None
  | S fuel' =>
      '(x, rest) ← parseValue fuel' s;
      match token "," rest with
      | Some rest' => '(l, rest'') ← parseItems fuel' rest'; Some (x :: l, rest'')
      | None => rest' ← token "]" rest; Some ([x], rest')
      end
  end
with parseMembers (fuel : nat) (s : string) : option (list (string * value) * string) :=
  match fuel with
  | O => None
  | S fuel' =>
      s' ← token dquote s;
      '(k, rest) ← parseChars s';
      rest' ← token ":" rest;
      '(x, rest'') ← parseValue fuel' rest';
      match token "," rest'' with
      | Some r => '(l, r') ← parseMembers fuel' r; Some ((k, x) :: l, r')
      | None => r ← token "}" rest''; Some ([(k, x)], r)
      end
  end.

(** [JSON.parse]: one value, with nothing but whitespace after it. *)
Definition parse (s : string) : option value :=
  '(v, rest) ← parseValue (S (String.length s)) s;
  match skipSpace rest with
  | EmptyString => Some v
  | String _ _ => None
  end.

(** The property [key] of an object: of two members of one name the later
    one counts. *)
Fixpoint property (key : string) (members : list (string * value)) : option value :=
  match members with
  | [] => None
  | (k, x) :: l =>
      match property key l with
      | Some y => Some y
      | None => if String.eqb k key then Some x else None
      end
  end.

End Json.

(** ** The application's values as JSON

    What [JSON.stringify] makes of a recipe, a list of recipes and a list
    of strings, and the way back: the view of a parsed value at the type
    the call site gives it.  The stored collections are texts the
    application wrote itself; a stored value that is not of the type has
    no view ([None]) and is outside this model.  The response of a
    generation is read property by property, each at the type the schema
    of the request gives it. *)

Module Codec.
Import Json.

Definition ofString (v : value) : option string :=
  match v with Str s => Some s | _ => None end.

Definition ofNumber (v : value) : option Z :=
  match v with Num n => Some n | _ => None end.

Fixpoint ofItems {T} (f : value -> option T) (l : list value) : option (list T) :=
  match l with
  | [] => Some []
  | v :: l' => x ← f v; t ← ofItems f l'; Some (x :: t)
  end.

Definition ofArray {T} (f : value -> option T) (v : value) : option (list T) :=
  match v with Arr l => ofItems f l | _ => None end.

Definition stringsToJson (l : list string) : value := Arr (List.map Str l).
Definition ofStrings : value -> option (list string) := ofArray ofString.

(** A property that must be there. *)
Definition required {T} (f : value -> option T) (key : string)
    (members : list (string * value)) : option T :=
  property key members ≫= f.

(** A property that may be missing. *)
Definition optional {T} (f : value -> option T) (key : string)
    (members : list (string * value)) : option (option T) :=
  match property key members with
  | None => Some None
  | Some v => Some <$> f v
  end.

(** The member for a property that may be [undefined]: [JSON.stringify]
    leaves such a property out. *)
Definition member {T} (key : string) (f : T -> value) (o : option T)
  : list (string * value) :=
  match o with Some x => [(key, f x)] | None => [] end.

(** A property at the type the interface declares: [None] when it is
    missing, and when what is there is of another type. *)
Definition typed {T} (f : value -> option T) (key : string)
    (members : list (string * value)) : option T :=
  property key members ≫= f.

Definition nutritionToJson (n : Nutrition) : value :=
  Obj (member "calories" Str (calories n) ++ member "protein" Str (protein n)
       ++ member "carbs" Str (carbs n) ++ member "fat" Str (fat n)).

(** An object is a nutrition, with the members it has. *)
Definition nutritionOfJson (v : value) : option Nutrition :=
  match v with
  | Obj ms =>
      Some {| calories := typed ofString "calories" ms;
              protein := typed ofString "protein" ms;
              carbs := typed ofString "carbs" ms;
              fat := typed ofString "fat" ms |}
  | _ => None
  end.

Definition recipeToJson (r : Recipe) : value :=
  Obj ([("id", Str (id r)); ("title", Str (title r))]
       ++ member "description" Str (description r)
       ++ member "ingredients" stringsToJson (ingredients r)
       ++ member "instructions" stringsToJson (instructions r)
       ++ member "prepTime" Str (prepTime r)
       ++ member "servings" Str (servings r)
       ++ member "nutrition" nutritionToJson (nutrition r)
       ++ member "imageUrl" Str (imageUrl r)
       ++ [("createdAt", Num (createdAt r))]).

Definition recipeOfJson (v : value) : option Recipe :=
  match v with
  | Obj ms =>
      i ← required ofString "id" ms;
      t ← required ofString "title" ms;
      d ← optional ofString "description" ms;
      g ← optional ofStrings "ingredients" ms;
      s ← optional ofStrings "instructions" ms;
      p ← optional ofString "prepTime" ms;
      e ← optional ofString "servings" ms;
      n ← optional nutritionOfJson "nutrition" ms;
      u ← optional ofString "imageUrl" ms;
      c ← required ofNumber "createdAt" ms;
      Some {| id := i; title := t; description := d; ingredients := g;
              instructions := s; prepTime := p; servings := e; nutrition := n;
              imageUrl := u; createdAt := c |}
  | _ => None
  end.

(** The parsed response of [generateRecipe], at the properties of a
    recipe.  [JSON.parse] returns whatever value the text denotes and
    the handler looks at none of it but [data.title], so every value has
    a view: a value that is not an object has none of the properties,
    and a property that is there with another type than the schema's
    (the service is asked for the schema) is read as not there.  For the
    title that is what the handler does with it: a number, a boolean,
    [null] or an object has no [includes], as [undefined] has none.  (A
    title that is an array has one, and is outside this model.) *)
Definition dataOfJson (v : value) : RecipeData :=
  let ms := match v with Obj ms => ms | _ => [] end in
  {| d_title := typed ofString "title" ms;
     d_description := typed ofString "description" ms;
     d_ingredients := typed ofStrings "ingredients" ms;
     d_instructions := typed ofStrings "instructions" ms;
     d_prepTime := typed ofString "prepTime" ms;
     d_servings := typed ofString "servings" ms;
     d_nutrition := typed nutritionOfJson "nutrition" ms;
     d_imageUrl := typed ofString "imageUrl" ms |}.

Definition recipesToJson (l : list Recipe) : value := Arr (List.map recipeToJson l).

(** The codec at the types of the three call sites. *)
Definition parseData : JsonParse RecipeData := fun s => dataOfJson <$> parse s.
Definition parseRecipes : JsonParse (list Recipe) := fun s => parse s ≫= ofArray recipeOfJson.
Definition parseStrings : JsonParse (list string) := fun s => parse s ≫= ofStrings.
Definition stringifyRecipes : JsonStringify (list Recipe) := fun l => print (recipesToJson l).
Definition stringifyStrings : JsonStringify (list string) := fun l => print (stringsToJson l).

End Codec.

(** The codec of this development as the platform's [JSON]. *)
Section WithCodec.
#[local] Existing Instances Codec.parseRecipes Codec.parseStrings Codec.parseData
  Codec.stringifyRecipes Codec.stringifyStrings.

Definition codecMount : Storage → State * list Effect := mount.
Definition codecStored : State → Storage → Storage := stored.
Definition codecGenerate : bool → string → Z → GenerationResponse → State
                           → State * list Effect := generateRecipe_run.
End WithCodec.

(** ** The application as a machine

    Every way the state changes: one event per handler of the component,
    the two halves of an [async] handler being two events, and the reload
    of the page. *)

Inductive Event :=
| Navigate (v : View)
| TypePrompt (text : string)
| TypeSearch (text : string)
| TypeItem (text : string)
| EditDish (d : CustomDish)
| OpenDishModal
| CloseDishModal
| StartCamera
| CameraDenied
| CapturePhoto (image : string)
| Retake
| CloseCamera
| Generate (withImage : bool)
| GenerationSettled (uuid : string) (now : Z) (resp : GenerationResponse)
| Visualize
| VisualizationSettled (part : option (string * string))
| SaveCurrent
| AddManualDish (uuid : string) (now : Z)
| RemoveRecipe (rid : string)
| SelectRecipe (i : nat)
| AddShoppingItem
| RemoveShoppingItem (i : nat)
| EnterCooking
| ExitCooking
| Previous
| Next
| Speak (text : string)
| SpeechSettled (resp : SpeechResponse)
| PlaybackEnded
| Reload.

Section Machine.
Context {dataParse : JsonParse RecipeData}.
Context {recipesParse : JsonParse (list Recipe)} {itemsParse : JsonParse (list string)}.
Context {recipesText : JsonStringify (list Recipe)} {itemsText : JsonStringify (list string)}.
Context (atob : string -> option string) (ctx : AudioContext).

(** The state and the effects of one event.  [SelectRecipe i] is the click
    on the card of the [i]-th saved recipe; [Reload] mounts the component
    anew over the storage the state was written to. *)
Definition react (e : Event) (s : State) : State * list Effect :=
  match e with
  | Navigate v => (setView v s, [])
  | TypePrompt text => (setPrompt text s, [])
  | TypeSearch text => (setSearchQuery text s, [])
  | TypeItem text => (setNewItemText text s, [])
  | EditDish d => (setCustomDish d s, [])
  | OpenDishModal => (setShowAddDishModal true s, [])
  | CloseDishModal => (setShowAddDishModal false s, [])
  | StartCamera => (setCapturedImage None (setIsCameraOpen true s), [])
  | CameraDenied => (setIsCameraOpen false s, [Alert "Could not access camera."])
  | CapturePhoto image => (setCapturedImage (Some image) s, [])
  | Retake => (setCapturedImage None s, [])
  | CloseCamera => (setIsCameraOpen false s, [])
  | Generate withImage => generateRecipe withImage s
  | GenerationSettled uuid now resp => generateRecipe_resume uuid now resp s
  | Visualize => visualizeRecipe s
  | VisualizationSettled part => (visualizeRecipe_resume part s, [])
  | SaveCurrent => (saveCurrentRecipe s, [])
  | AddManualDish uuid now => (addManualDish uuid now s, [])
  | RemoveRecipe rid => (removeRecipe rid s, [])
  | SelectRecipe i =>
      match savedRecipes s !! i with
      | Some r => (selectRecipe r s, [])
      | None => (s, [])
      end
  | AddShoppingItem => (addShoppingItem s, [])
  | RemoveShoppingItem i => (removeShoppingItem i s, [])
  | EnterCooking => (enterCookingMode s, [])
  | ExitCooking => (exitCookingMode s, [])
  | Previous => (clickPrevious s, [])
  | Next => (clickNext s, [])
  | Speak text => speakStep text s
  | SpeechSettled resp => speakStep_resume atob ctx resp s
  | PlaybackEnded => (playbackEnded s, [])
  | Reload => mount (stored s ∅)
  end.

Definition handle (e : Event) (s : State) : State := (react e s).1.

(** The states of the application, from a first mount over an empty
    storage. *)
Inductive reachable : State -> Prop :=
| reachable_mount : reachable (mount ∅).1
| reachable_handle e s : reachable s -> reachable (handle e s).

End Machine.

(** The recipes a state holds: the saved ones, the current one, the one
    being cooked. *)
Definition holds (s : State) (r : Recipe) : Prop :=
  r ∈ savedRecipes s ∨ currentRecipe s = Some r ∨ cookingMode s = Some r.

(** The title carries the marker. *)
Definition marked (r : Recipe) : Prop := JsString.includes (title r) marker = true.

(** Where a recipe of the next state comes from: it was held already (up
    to its image), it was just generated, or it was just entered by hand. *)
Inductive Origin {dataParse : JsonParse RecipeData} (s : State) (r : Recipe) : Prop :=
| origin_held r0 : holds s r0 -> title r0 = title r -> Origin s r
| origin_generated uuid now resp : generatedRecipe uuid now resp = Some r -> Origin s r
| origin_manual uuid now : r = manualRecipe uuid now (customDish s) -> Origin s r.

(** ** The values of the examples *)

(** The dish of the examples. *)
Definition soup : CustomDish :=
  {| dish_title := "Soup"; dish_desc := EmptyString; dish_ingredients := "Water" |}.

Definition salad : CustomDish :=
  {| dish_title := "Salad"; dish_desc := "Green."; dish_ingredients := "Leaves" |}.

(** A recipe of two steps, as a generation response would give it. *)
Definition toast : Recipe := {|
  id := "id-t"; title := "Toast (by praj)"; description := Some "Crafted by praj";
  ingredients := Some ["Bread"]; instructions := Some ["Slice."; "Toast."];
  prepTime := Some "5 min"; servings := Some "1";
  nutrition := Some {| calories := Some "80"; protein := Some "3g";
                       carbs := Some "15g"; fat := Some "1g" |};
  imageUrl := None; createdAt := 7
|}.

(** The bytes [00 80 ff 7f 00 40]: the samples -32768, 32767 and 16384. *)
Definition pcmExample : list Byte.byte :=
  [Byte.x00; Byte.x80; Byte.xff; Byte.x7f; Byte.x00; Byte.x40].

(** The response text [{"title":"Soup"}]. *)
Definition soupResponse : string :=
  let q := String Json.dquote EmptyString in
  "{" ++ q ++ "title" ++ q ++ ":" ++ q ++ "Soup" ++ q ++ "}".

(** The response text [{"description":"Hot."}]. *)
Definition untitledResponse : string :=
  let q := String Json.dquote EmptyString in
  "{" ++ q ++ "description" ++ q ++ ":" ++ q ++ "Hot." ++ q ++ "}".

(** A response text with every property the schema requires but the
    description:
    [{"title":"Soup","prepTime":"5 min","servings":"2",
      "nutrition":{"calories":"90","protein":"2g","carbs":"20g","fat":"0g"},
      "ingredients":["Water"],"instructions":["Boil."]}]. *)
Definition plainResponse : string :=
  let q := String Json.dquote EmptyString in
  let str (k v : string) := q ++ k ++ q ++ ":" ++ q ++ v ++ q in
  "{" ++ str "title" "Soup" ++ "," ++ str "prepTime" "5 min" ++ "," ++ str "servings" "2"
  ++ "," ++ q ++ "nutrition" ++ q ++ ":{"
  ++ str "calories" "90" ++ "," ++ str "protein" "2g" ++ ","
  ++ str "carbs" "20g" ++ "," ++ str "fat" "0g" ++ "}"
  ++ "," ++ q ++ "ingredients" ++ q ++ ":[" ++ q ++ "Water" ++ q ++ "]"
  ++ "," ++ q ++ "instructions" ++ q ++ ":[" ++ q ++ "Boil." ++ q ++ "]}".

(** ** What the views compute from the state (lines 285, 341, 359, 374-392, 475-479) *)

(** [String.prototype.toLowerCase] on one code unit below 256: the Latin
    capitals [A-Z] and the Latin-1 capitals [U+00C0-U+00DE] but the
    multiplication sign move up by 32. *)
Definition lowerChar (c : ascii) : ascii :=
  let n := nat_of_ascii c in
  if (((65 <=? n) && (n <=? 90)) || ((192 <=? n) && (n <=? 222) && negb (n =? 215)))%nat
  then ascii_of_nat (n + 32)
  else c.

Fixpoint toLowerCase (s : string) : string :=
  match s with
  | EmptyString => EmptyString
  | String c s' => String (lowerChar c) (toLowerCase s')
  end.

(** The cards of the pantry (line 341):
    [savedRecipes.filter(r =>
       r.title.toLowerCase().includes(searchQuery.toLowerCase()))]. *)
Definition filterLibrary (s : State) : list Recipe :=
  List.filter
    (fun r => JsString.includes (toLowerCase (title r)) (toLowerCase (searchQuery s)))
    (savedRecipes s).

(** The notice of the empty pantry (line 359): [savedRecipes.length === 0]. *)
Definition emptyPantryNotice (s : State) : bool :=
  Nat.eqb (List.length (savedRecipes s)) 0.

(** The rows marked "Recipe" of the shopping view (line 385):
    [savedRecipes.flatMap(r => r.ingredients)].  [flatMap] flattens an
    array and keeps anything else as one element, so a recipe whose
    [ingredients] is [undefined] gives one [undefined] row. *)
Definition recipeItems (s : State) : list (option string) :=
  flat_map
    (fun r => match ingredients r with
              | Some l => List.map Some l
              | None => [None]
              end)
    (savedRecipes s).

(** The notice of the empty shopping list (line 392):
    [manualShoppingItems.length === 0 && savedRecipes.length === 0]. *)
Definition emptyShoppingNotice (s : State) : bool :=
  Nat.eqb (List.length (manualShoppingItems s)) 0
  && Nat.eqb (List.length (savedRecipes s)) 0.

(** The heading of the cooking overlay (line 475):
    [cookingMode.instructions[currentStep]], [None] when it is [undefined]
    (and when there is no overlay to show it). *)
Definition shownInstruction (s : State) : option string :=
  r ← cookingMode s;
  l ← instructions r;
  if currentStep s <? 0 then None else l !! Z.to_nat (currentStep s).

(** A run of clicks on the two buttons of the cooking overlay, [true] for
    next and [false] for previous. *)
Definition clickSteps (clicks : list bool) (s : State) : State :=
  foldl (fun s' (next : bool) => if next then clickNext s' else clickPrevious s') s clicks.

(** The Generate button (line 285): [disabled={isGenerating || !prompt}]. *)
Definition generateDisabled (s : State) : bool :=
  isGenerating s || JsString.falsy (prompt s).

(** ** Which events can change which cell *)

(** The events whose handler calls [setSavedRecipes]. *)
Definition touchesLibrary (e : Event) : bool :=
  match e with
  | SaveCurrent | AddManualDish _ _ | RemoveRecipe _ | Reload => true
  | _ => false
  end.

(** The events whose handler calls [setManualShoppingItems]. *)
Definition touchesShopping (e : Event) : bool :=
  match e with
  | AddShoppingItem | RemoveShoppingItem _ | Reload => true
  | _ => false
  end.

(** The events whose handler calls [setCurrentRecipe]. *)
Definition touchesCurrent (e : Event) : bool :=
  match e with
  | Generate _ | GenerationSettled _ _ _ | VisualizationSettled _
  | SelectRecipe _ | Reload => true
  | _ => false
  end.

(** The events whose handler calls [setCookingMode]. *)
Definition touchesCooking (e : Event) : bool :=
  match e with
  | EnterCooking | ExitCooking | Reload => true
  | _ => false
  end.

(** [crypto.randomUUID()] returns an identifier that no recipe has yet:
    the identifier an event brings is not the one of a recipe the state
    holds. *)
Definition freshFor (e : Event) (s : State) : Prop :=
  match e with
  | GenerationSettled uuid _ _ | AddManualDish uuid _ =>
      forall r, holds s r -> id r <> uuid
  | _ => True
  end.

Section FreshMachine.
Context {dataParse : JsonParse RecipeData}.
Context {recipesParse : JsonParse (list Recipe)} {itemsParse : JsonParse (list string)}.
Context {recipesText : JsonStringify (list Recipe)} {itemsText : JsonStringify (list string)}.
Context (atob : string -> option string) (ctx : AudioContext).

(** The states of the application when every identifier is fresh. *)
Inductive reachableFresh : State -> Prop :=
| fresh_mount : reachableFresh (mount ∅).1
| fresh_handle e s :
    reachableFresh s -> freshFor e s -> reachableFresh (handle atob ctx e s).

End FreshMachine.

(** A text that [trim] leaves as it is, and that is not empty. *)
Definition trimmed (t : string) : Prop := t <> EmptyString /\ JsString.trim t = t.

(** The saved recipes have distinct identifiers, and two recipes the state
    holds under one identifier have one title. *)
Definition distinctIds (s : State) : Prop :=
  NoDup (List.map id (savedRecipes s))
  /\ forall r r', holds s r -> holds s r' -> id r = id r' -> title r = title r'.

(** Where a recipe of the next state comes from, with its identifier: it
    was held already (up to its image), it is the recipe the event
    generated, or it is the dish the event entered. *)
Inductive Source {dataParse : JsonParse RecipeData} (e : Event) (s : State) (r : Recipe)
  : Prop :=
| source_held r0 : holds s r0 -> id r0 = id r -> title r0 = title r -> Source e s r
| source_generated uuid now resp :
    e = GenerationSettled uuid now resp ->
    generatedRecipe uuid now resp = Some r -> Source e s r
| source_manual uuid now :
    e = AddManualDish uuid now -> r = manualRecipe uuid now (customDish s) ->
    Source e s r.

(** A text of one line: no line feed in it. *)
Definition oneLine (t : string) : Prop := ~ In JsString.newline (list_ascii_of_string t).

(** The separator of [split('\n')], and of [join('\n')], its inverse. *)
Definition lineFeed : string := String JsString.newline EmptyString.

(** * Properties *)

(** ** Strings *)

Module JsStringFacts.
Import JsString.

Lemma falsy_true (s : string) : falsy s = true ↔ s = EmptyString.
Proof. destruct s; simpl; split; congruence. Qed.

Lemma falsy_false (s : string) : falsy s = false ↔ s ≠ EmptyString.
Proof. destruct s; simpl; split; congruence. Qed.

Lemma append_cons (c : ascii) (s t : string) : String c s ++ t = String c (s ++ t).
Proof. reflexivity. Qed.

Definition all_whitespace (s : string) : Prop :=
  Forall (fun c => is_whitespace c = true) (list_ascii_of_string s).

Lemma trimStart_empty (s : string) : trimStart s = EmptyString ↔ all_whitespace s.
Proof.
  unfold all_whitespace. induction s as [|c s IH]; simpl.
  - split; [constructor | reflexivity].
  - destruct (is_whitespace c) eqn:Hc.
    + rewrite IH. split; [by constructor | by inversion 1].
    + split; [discriminate | inversion 1; congruence].
Qed.

Lemma trimEnd_empty (s : string) : trimEnd s = EmptyString ↔ all_whitespace s.
Proof.
  unfold all_whitespace. induction s as [|c s IH]; simpl.
  - split; [constructor | reflexivity].
  - destruct (trimEnd s) eqn:Ht.
    + destruct (is_whitespace c) eqn:Hc.
      * split; [intros _; constructor; [done | by apply IH] | done].
      * split; [discriminate | inversion 1; congruence].
    + split; [discriminate |].
      inversion 1 as [|? ? ? Hs]; subst. apply IH in Hs. discriminate.
Qed.

Lemma trimStart_suffix (s : string) :
  ∃ pre, s = pre ++ trimStart s ∧ all_whitespace pre.
Proof.
  induction s as [|c s (pre & Hs & Hpre)]; simpl.
  - exists EmptyString. split; [done | constructor].
  - destruct (is_whitespace c) eqn:Hc.
    + exists (String c pre).
      split; [change (String c s = String c (pre ++ trimStart s)); congruence |].
      unfold all_whitespace. simpl. by constructor.
    + exists EmptyString. split; [done | constructor].
Qed.

Lemma trimEnd_prefix (s : string) :
  ∃ post, s = trimEnd s ++ post ∧ all_whitespace post.
Proof.
  induction s as [|c s (post & Hs & Hpost)]; simpl.
  - exists EmptyString. split; [done | constructor].
  - destruct (trimEnd s) as [|a t] eqn:Ht.
    + destruct (is_whitespace c) eqn:Hc.
      * exists (String c s). split; [done |].
        unfold all_whitespace. simpl. constructor; [done |]. by apply trimEnd_empty.
      * exists s. split; [done |]. by apply trimEnd_empty.
    + exists post. split; [| done]. rewrite append_cons. by f_equal.
Qed.

(** The first character of what [trimStart] leaves is not whitespace. *)
Lemma trimStart_head (s : string) (c : ascii) (t : string) :
  trimStart s = String c t → is_whitespace c = false.
Proof.
  induction s as [|a s IH]; simpl; [done |].
  destruct (is_whitespace a) eqn:Ha; [done |]. by intros [= <- _].
Qed.

(** [trimEnd] keeps the first character of a text that starts with a
    character that is not whitespace. *)
Lemma trimEnd_head (c : ascii) (s : string) :
  is_whitespace c = false → ∃ t, trimEnd (String c s) = String c t.
Proof.
  intros Hc. simpl. destruct (trimEnd s); [rewrite Hc |]; by eexists.
Qed.

(** [trim] takes whitespace, and nothing else, off the two ends: the text
    is whitespace, the trimmed text, whitespace, and the trimmed text does
    not start with whitespace. *)
Lemma trim_spec (s : string) :
  (∃ pre post, s = pre ++ trim s ++ post ∧ all_whitespace pre ∧ all_whitespace post)
  ∧ ∀ c t, trim s = String c t → is_whitespace c = false.
Proof.
  unfold trim. split.
  - destruct (trimStart_suffix s) as (pre & Hs & Hpre).
    destruct (trimEnd_prefix (trimStart s)) as (post & Ht & Hpost).
    exists pre, post. by rewrite <- Ht.
  - intros c t Ht. destruct (trimStart s) as [|a u] eqn:Hu; [done |].
    pose proof (trimStart_head s a u Hu) as Ha.
    destruct (trimEnd_head a u Ha) as [v Hv]. rewrite Hv in Ht. by injection Ht as <- _.
Qed.

Lemma all_whitespace_app (pre s : string) :
  all_whitespace pre → all_whitespace s → all_whitespace (pre ++ s).
Proof.
  unfold all_whitespace. induction pre as [|c pre IH]; [done |].
  change (String c pre ++ s) with (String c (pre ++ s)). simpl.
  inversion 1; subst. intros Hs. constructor; auto.
Qed.

(** Text is trimmed to nothing exactly when it is all whitespace (the empty
    text included). *)
Lemma trim_empty (s : string) : trim s = EmptyString ↔ all_whitespace s.
Proof.
  unfold trim. rewrite trimEnd_empty. split.
  - intros Hall. destruct (trimStart_suffix s) as (pre & Hs & Hpre).
    rewrite Hs. by apply all_whitespace_app.
  - intros Hall. apply trimStart_empty in Hall. rewrite Hall. constructor.
Qed.

Lemma includes_cons (c : ascii) (s sub : string) :
  includes (String c s) sub
  = if String.prefix sub (String c s) then true else includes s sub.
Proof. reflexivity. Qed.

Lemma includes_prefix (s sub : string) : String.prefix sub s = true → includes s sub = true.
Proof.
  intros Hp. destruct s as [|c s]; [by destruct sub |].
  by rewrite includes_cons, Hp.
Qed.

Lemma includes_app_r (pre s sub : string) :
  includes s sub = true → includes (pre ++ s) sub = true.
Proof.
  intros Hs. induction pre as [|c pre IH]; [done |].
  rewrite append_cons, includes_cons, IH. by destruct (String.prefix _ _).
Qed.

Lemma prefix_app (s t : string) : String.prefix s (s ++ t) = true.
Proof.
  induction s as [|c s IH]; [by destruct t |].
  rewrite append_cons. simpl. by destruct (ascii_dec c c).
Qed.

Lemma includes_here (t sub : string) : includes (sub ++ t) sub = true.
Proof. apply includes_prefix, prefix_app. Qed.

Lemma prefix_split (sub s : string) :
  String.prefix sub s = true → ∃ post, s = sub ++ post.
Proof.
  revert s. induction sub as [|a sub IH]; intros s Hp; [by exists s |].
  destruct s as [|b s]; simpl in Hp; [done |].
  destruct (ascii_dec a b) as [->|]; [| done].
  destruct (IH _ Hp) as [post ->]. by exists post.
Qed.

(** [includes] is the occurrence of [sub] somewhere in [s]. *)
Lemma includes_spec (s sub : string) :
  includes s sub = true ↔ ∃ pre post, s = pre ++ sub ++ post.
Proof.
  split.
  - induction s as [|c s IH].
    + destruct sub; [| done]. intros _. by exists EmptyString, EmptyString.
    + rewrite includes_cons. destruct (String.prefix sub (String c s)) eqn:Hp.
      * intros _. exists EmptyString. by apply prefix_split.
      * intros (pre & post & Hs)%IH. exists (String c pre), post.
        rewrite append_cons. by f_equal.
  - intros (pre & post & ->). apply includes_app_r, includes_here.
Qed.

End JsStringFacts.


(** ** Recipe store *)

Section Store.
Implicit Types (s : State) (r : Recipe).

Definition sameTitle (r r' : Recipe) : bool := String.eqb (title r') (title r).

Lemma find_is_Some {A} (f : A → bool) (l : list A) :
  is_Some (List.find f l) ↔ ∃ x, x ∈ l ∧ f x = true.
Proof.
  induction l as [|a l IH]; simpl.
  - split; [by intros [? ?] | by intros (? & ?%elem_of_nil & _)].
  - destruct (f a) eqn:Ha.
    + split; [intros _; exists a; split; [left | done] | by eauto].
    + rewrite IH. split.
      * intros (x & Hx & Hf). exists x. split; [by right | done].
      * intros (x & [->| Hx]%elem_of_cons & Hf); [congruence | eauto].
Qed.

(** The Heart button does nothing when a saved recipe has the title of the
    current one. *)
Lemma saveCurrentRecipe_duplicate s r :
  currentRecipe s = Some r →
  (∃ r', r' ∈ savedRecipes s ∧ title r' = title r) →
  saveCurrentRecipe s = s.
Proof.
  intros Hcur (r' & Hin & Ht). unfold saveCurrentRecipe. rewrite Hcur.
  destruct (List.find _ _) eqn:Hf; [done |].
  assert (is_Some (List.find (λ x, String.eqb (title x) (title r)) (savedRecipes s))) as [? Hs].
  { apply find_is_Some. exists r'. split; [done |]. by apply String.eqb_eq. }
  congruence.
Qed.

(** The Heart button puts the current recipe in front of the saved ones
    when none of them has its title. *)
Lemma saveCurrentRecipe_fresh s r :
  currentRecipe s = Some r →
  (∀ r', r' ∈ savedRecipes s → title r' ≠ title r) →
  saveCurrentRecipe s = setSavedRecipes (r :: savedRecipes s) s.
Proof.
  intros Hcur Hfresh. unfold saveCurrentRecipe. rewrite Hcur.
  destruct (List.find _ _) as [r'|] eqn:Hf; [| done].
  apply find_some in Hf as [Hin Ht]. apply String.eqb_eq in Ht.
  exfalso. eapply Hfresh; [| done]. by apply list_elem_of_In.
Qed.

Lemma savedRecipes_setSavedRecipes l s : savedRecipes (setSavedRecipes l s) = l.
Proof. by destruct s. Qed.

(** [addManualDish] puts the new dish in front of the saved ones, whatever
    their titles are. *)
Lemma addManualDish_savedRecipes uuid now s :
  dish_title (customDish s) ≠ EmptyString →
  savedRecipes (addManualDish uuid now s)
  = manualRecipe uuid now (customDish s) :: savedRecipes s.
Proof.
  intros Ht%JsStringFacts.falsy_false. unfold addManualDish. rewrite Ht.
  by destruct s.
Qed.

Lemma addManualDish_untitled uuid now s :
  dish_title (customDish s) = EmptyString → addManualDish uuid now s = s.
Proof. intros Ht. unfold addManualDish. by rewrite Ht. Qed.

End Store.

(** Claim C1 (a defect). Entering the dish "Soup" twice by hand leaves two
    saved recipes with the one title "Soup (by praj)": [addManualDish] does
    not look for a saved recipe of the same title, as the Heart button does. *)
Theorem C1_manual_entry_duplicates_title :
  let s1 := addManualDish "id-1" 1 (setCustomDish soup initialState) in
  let s2 := addManualDish "id-2" 2 (setCustomDish soup s1) in
  List.map title (savedRecipes s1) = ["Soup (by praj)"]
  ∧ List.map title (savedRecipes s2) = ["Soup (by praj)"; "Soup (by praj)"]
  ∧ List.length (savedRecipes s2) = S (List.length (savedRecipes s1)).
Proof. by vm_compute. Qed.

(** Claim C4, refuted as stated. With the soup saved, saving the salad, by
    the Heart button or by hand, gives salad then soup: the new entry is the
    first of the collection, and not the last. *)
Lemma C4_counterexample_new_entry_is_not_last :
  let a := manualRecipe "id-1" 1 soup in
  let b := manualRecipe "id-2" 2 salad in
  let s := setSavedRecipes [a] initialState in
  savedRecipes (saveCurrentRecipe (setCurrentRecipe (Some b) s)) = [b; a]
  ∧ savedRecipes (saveCurrentRecipe (setCurrentRecipe (Some b) s)) ≠ [a; b]
  ∧ savedRecipes (addManualDish "id-2" 2 (setCustomDish salad s)) = [b; a]
  ∧ savedRecipes (addManualDish "id-2" 2 (setCustomDish salad s)) ≠ [a; b].
Proof. vm_compute. repeat split; discriminate. Qed.

(** Claim C4, as the code has it. A recipe that is added, by the Heart
    button (when no saved recipe has its title) or by hand (when the dish
    has a name), becomes the first of the saved collection, and the recipes
    saved before follow it in the order they had. *)
Theorem C4_new_entry_comes_first (s : State) :
  (∀ r, currentRecipe s = Some r →
        (∀ r', r' ∈ savedRecipes s → title r' ≠ title r) →
        savedRecipes (saveCurrentRecipe s) = r :: savedRecipes s)
  ∧ (∀ uuid now, dish_title (customDish s) ≠ EmptyString →
        savedRecipes (addManualDish uuid now s)
        = manualRecipe uuid now (customDish s) :: savedRecipes s).
Proof.
  split.
  - intros r Hcur Hfresh. rewrite (saveCurrentRecipe_fresh s r Hcur Hfresh).
    apply savedRecipes_setSavedRecipes.
  - intros uuid now Ht. by apply addManualDish_savedRecipes.
Qed.

(** C4 as the code has it, at the soup and the salad. *)
Lemma C4_new_entry_comes_first_witness :
  let a := manualRecipe "id-1" 1 soup in
  let b := manualRecipe "id-2" 2 salad in
  let s := setCustomDish salad (setCurrentRecipe (Some b) (setSavedRecipes [a] initialState)) in
  savedRecipes (saveCurrentRecipe s) = [b; a]
  ∧ savedRecipes (addManualDish "id-3" 3 s) = [manualRecipe "id-3" 3 salad; a].
Proof.
  intros a b s. split.
  - apply (proj1 (C4_new_entry_comes_first s) b); [reflexivity |].
    intros r' Hin. apply list_elem_of_singleton in Hin. subst r'. discriminate.
  - apply (proj2 (C4_new_entry_comes_first s) "id-3" 3). discriminate.
Defined.

(** ** Shopping list *)

Section Shopping.
Implicit Types (s : State) (l : list string).

Lemma filter_index_all {A} (p : A → nat → bool) (k : nat) (l : list A) :
  (∀ x idx, (k ≤ idx)%nat → p x idx = true) → filter_index p k l = l.
Proof.
  revert k. induction l as [|x l IH]; intros k Hp; simpl; [done |].
  rewrite Hp by lia. f_equal. apply IH. intros y idx Hle. apply Hp. lia.
Qed.

(** Filtering out one index of a list deletes the element there. *)
Lemma filter_index_delete {A} (l : list A) (k i : nat) :
  filter_index (λ _ idx, negb (Nat.eqb idx (k + i))) k l = delete i l.
Proof.
  revert k i. induction l as [|x l IH]; intros k i; simpl; [done |].
  destruct i as [|i].
  - replace (k + 0)%nat with k by lia. rewrite Nat.eqb_refl. simpl.
    apply filter_index_all. intros y idx Hle.
    apply negb_true_iff, Nat.eqb_neq. lia.
  - replace (k =? k + S i)%nat with false by (symmetry; apply Nat.eqb_neq; lia).
    simpl. f_equal. replace (k + S i)%nat with (S k + i)%nat by lia. apply IH.
Qed.

Lemma removeShoppingItem_delete i s :
  removeShoppingItem i s = setManualShoppingItems (delete i (manualShoppingItems s)) s.
Proof. unfold removeShoppingItem. f_equal. apply (filter_index_delete _ 0%nat i). Qed.

Lemma manualShoppingItems_set l s :
  manualShoppingItems (setManualShoppingItems l s) = l.
Proof. by destruct s. Qed.

End Shopping.

(** Claim C9. [addShoppingItem] puts the trimmed text at the end of the
    shopping list (and empties the input) unless the text is empty or all
    whitespace, in which case it changes nothing; [removeShoppingItem i]
    takes out the element at position [i] and leaves the others as they
    were, in order; adding "Milk", then "Eggs", then removing position 0
    leaves "Eggs". *)
Theorem C9_shopping_list :
  (∀ s, JsString.trim (newItemText s) ≠ EmptyString →
        addShoppingItem s
        = setNewItemText EmptyString
            (setManualShoppingItems
               (manualShoppingItems s ++ [JsString.trim (newItemText s)]) s))
  ∧ (∀ s, JsStringFacts.all_whitespace (newItemText s) → addShoppingItem s = s)
  ∧ (∀ s i, removeShoppingItem i s
            = setManualShoppingItems
                (take i (manualShoppingItems s) ++ drop (S i) (manualShoppingItems s)) s)
  ∧ (∀ s i j x, manualShoppingItems (removeShoppingItem i s) !! j = Some x ↔
                (j < i)%nat ∧ manualShoppingItems s !! j = Some x
                ∨ (i ≤ j)%nat ∧ manualShoppingItems s !! S j = Some x)
  ∧ manualShoppingItems
      (removeShoppingItem 0
         (addShoppingItem (setNewItemText "Eggs"
            (addShoppingItem (setNewItemText "Milk" initialState))))) = ["Eggs"].
Proof.
  repeat split.
  - intros s Ht%JsStringFacts.falsy_false. unfold addShoppingItem. by rewrite Ht.
  - intros s Hws%JsStringFacts.trim_empty. unfold addShoppingItem. by rewrite Hws.
  - intros s i. rewrite removeShoppingItem_delete. f_equal. apply delete_take_drop.
  - rewrite removeShoppingItem_delete, manualShoppingItems_set.
    destruct (decide (j < i)%nat) as [Hlt|Hge].
    + rewrite list_lookup_delete_lt by done. intros Hx. by left.
    + rewrite list_lookup_delete_ge by lia. intros Hx. right. split; [lia | done].
  - rewrite removeShoppingItem_delete, manualShoppingItems_set.
    intros [[Hlt Hx]|[Hge Hx]].
    + by rewrite list_lookup_delete_lt.
    + by rewrite list_lookup_delete_ge.
Qed.

(** C9 at the texts "  Milk " and "   ". *)
Lemma C9_shopping_list_witness :
  let s := setNewItemText "  Milk " initialState in
  manualShoppingItems (addShoppingItem s) = ["Milk"]
  ∧ addShoppingItem (setNewItemText "   " initialState) = setNewItemText "   " initialState.
Proof.
  intros s. split.
  - rewrite (proj1 C9_shopping_list s); [reflexivity | discriminate].
  - apply (proj1 (proj2 C9_shopping_list)).
    unfold JsStringFacts.all_whitespace. simpl. repeat constructor.
Defined.

(** ** Cooking mode *)

Section Cooking.
Implicit Types (s : State) (r : Recipe).

Lemma currentStep_step i s : currentStep (setIsSpeaking false (setCurrentStep i s)) = i.
Proof. by destruct s. Qed.

Lemma cookingMode_step i s :
  cookingMode (setIsSpeaking false (setCurrentStep i s)) = cookingMode s.
Proof. by destruct s. Qed.

(** The index that [s] shows is one of the steps of the recipe being cooked. *)
Definition stepInRange s : Prop :=
  ∀ r n, cookingMode s = Some r → stepCount r = Some n → 0 ≤ currentStep s ≤ n - 1.

(** Within one stay in cooking mode the two buttons keep the index in
    range. *)
Lemma clickNext_in_range s : stepInRange s → stepInRange (clickNext s).
Proof.
  intros Hs r n Hr Hn. unfold clickNext in *.
  destruct (cookingMode s) as [r'|] eqn:Hc; [| congruence].
  destruct (stepCount r') as [n'|] eqn:Hn'; [| exact (Hs r n Hr Hn)].
  unfold nextDisabled in *. destruct (currentStep s =? n' - 1) eqn:Hd.
  - exact (Hs r n Hr Hn).
  - rewrite cookingMode_step, Hc in Hr. rewrite currentStep_step.
    assert (r' = r) as -> by congruence. assert (n' = n) as -> by congruence.
    specialize (Hs r n Hc Hn). apply Z.eqb_neq in Hd. lia.
Qed.

Lemma clickPrevious_in_range s : stepInRange s → stepInRange (clickPrevious s).
Proof.
  intros Hs r n Hr Hn. unfold clickPrevious in *.
  destruct (cookingMode s) as [r'|] eqn:Hc; [| congruence].
  unfold prevDisabled in *. destruct (currentStep s =? 0) eqn:Hd.
  - exact (Hs r n Hr Hn).
  - rewrite cookingMode_step, Hc in Hr. rewrite currentStep_step.
    assert (r' = r) as -> by congruence.
    specialize (Hs r n Hc Hn). apply Z.eqb_neq in Hd. lia.
Qed.

End Cooking.



(** Claim C2 (a defect). The step index is reset neither by the Play button
    nor by the Exit button. After moving to the second step of a two-step
    recipe and leaving, cooking the one-step manual dish opens at index 1:
    not at 0, and past its last step. *)
Theorem C2_stale_step_on_reentry :
  let dish := manualRecipe "id-1" 1 soup in
  let s := setSavedRecipes [toast; dish] initialState in
  let s1 := clickNext (enterCookingMode (selectRecipe toast s)) in
  let s2 := enterCookingMode (selectRecipe dish (exitCookingMode s1)) in
  currentStep (enterCookingMode (selectRecipe toast s)) = 0
  ∧ cookingMode s2 = Some dish
  ∧ stepCount dish = Some 1
  ∧ currentStep s2 = 1
  ∧ ¬ (0 ≤ currentStep s2 ≤ 1 - 1).
Proof. vm_compute. repeat split; try discriminate. intros [_ H]. by apply H. Qed.

(** ** Narration *)

(** Claim C5. While the speaking flag is set, [speakStep] returns at once:
    the state is the one it was called in, and no request (no effect at all)
    is issued. *)
Theorem C5_narration_rejected_while_speaking (text : string) (s : State) :
  isSpeaking s = true → speakStep text s = (s, []).
Proof. intros Hs. unfold speakStep. by rewrite Hs. Qed.

(** C5 at a second request while the first step is being narrated. *)
Lemma C5_narration_rejected_while_speaking_witness :
  let s := (speakStep "Slice." (enterCookingMode (selectRecipe toast initialState))).1 in
  isSpeaking s = true ∧ speakStep "Toast." s = (s, []).
Proof.
  intros s. split; [reflexivity |].
  apply (C5_narration_rejected_while_speaking "Toast." s). reflexivity.
Defined.

(** ** Audio decoding *)

Section Audio.
Implicit Types (data : list Byte.byte) (channelData : list Q).

Lemma byte_range (b : Byte.byte) : 0 ≤ Z.of_N (Byte.to_N b) ≤ 255.
Proof. pose proof (Byte.to_N_bounded b). lia. Qed.

(** An element of an [Int16Array] is a 16-bit two's complement number. *)
Lemma int16_le_range (lo hi : Byte.byte) : -32768 ≤ int16_le lo hi ≤ 32767.
Proof.
  unfold int16_le. pose proof (byte_range lo). pose proof (byte_range hi).
  destruct (_ <? 32768) eqn:Hlt; [apply Z.ltb_lt in Hlt | apply Z.ltb_ge in Hlt]; lia.
Qed.

(** The view exists exactly on an even number of bytes, and has one
    element per pair, the pair's bytes in little-endian order. *)
Lemma int16Array_even data :
  Nat.even (List.length data) = true →
  ∃ dataInt16,
    int16Array data = Some dataInt16
    ∧ List.length dataInt16 = (List.length data / 2)%nat
    ∧ ∀ i lo hi, data !! (2 * i)%nat = Some lo → data !! (2 * i + 1)%nat = Some hi →
                 dataInt16 !! i = Some (int16_le lo hi).
Proof.
  induction data as [data IH] using (induction_ltof1 _ (@List.length _)).
  unfold ltof in IH. destruct data as [|lo [|hi rest]]; intros Heven.
  - exists []. by repeat split.
  - discriminate.
  - destruct (IH rest) as (tl & Htl & Hlen & Hget); [simpl; lia | done |].
    exists (int16_le lo hi :: tl). simpl int16Array. rewrite Htl. split; [done |].
    split.
    + change (List.length (lo :: hi :: rest)) with (2 + List.length rest)%nat.
      simpl List.length. rewrite Hlen.
      replace (2 + List.length rest)%nat with (List.length rest + 1 * 2)%nat by lia.
      rewrite Nat.div_add by lia. lia.
    + intros [|i] lo' hi' Hlo Hhi.
      * simpl in *. congruence.
      * replace (2 * S i)%nat with (S (S (2 * i))) in Hlo by lia.
        replace (2 * S i + 1)%nat with (S (S (2 * i + 1))) in Hhi by lia.
        simpl in Hlo, Hhi. simpl. by apply Hget.
Qed.

Lemma int16Array_odd data :
  Nat.even (List.length data) = false → int16Array data = None.
Proof.
  induction data as [data IH] using (induction_ltof1 _ (@List.length _)).
  unfold ltof in IH. destruct data as [|lo [|hi rest]]; intros Hodd.
  - discriminate.
  - done.
  - simpl. rewrite IH; [done | simpl; lia | done].
Qed.

(** What the loop leaves at each index of the channel. *)
Lemma fillChannel_lookup (dataInt16 : list Z) : ∀ i channelData j,
  (i + List.length dataInt16 ≤ List.length channelData)%nat →
  fillChannel i dataInt16 channelData !! j
  = if decide (i ≤ j < i + List.length dataInt16)%nat
    then normalize <$> dataInt16 !! (j - i)%nat
    else channelData !! j.
Proof.
  induction dataInt16 as [|v rest IH]; intros i channelData j Hlen; simpl in *.
  - case_decide; [lia | done].
  - rewrite IH by (rewrite length_insert; lia).
    destruct (decide (j = i)) as [->|Hne].
    + rewrite decide_False by lia. rewrite decide_True by lia.
      rewrite Nat.sub_diag. simpl. apply list_lookup_insert_eq. lia.
    + rewrite list_lookup_insert_ne by done.
      repeat case_decide; try lia; [| done].
      replace (j - i)%nat with (S (j - S i)) by lia. done.
Qed.

Lemma fillChannel_length (dataInt16 : list Z) : ∀ i channelData,
  List.length (fillChannel i dataInt16 channelData) = List.length channelData.
Proof.
  induction dataInt16 as [|v rest IH]; intros i channelData; simpl; [done |].
  by rewrite IH, length_insert.
Qed.

(** A 16-bit number over [2^15] lies between -1 and 1. *)
Lemma normalize_range (v : Z) :
  -32768 ≤ v ≤ 32767 → (-1 <= normalize v)%Q ∧ (normalize v <= 1)%Q.
Proof. unfold normalize, Qle. simpl. lia. Qed.

Lemma normalize_quotient (v : Z) : (normalize v == inject_Z v / inject_Z 32768)%Q.
Proof. unfold normalize, Qeq, Qdiv, Qmult, Qinv, inject_Z. simpl. lia. Qed.

End Audio.

Section Samples.
Implicit Types (data : list Byte.byte).

(** The element of the view as arithmetic on the two bytes: the low
    byte, 256 times the high byte, and [2^16] less when the top bit of
    the high byte is set. *)
Lemma int16_le_sign (lo hi : Byte.byte) :
  int16_le lo hi
  = Z.of_N (Byte.to_N lo) + 256 * Z.of_N (Byte.to_N hi)
    - (if 128 <=? Z.of_N (Byte.to_N hi) then 65536 else 0).
Proof.
  unfold int16_le. pose proof (byte_range lo). pose proof (byte_range hi).
  destruct (_ <? 32768) eqn:Hlt; [apply Z.ltb_lt in Hlt | apply Z.ltb_ge in Hlt];
    destruct (128 <=? _) eqn:Hhi; [apply Z.leb_le in Hhi | apply Z.leb_gt in Hhi
                                  | apply Z.leb_le in Hhi | apply Z.leb_gt in Hhi]; lia.
Qed.

(** In a context that grants the buffer asked for, the stream decodes. *)
Lemma decodeAudioData_granted (ctx : AudioContext) data (dataInt16 : list Z) :
  int16Array data = Some dataInt16 →
  createBuffer ctx 1%nat (List.length dataInt16) 24000
  = Some (silentBuffer 1 (List.length dataInt16) 24000) →
  decodeAudioData data ctx
  = Some {| sampleRate := 24000; frameCount := List.length dataInt16;
            channels := [fillChannel 0 dataInt16
                           (replicate (List.length dataInt16) (0 # 1))] |}.
Proof. intros Hview Hctx. unfold decodeAudioData. rewrite Hview. simpl. by rewrite Hctx. Qed.

(** The Web Audio context grants every buffer of one channel, at 24000
    Hz, of at least one frame, and refuses the buffer of no frame. *)
Lemma createBuffer_webAudioContext (len : nat) :
  createBuffer webAudioContext 1%nat len 24000
  = if decide (len = 0%nat) then None else Some (silentBuffer 1 len 24000).
Proof. by destruct len. Qed.

End Samples.

(** Claim C7, as the code has it.  On a stream of [2n] bytes, [n] at least
    1, [decodeAudioData] returns a buffer of one channel, at 24000 Hz, of
    [n] frames.  Its [i]-th sample is the [i]-th sample of the stream
    divided by 32768, where the sample of the bytes [lo], [hi] is the
    signed 16-bit number they spell in little-endian order: [lo + 256 hi],
    less [65536] when the top bit of [hi] is set.  It lies between -1 and
    1. *)
Theorem C7_decodeAudioData_normalizes (data : list Byte.byte) :
  data ≠ [] →
  Nat.even (List.length data) = true →
  ∃ buffer samples,
    decodeAudioData data webAudioContext = Some buffer
    ∧ numberOfChannels buffer = 1%nat
    ∧ sampleRate buffer = 24000
    ∧ frameCount buffer = (List.length data / 2)%nat
    ∧ channels buffer = [samples]
    ∧ List.length samples = (List.length data / 2)%nat
    ∧ ∀ i lo hi,
        data !! (2 * i)%nat = Some lo → data !! (2 * i + 1)%nat = Some hi →
        ∃ q v,
          samples !! i = Some q
          ∧ v = Z.of_N (Byte.to_N lo) + 256 * Z.of_N (Byte.to_N hi)
                - (if 128 <=? Z.of_N (Byte.to_N hi) then 65536 else 0)
          ∧ -32768 ≤ v ≤ 32767
          ∧ (q == inject_Z v / inject_Z 32768)%Q
          ∧ (-1 <= q)%Q ∧ (q <= 1)%Q.
Proof.
  intros Hne Heven.
  destruct (int16Array_even data Heven) as (dataInt16 & Hview & Hlen & Hget).
  assert (List.length dataInt16 ≠ 0)%nat as Hframes.
  { rewrite Hlen. destruct data as [|lo [|hi rest]]; [done | done |].
    simpl List.length.
    replace (S (S (List.length rest))) with (List.length rest + 1 * 2)%nat by lia.
    rewrite Nat.div_add by lia. lia. }
  pose proof (createBuffer_webAudioContext (List.length dataInt16)) as Hctx.
  rewrite decide_False in Hctx by done.
  rewrite (decodeAudioData_granted _ _ _ Hview Hctx), <- Hlen.
  eexists _, _. split; [reflexivity |]. do 4 (split; [done |]). split.
  { by rewrite fillChannel_length, length_replicate. }
  intros i lo hi Hlo Hhi.
  exists (normalize (int16_le lo hi)), (int16_le lo hi).
  specialize (Hget i lo hi Hlo Hhi).
  assert (i < List.length dataInt16)%nat by (by eapply lookup_lt_Some).
  split.
  { rewrite fillChannel_lookup by (rewrite length_replicate; lia).
    rewrite decide_True by lia. by rewrite Nat.sub_0_r, Hget. }
  split; [apply int16_le_sign |]. split; [apply int16_le_range |].
  split; [apply normalize_quotient |].
  apply normalize_range, int16_le_range.
Qed.

(** Claim C7, refuted as stated.  The stream of no byte is a stream of no
    sample, and [createBuffer] refuses a buffer of no frame: there is no
    buffer of length 0, [decodeAudioData] throws. *)
Lemma C7_counterexample_empty_stream :
  int16Array [] = Some []
  ∧ createBuffer webAudioContext 1%nat 0%nat 24000 = None
  ∧ decodeAudioData [] webAudioContext = None.
Proof. by vm_compute. Qed.

(** C7 at the example stream, the bytes [00 80 ff 7f 00 40]: the samples
    -32768, 32767 and 16384 over 32768. *)
Lemma C7_decodeAudioData_normalizes_witness :
  decodeAudioData pcmExample webAudioContext
  = Some {| sampleRate := 24000; frameCount := 3;
            channels := [[(-32768) # 32768; 32767 # 32768; 16384 # 32768]] |}
  ∧ ∃ buffer samples,
      decodeAudioData pcmExample webAudioContext = Some buffer
      ∧ numberOfChannels buffer = 1%nat
      ∧ sampleRate buffer = 24000
      ∧ frameCount buffer = 3%nat
      ∧ channels buffer = [samples]
      ∧ List.length samples = 3%nat
      ∧ ∀ i lo hi,
          pcmExample !! (2 * i)%nat = Some lo → pcmExample !! (2 * i + 1)%nat = Some hi →
          ∃ q v,
            samples !! i = Some q
            ∧ v = Z.of_N (Byte.to_N lo) + 256 * Z.of_N (Byte.to_N hi)
                  - (if 128 <=? Z.of_N (Byte.to_N hi) then 65536 else 0)
            ∧ -32768 ≤ v ≤ 32767
            ∧ (q == inject_Z v / inject_Z 32768)%Q
            ∧ (-1 <= q)%Q ∧ (q <= 1)%Q.
Proof.
  split; [reflexivity |].
  apply (C7_decodeAudioData_normalizes pcmExample); [discriminate | reflexivity].
Defined.

(** What the example decodes to, and the two streams the context or the
    view refuse: an odd number of bytes, and no byte at all. *)
Example decodeAudioData_example :
  (channels <$> decodeAudioData pcmExample webAudioContext)
  = Some [[(-32768) # 32768; 32767 # 32768; 16384 # 32768]]
  ∧ decodeAudioData [Byte.x01] webAudioContext = None
  ∧ decodeAudioData [] webAudioContext = None.
Proof. by vm_compute. Qed.

(** ** The JSON codec: parsing what was printed *)

Module JsonFacts.
Import Json.

Lemma app_cons (c : ascii) (s t : string) : String c s ++ t = String c (s ++ t).
Proof. reflexivity. Qed.

Lemma app_assoc (s t u : string) : (s ++ t) ++ u = s ++ (t ++ u).
Proof. induction s as [|c s IH]; [done |]. by rewrite !app_cons, IH. Qed.

Lemma app_nil_r (s : string) : s ++ EmptyString = s.
Proof. induction s as [|c s IH]; [done |]. by rewrite app_cons, IH. Qed.

Lemma length_app (s t : string) :
  String.length (s ++ t) = (String.length s + String.length t)%nat.
Proof. induction s as [|c s IH]; [done |]. rewrite app_cons. simpl. by rewrite IH. Qed.

Lemma length_cons (c : ascii) (s : string) :
  String.length (String c s) = S (String.length s).
Proof. reflexivity. Qed.

(** *** String literals *)

Lemma parseChars_escapeChar (c : ascii) (t : string) :
  parseChars (escapeChar c ++ t)
  = '(u, rest) ← parseChars t; Some (String c u, rest).
Proof. destruct c as [[] [] [] [] [] [] [] []]; reflexivity. Qed.

Lemma parseChars_escape (s rest : string) :
  parseChars (escape s ++ String dquote rest) = Some (s, rest).
Proof.
  induction s as [|c s IH]; [reflexivity |].
  simpl escape. by rewrite app_assoc, parseChars_escapeChar, IH.
Qed.

Lemma parseChars_printString (s rest : string) :
  ∃ t, printString s ++ rest = String dquote t ∧ parseChars t = Some (s, rest).
Proof.
  exists (escape s ++ String dquote rest). split; [| apply parseChars_escape].
  unfold printString. by rewrite app_cons, app_assoc.
Qed.

(** *** Numbers *)

Fixpoint allNumberChars (t : string) : Prop :=
  match t with
  | EmptyString => True
  | String c t' => isNumberChar c = true ∧ allNumberChars t'
  end.

(** What may follow a number: not a character that would prolong it. *)
Definition endsNumber (rest : string) : Prop :=
  match rest with
  | EmptyString => True
  | String c _ => isNumberChar c = false
  end.

Lemma spanNumber_app (t rest : string) :
  allNumberChars t → endsNumber rest → spanNumber (t ++ rest) = (t, rest).
Proof.
  intros Ht Hrest. induction t as [|c t IH].
  - destruct rest as [|c rest]; [done |]. simpl in *. by rewrite Hrest.
  - destruct Ht as [Hc Ht]. rewrite app_cons. simpl. by rewrite Hc, IH.
Qed.

Lemma string_of_uint_chars (d : Decimal.uint) :
  allNumberChars (NilEmpty.string_of_uint d).
Proof. induction d; simpl; auto. Qed.

Lemma printNumber_chars (n : Z) : allNumberChars (printNumber n).
Proof.
  unfold printNumber. destruct (Z.to_int n); simpl; auto using string_of_uint_chars.
Qed.

Lemma printNumber_head (n : Z) :
  ∃ c t, printNumber n = String c t ∧ isNumberChar c = true.
Proof.
  unfold printNumber. destruct n as [|p|p]; simpl.
  - by eexists _, _.
  - destruct (Pos.to_uint p) eqn:Hp; [| by eexists _, _ ..].
    by destruct (DecimalPos.Unsigned.to_uint_nonnil p).
  - by eexists _, _.
Qed.

Lemma parseNumber_printNumber (n : Z) (rest : string) :
  endsNumber rest → parseNumber (printNumber n ++ rest) = Some (n, rest).
Proof.
  intros Hrest. unfold parseNumber.
  rewrite spanNumber_app by auto using printNumber_chars.
  unfold printNumber. rewrite NilEmpty.isi. simpl.
  rewrite DecimalZ.of_to. by rewrite String.eqb_refl.
Qed.

Lemma numberChar_not_space (c : ascii) : isNumberChar c = true → isSpace c = false.
Proof. destruct c as [[] [] [] [] [] [] [] []]; done. Qed.

Lemma numberChar_not_bracket (c : ascii) :
  isNumberChar c = true → Ascii.eqb c "]" = false.
Proof. destruct c as [[] [] [] [] [] [] [] []]; done. Qed.

(** *** Values *)

Definition printMember (m : string * value) : string :=
  printString m.1 ++ String ":" (print m.2).

Lemma print_Arr (items : list value) :
  print (Arr items) = String "[" (commaSeparated print items ++ "]").
Proof. reflexivity. Qed.

Lemma print_Obj (members : list (string * value)) :
  print (Obj members) = String "{" (commaSeparated printMember members ++ "}").
Proof. reflexivity. Qed.

(** A printed value starts with a character that is neither whitespace
    nor a closing bracket. *)
Lemma print_head (v : value) :
  ∃ c t, print v = String c t ∧ isSpace c = false ∧ Ascii.eqb c "]" = false.
Proof.
  destruct v as [|[]|n|s|items|members]; try (by eexists _, _).
  destruct (printNumber_head n) as (c & t & Hn & Hc). exists c, t.
  auto using numberChar_not_space, numberChar_not_bracket.
Qed.

Lemma commaSeparated_cons {A} (f : A → string) (x y : A) (l : list A) :
  commaSeparated f (x :: y :: l) = f x ++ String "," (commaSeparated f (y :: l)).
Proof. reflexivity. Qed.

Lemma parseValue_S (fuel : nat) (s : string) :
  parseValue (S fuel) s
  = match skipSpace s with
    | EmptyString => None
    | String c s' =>
        if isNumberChar c then
          '(n, rest) ← parseNumber (String c s'); Some (Num n, rest)
        else if Ascii.eqb c dquote then
          '(t, rest) ← parseChars s'; Some (Str t, rest)
        else if Ascii.eqb c "[" then
          match token "]" s' with
          | Some rest => Some (Arr [], rest)
          | None => '(l, rest) ← parseItems fuel s'; Some (Arr l, rest)
          end
        else if Ascii.eqb c "{" then
          match token "}" s' with
          | Some rest => Some (Obj [], rest)
          | None => '(l, rest) ← parseMembers fuel s'; Some (Obj l, rest)
          end
        else if Ascii.eqb c "t" then rest ← dropPrefix "rue" s'; Some (Bool true, rest)
        else if Ascii.eqb c "f" then rest ← dropPrefix "alse" s'; Some (Bool false, rest)
        else if Ascii.eqb c "n" then rest ← dropPrefix "ull" s'; Some (Null, rest)
        else None
    end.
Proof. reflexivity. Qed.

Lemma parseValue_bracket (fuel : nat) (s : string) :
  parseValue (S fuel) (String "[" s)
  = match token "]" s with
    | Some rest => Some (Arr [], rest)
    | None => '(l, rest) ← parseItems fuel s; Some (Arr l, rest)
    end.
Proof. reflexivity. Qed.

Lemma parseValue_brace (fuel : nat) (s : string) :
  parseValue (S fuel) (String "{" s)
  = match token "}" s with
    | Some rest => Some (Obj [], rest)
    | None => '(l, rest) ← parseMembers fuel s; Some (Obj l, rest)
    end.
Proof. reflexivity. Qed.

Lemma token_here (c : ascii) (s : string) :
  isSpace c = false → token c (String c s) = Some s.
Proof. intros Hc. unfold token. simpl. by rewrite Hc, Ascii.eqb_refl. Qed.

Lemma token_other (c a : ascii) (s : string) :
  isSpace a = false → Ascii.eqb a c = false → token c (String a s) = None.
Proof. intros Ha Hc. unfold token. simpl. by rewrite Ha, Hc. Qed.

Lemma parseItems_S (fuel : nat) (s : string) :
  parseItems (S fuel) s
  = '(x, rest) ← parseValue fuel s;
    match token "," rest with
    | Some rest' => '(l, rest'') ← parseItems fuel rest'; Some (x :: l, rest'')
    | None => rest' ← token "]" rest; Some ([x], rest')
    end.
Proof. reflexivity. Qed.

Lemma parseMembers_S (fuel : nat) (s : string) :
  parseMembers (S fuel) s
  = s' ← token dquote s;
    '(k, rest) ← parseChars s';
    rest' ← token ":" rest;
    '(x, rest'') ← parseValue fuel rest';
    match token "," rest'' with
    | Some r => '(l, r') ← parseMembers fuel r; Some ((k, x) :: l, r')
    | None => r ← token "}" rest''; Some ([(k, x)], r)
    end.
Proof. reflexivity. Qed.

Lemma print_nonempty (v : value) : (1 ≤ String.length (print v))%nat.
Proof. destruct (print_head v) as (c & t & -> & _). simpl. lia. Qed.

#[local] Arguments commaSeparated : simpl never.
#[local] Arguments parseValue : simpl never.
#[local] Arguments parseItems : simpl never.
#[local] Arguments parseMembers : simpl never.
#[local] Arguments token : simpl never.
#[local] Arguments print : simpl never.

(** With fuel past the length of the text, a printed value, a printed
    sequence of items and a printed sequence of members are read back. *)
Lemma parse_print_fuel (fuel : nat) :
  (∀ v rest, endsNumber rest → (String.length (print v) < fuel)%nat →
             parseValue fuel (print v ++ rest) = Some (v, rest))
  ∧ (∀ x l rest,
       (S (String.length (commaSeparated print (x :: l))) < fuel)%nat →
       parseItems fuel (commaSeparated print (x :: l) ++ String "]" rest)
       = Some (x :: l, rest))
  ∧ (∀ m l rest,
       (S (String.length (commaSeparated printMember (m :: l))) < fuel)%nat →
       parseMembers fuel (commaSeparated printMember (m :: l) ++ String "}" rest)
       = Some (m :: l, rest)).
Proof.
  induction fuel as [|fuel (IHv & IHi & IHm)]; [repeat split; intros; lia |].
  repeat split.
  - intros v rest Hrest Hlen. destruct v as [|[]|n|s|items|members]; try reflexivity.
    + destruct (printNumber_head n) as (c & t & Hn & Hc).
      rewrite parseValue_S. change (print (Num n)) with (printNumber n).
      rewrite Hn, app_cons.
      simpl skipSpace. rewrite (numberChar_not_space c Hc), Hc.
      rewrite <- app_cons, <- Hn. by rewrite parseNumber_printNumber.
    + destruct (parseChars_printString s rest) as (t & Ht & Hp).
      rewrite parseValue_S. change (print (Str s)) with (printString s).
      rewrite Ht. simpl. by rewrite Hp.
    + rewrite print_Arr in *. rewrite app_cons, app_assoc, parseValue_bracket.
      change ("]" ++ rest) with (String "]" rest).
      destruct items as [|x l]; [reflexivity |].
      assert (token "]" (commaSeparated print (x :: l) ++ String "]" rest) = None) as ->.
      { destruct (print_head x) as (c & t & Hx & Hs & Hb).
        destruct l; [change (commaSeparated print [x]) with (print x)
                    | rewrite commaSeparated_cons];
          rewrite Hx, ?app_cons; by apply token_other. }
      rewrite IHi; [done |]. rewrite length_cons, length_app in Hlen.
      change (String.length "]") with 1%nat in Hlen. lia.
    + rewrite print_Obj in *. rewrite app_cons, app_assoc, parseValue_brace.
      change ("}" ++ rest) with (String "}" rest).
      destruct members as [|m l]; [reflexivity |].
      assert (token "}" (commaSeparated printMember (m :: l) ++ String "}" rest) = None) as ->.
      { destruct l; [change (commaSeparated printMember [m]) with (printMember m)
                    | rewrite commaSeparated_cons];
          unfold printMember, printString; rewrite ?app_cons; by apply token_other. }
      rewrite IHm; [done |]. rewrite length_cons, length_app in Hlen.
      change (String.length "}") with 1%nat in Hlen. lia.
  - intros x l rest Hlen. rewrite parseItems_S. destruct l as [|y l].
    + change (commaSeparated print [x]) with (print x) in *.
      rewrite IHv; [done | done | lia].
    + rewrite commaSeparated_cons in *. rewrite app_assoc, app_cons.
      rewrite length_app, length_cons in Hlen.
      rewrite IHv; [| done | lia]. simpl.
      rewrite ?token_here by done. rewrite IHi; [done |].
      pose proof (print_nonempty x). lia.
  - intros [k x] l rest Hlen. rewrite parseMembers_S.
    assert (∀ tail, printMember (k, x) ++ tail
                    = String dquote (escape k ++ String dquote (String ":" (print x ++ tail))))
      as Hm.
    { intros tail. unfold printMember, printString. cbn [fst snd].
      repeat (rewrite app_cons || rewrite app_assoc). reflexivity. }
    assert (String.length (print x) < String.length (printMember (k, x)))%nat as Hx.
    { unfold printMember, printString. cbn [fst snd].
      rewrite length_app, !length_cons. lia. }
    destruct l as [|m' l].
    + change (commaSeparated printMember [(k, x)]) with (printMember (k, x)) in *.
      rewrite Hm, ?token_here by done. simpl.
      rewrite parseChars_escape. simpl. rewrite ?token_here by done. simpl.
      rewrite IHv; [done | done | lia].
    + rewrite commaSeparated_cons in *. rewrite app_assoc, Hm.
      rewrite length_app, length_cons in Hlen.
      rewrite ?token_here by done. simpl.
      rewrite parseChars_escape. simpl. rewrite ?token_here by done. simpl.
      rewrite app_cons. rewrite IHv; [| done | lia]. simpl.
      rewrite ?token_here by done. rewrite IHm; [done |]. lia.
Qed.

(** [JSON.parse(JSON.stringify(v))] is [v]. *)
Theorem parse_print (v : value) : parse (print v) = Some v.
Proof.
  unfold parse. destruct (parse_print_fuel (S (String.length (print v)))) as (Hv & _).
  rewrite <- (app_nil_r (print v)) at 2. rewrite Hv; [done | done | lia].
Qed.

(** The text of a value is never empty. *)
Lemma print_truthy (v : value) : JsString.falsy (print v) = false.
Proof. by destruct (print_head v) as (c & t & -> & _). Qed.

End JsonFacts.

(** ** The application's values survive the codec *)

Module CodecFacts.
Import Json Codec.

Lemma ofItems_map {T} (f : value → option T) (g : T → value) (l : list T) :
  (∀ x, f (g x) = Some x) → ofItems f (List.map g l) = Some l.
Proof. intros Hfg. induction l as [|x l IH]; simpl; [done |]. by rewrite Hfg, IH. Qed.

Lemma ofStrings_stringsToJson (l : list string) : ofStrings (stringsToJson l) = Some l.
Proof. by apply ofItems_map. Qed.

Lemma nutritionOfJson_nutritionToJson (n : Nutrition) :
  nutritionOfJson (nutritionToJson n) = Some n.
Proof. by destruct n as [[c|] [p|] [b|] [f|]]. Qed.

Lemma recipeOfJson_recipeToJson (r : Recipe) : recipeOfJson (recipeToJson r) = Some r.
Proof.
  destruct r as [i t d g s p e n u c].
  destruct d, g, s, p, e, n, u;
    cbn -[ofStrings stringsToJson nutritionOfJson nutritionToJson];
    rewrite ?ofStrings_stringsToJson, ?nutritionOfJson_nutritionToJson;
    reflexivity.
Qed.

(** The three laws of the platform that persistence relies on, for this
    codec: a saved collection parses back to itself, and its text is not
    the empty string. *)
Lemma parseRecipes_stringifyRecipes (l : list Recipe) :
  parseRecipes (stringifyRecipes l) = Some l.
Proof.
  unfold parseRecipes, stringifyRecipes. rewrite JsonFacts.parse_print. simpl.
  apply ofItems_map, recipeOfJson_recipeToJson.
Qed.

Lemma parseStrings_stringifyStrings (l : list string) :
  parseStrings (stringifyStrings l) = Some l.
Proof.
  unfold parseStrings, stringifyStrings. rewrite JsonFacts.parse_print. simpl.
  apply ofStrings_stringsToJson.
Qed.

Lemma stringifyRecipes_truthy (l : list Recipe) :
  JsString.falsy (stringifyRecipes l) = false.
Proof. apply JsonFacts.print_truthy. Qed.

Lemma stringifyStrings_truthy (l : list string) :
  JsString.falsy (stringifyStrings l) = false.
Proof. apply JsonFacts.print_truthy. Qed.

(** The response of a generation has a view whenever it is JSON:
    [parseData] fails on the texts [parse] refuses and on no other. *)
Lemma parseData_None (text : string) : parseData text = None ↔ parse text = None.
Proof. unfold parseData. by destruct (parse text). Qed.

End CodecFacts.

(** ** Persistence *)

Section Persistence.
Context {recipesParse : JsonParse (list Recipe)} {itemsParse : JsonParse (list string)}.
Context {recipesText : JsonStringify (list Recipe)} {itemsText : JsonStringify (list string)}.
Implicit Types (s : State) (ls : Storage).

Lemma savedRecipes_setManualShoppingItems l s :
  savedRecipes (setManualShoppingItems l s) = savedRecipes s.
Proof. by destruct s. Qed.

Lemma savedRecipes_loadEffect ls s :
  savedRecipes (loadEffect ls s)
  = default (savedRecipes s) (parsedItem (ls !! recipesKey)).
Proof.
  unfold loadEffect.
  destruct (parsedItem (ls !! shoppingKey)) as [items|];
    rewrite ?savedRecipes_setManualShoppingItems;
    by destruct (parsedItem (ls !! recipesKey)) as [l|]; destruct s.
Qed.

(** After the session's last render the storage holds the text of the
    saved recipes. *)
Lemma stored_recipes s ls :
  stored s ls !! recipesKey = Some (JSON_stringify (savedRecipes s)).
Proof.
  unfold stored, persist, applyEffects. simpl.
  rewrite lookup_insert_ne by done. apply lookup_insert_eq.
Qed.

(** Mounting issues writes to the storage and nothing else: no alert. *)
Lemma mount_effects ls :
  ∀ e, e ∈ (mount ls).2 → ∃ key value, e = SetItem key value.
Proof.
  intros e He. unfold mount, persist, saveRecipesEffect, saveItemsEffect in He.
  simpl in He.
  repeat (apply elem_of_cons in He as [-> | He]; [by eexists _, _ |]).
  by apply elem_of_nil in He.
Qed.

(** Once mounted, the storage holds what the state holds. *)
Lemma mount_writes_back ls :
  applyEffects (mount ls).2 ls = stored (mount ls).1 (stored initialState ls).
Proof. unfold mount, stored, applyEffects. cbn [fst snd]. by rewrite foldl_app. Qed.

End Persistence.

(** Claim C6. For a [JSON.parse] that reads back what [JSON.stringify]
    wrote, and a [JSON.stringify] that never writes the empty text: the
    collection a session leaves in the storage is the one the next mount
    loads, the same recipes in the same order; and a stored text that
    [JSON.parse] throws on mounts with no saved recipe, and with no effect
    but the writes to the storage (no alert). *)
Theorem C6_saved_recipes_round_trip
    {recipesParse : JsonParse (list Recipe)} {itemsParse : JsonParse (list string)}
    {recipesText : JsonStringify (list Recipe)} {itemsText : JsonStringify (list string)} :
  (∀ l : list Recipe, JSON_parse (JSON_stringify l) = Some l) →
  (∀ l : list Recipe, JsString.falsy (JSON_stringify l) = false) →
  (∀ s ls, savedRecipes (mount (stored s ls)).1 = savedRecipes s)
  ∧ (∀ ls text,
       ls !! recipesKey = Some text →
       JSON_parse (T := list Recipe) text = None →
       savedRecipes (mount ls).1 = []
       ∧ ∀ e, e ∈ (mount ls).2 → ∃ key value, e = SetItem key value).
Proof.
  intros Hround Htruthy. split.
  - intros s ls. unfold mount. simpl. rewrite savedRecipes_loadEffect, stored_recipes.
    unfold parsedItem. by rewrite Htruthy, Hround.
  - intros ls text Htext Hparse. split; [| apply mount_effects].
    unfold mount. simpl. rewrite savedRecipes_loadEffect, Htext.
    unfold parsedItem. rewrite Hparse. by destruct (JsString.falsy text).
Qed.

(** C6 with the codec of this development: two saved recipes, and the
    stored text [{oops]. *)
Lemma C6_saved_recipes_round_trip_witness :
  let s := setSavedRecipes [toast; manualRecipe "id-1" 1 soup] initialState in
  let broken : Storage := {[ recipesKey := "{oops" ]} in
  savedRecipes (codecMount (codecStored s ∅)).1 = [toast; manualRecipe "id-1" 1 soup]
  ∧ savedRecipes (codecMount broken).1 = [].
Proof.
  intros s broken.
  pose proof (C6_saved_recipes_round_trip
                (recipesParse := Codec.parseRecipes) (itemsParse := Codec.parseStrings)
                (recipesText := Codec.stringifyRecipes) (itemsText := Codec.stringifyStrings)
                CodecFacts.parseRecipes_stringifyRecipes
                CodecFacts.stringifyRecipes_truthy) as [Hround Hcorrupt].
  split.
  - apply (Hround s ∅).
  - apply (Hcorrupt broken "{oops"); reflexivity.
Defined.

(** ** Recipe generation *)

Section Generation.
Context {dataParse : JsonParse RecipeData}.
Implicit Types (s : State) (resp : GenerationResponse).

Lemma afterFailure_fields s :
  currentRecipe (afterFailure s) = None ∧ isGenerating (afterFailure s) = false.
Proof. by destruct s. Qed.

Lemma generateRecipe_run_failure withImage uuid now resp s :
  generatedRecipe uuid now resp = None →
  generateRecipe_run withImage uuid now resp s
  = (afterFailure s,
     [GenerateContent recipeModel withImage (generationText withImage s);
      Alert generationError]).
Proof.
  intros Hnone. unfold generateRecipe_run, generateRecipe, generateRecipe_resume.
  by rewrite Hnone.
Qed.

Lemma generateRecipe_run_success withImage uuid now resp s r :
  generatedRecipe uuid now resp = Some r →
  generateRecipe_run withImage uuid now resp s
  = (setIsGenerating false
       (setCapturedImage None
          (setCurrentRecipe (Some r)
             (setIsCameraOpen false (setCurrentRecipe None (setIsGenerating true s))))),
     [GenerateContent recipeModel withImage (generationText withImage s)]).
Proof.
  intros Hsome. unfold generateRecipe_run, generateRecipe, generateRecipe_resume.
  by rewrite Hsome.
Qed.

Lemma generatedRecipe_None uuid now resp :
  generatedRecipe uuid now resp = None ↔ Throws resp.
Proof.
  split.
  - destruct resp as [|text]; simpl; [constructor |].
    destruct (JSON_parse (T := RecipeData) (textOrEmptyObject text)) as [data|] eqn:Hp;
      simpl.
    + destruct (d_title data) eqn:Ht; [done |]. intros _. by eapply throws_untitled.
    + intros _. by apply throws_syntax.
  - intros [|text Hp|text data Hp Ht]; simpl; [done | by rewrite Hp |].
    rewrite Hp. simpl. by rewrite Ht.
Qed.

End Generation.

(** Claim C3, as the code has it.  When the request is rejected, when the
    text of the response is not JSON, or when the parsed response has no
    title, [generateRecipe] fails: it raises the alert "Error generating
    recipe." after its one request, clears the loading flag and leaves the
    current recipe unset. *)
Theorem C3_generation_fails_without_title
    {dataParse : JsonParse RecipeData}
    (withImage : bool) (uuid : string) (now : Z) (resp : GenerationResponse) (s : State) :
  Throws resp →
  generateRecipe_run withImage uuid now resp s
  = (afterFailure s,
     [GenerateContent recipeModel withImage (generationText withImage s);
      Alert generationError])
  ∧ currentRecipe (generateRecipe_run withImage uuid now resp s).1 = None
  ∧ isGenerating (generateRecipe_run withImage uuid now resp s).1 = false.
Proof.
  intros Hthrows%(generatedRecipe_None uuid now).
  rewrite (generateRecipe_run_failure _ _ _ _ _ Hthrows). split; [done |].
  apply afterFailure_fields.
Qed.

(** Claim C3, refuted as stated.  The response [plainResponse] has every
    required property but the description, and [soupResponse] has none of
    them but the title.  On either [generateRecipe] raises no alert, its
    request is its only effect, and it sets the current recipe: a recipe
    without the properties the response lacks. *)
Lemma C3_counterexample_missing_fields_accepted :
  let s := setPrompt "soup" initialState in
  let run := codecGenerate false "id-1" 1 (GenerationAnswer (Some plainResponse)) s in
  let bare := codecGenerate false "id-2" 2 (GenerationAnswer (Some soupResponse)) s in
  currentRecipe run.1
  = Some {| id := "id-1"; title := "Soup (by praj)"; description := None;
            ingredients := Some ["Water"]; instructions := Some ["Boil."];
            prepTime := Some "5 min"; servings := Some "2";
            nutrition := Some {| calories := Some "90"; protein := Some "2g";
                                 carbs := Some "20g"; fat := Some "0g" |};
            imageUrl := None; createdAt := 1 |}
  ∧ run.2 = [GenerateContent recipeModel false (generationText false s)]
  ∧ isGenerating run.1 = false
  ∧ currentRecipe bare.1
    = Some {| id := "id-2"; title := "Soup (by praj)"; description := None;
              ingredients := None; instructions := None; prepTime := None;
              servings := None; nutrition := None; imageUrl := None; createdAt := 2 |}
  ∧ bare.2 = [GenerateContent recipeModel false (generationText false s)].
Proof. by vm_compute. Qed.

(** C3 with the codec of this development: a rejected request, a text that
    is not JSON, no text at all, and a response without a title. *)
Lemma C3_generation_fails_without_title_witness :
  let s := setPrompt "soup" initialState in
  currentRecipe (codecGenerate true "id-1" 1 GenerationRejected s).1 = None
  ∧ currentRecipe (codecGenerate false "id-1" 1 (GenerationAnswer (Some "{oops")) s).1 = None
  ∧ currentRecipe (codecGenerate false "id-1" 1 (GenerationAnswer None) s).1 = None
  ∧ (codecGenerate false "id-1" 1 (GenerationAnswer (Some untitledResponse)) s).2
    = [GenerateContent recipeModel false (generationText false s); Alert generationError].
Proof.
  intros s.
  pose proof (λ withImage resp,
                C3_generation_fails_without_title (dataParse := Codec.parseData)
                  withImage "id-1" 1 resp s) as Hfail.
  split; [apply (Hfail true GenerationRejected); constructor |].
  split; [apply (Hfail false (GenerationAnswer (Some "{oops"))); by apply throws_syntax |].
  split; [apply (Hfail false (GenerationAnswer None)); by eapply throws_untitled |].
  destruct (Hfail false (GenerationAnswer (Some untitledResponse))) as (Hrun & _);
    [by eapply throws_untitled |].
  unfold codecGenerate. by rewrite Hrun.
Defined.

(** ** The marker in the titles *)

Section Marker.
Import JsStringFacts.

Lemma marked_suffix (t : string) : JsString.includes (t ++ by_praj_suffix) marker = true.
Proof. by apply includes_app_r. Qed.

Lemma marked_finalTitle (t : string) : JsString.includes (finalTitle t) marker = true.
Proof.
  unfold finalTitle. destruct (JsString.includes t marker) eqn:Ht; [done |].
  apply marked_suffix.
Qed.

Lemma title_manualRecipe uuid now d :
  title (manualRecipe uuid now d) = dish_title d ++ by_praj_suffix.
Proof. reflexivity. Qed.

Lemma generatedRecipe_title {dataParse : JsonParse RecipeData} uuid now resp r :
  generatedRecipe uuid now resp = Some r →
  ∃ text data t,
    resp = GenerationAnswer text
    ∧ JSON_parse (textOrEmptyObject text) = Some data
    ∧ d_title data = Some t
    ∧ title r = finalTitle t.
Proof.
  destruct resp as [|text]; simpl; [done |].
  destruct (JSON_parse (T := RecipeData) (textOrEmptyObject text)) as [data|] eqn:Hp;
    simpl; [| done].
  destruct (d_title data) as [t|] eqn:Ht; simpl; [| done].
  intros [= <-]. by exists text, data, t.
Qed.

End Marker.

Section Provenance.
Context {dataParse : JsonParse RecipeData}.
Context {recipesParse : JsonParse (list Recipe)} {itemsParse : JsonParse (list string)}.
Context {recipesText : JsonStringify (list Recipe)} {itemsText : JsonStringify (list string)}.
Context (atob : string → option string) (ctx : AudioContext).
Hypothesis recipes_round_trip :
  ∀ l : list Recipe, JSON_parse (JSON_stringify l) = Some l.
Hypothesis recipes_truthy :
  ∀ l : list Recipe, JsString.falsy (JSON_stringify l) = false.
Implicit Types (s : State) (r : Recipe) (e : Event).

Lemma origin_same s s' r :
  savedRecipes s' = savedRecipes s →
  currentRecipe s' = currentRecipe s →
  cookingMode s' = cookingMode s →
  holds s' r → Origin s r.
Proof.
  intros Hsaved Hcur Hcook Hr. apply (origin_held s r r); [| done].
  unfold holds in *. by rewrite <- Hsaved, <- Hcur, <- Hcook.
Qed.

Lemma holds_mount_stored s r :
  holds (mount (stored s ∅)).1 r → r ∈ savedRecipes s.
Proof.
  unfold holds, mount. simpl. rewrite savedRecipes_loadEffect, stored_recipes.
  unfold parsedItem. rewrite recipes_truthy, recipes_round_trip. simpl.
  intros [Hr | [Hr | Hr]]; [done | |].
  - unfold loadEffect in Hr.
    repeat (destruct (parsedItem _) in Hr); by simpl in Hr.
  - unfold loadEffect in Hr.
    repeat (destruct (parsedItem _) in Hr); by simpl in Hr.
Qed.

(** No event alters the title of a recipe: a recipe of the next state is
    a recipe of the state before, up to its image, or is a recipe just
    generated or just entered by hand. *)
Lemma handle_origin e s r : holds (handle atob ctx e s) r → Origin s r.
Proof.
  unfold handle. destruct e; simpl;
    try (apply origin_same; by destruct s).
  - (* Generate *)
    intros [Hr | [Hr | Hr]].
    + apply (origin_held s r r); [left; by destruct s | done].
    + by destruct s.
    + apply (origin_held s r r); [right; right; by destruct s | done].
  - (* GenerationSettled *)
    unfold generateRecipe_resume.
    destruct (generatedRecipe uuid now resp) as [r'|] eqn:Hgen; simpl.
    + intros [Hr | [Hr | Hr]].
      * apply (origin_held s r r); [left; by destruct s | done].
      * assert (r' = r) as -> by (destruct s; simpl in Hr; congruence).
        by eapply origin_generated.
      * apply (origin_held s r r); [right; right; by destruct s | done].
    + apply origin_same; by destruct s.
  - (* Visualize *)
    unfold visualizeRecipe. destruct (currentRecipe s); simpl;
      apply origin_same; by destruct s.
  - (* VisualizationSettled *)
    unfold visualizeRecipe_resume. destruct part as [[mimeType data]|].
    + intros [Hr | [Hr | Hr]].
      * apply (origin_held s r r); [left; by destruct s | done].
      * destruct (currentRecipe s) as [r0|] eqn:Hcur; [| by destruct s].
        apply (origin_held s r r0); [right; by left |].
        destruct s; simpl in *. by injection Hr as <-.
      * apply (origin_held s r r); [right; right; by destruct s | done].
    + apply origin_same; by destruct s.
  - (* SaveCurrent *)
    unfold saveCurrentRecipe. destruct (currentRecipe s) as [cur|] eqn:Hcur; [| by apply origin_same].
    destruct (List.find _ _); [by apply origin_same |].
    intros [Hr | [Hr | Hr]].
    + rewrite savedRecipes_setSavedRecipes in Hr.
      apply elem_of_cons in Hr as [-> | Hr];
        [apply (origin_held s cur cur); [right; by left | done]
        | apply (origin_held s r r); [by left | done]].
    + apply (origin_held s r r); [right; left; by destruct s | done].
    + apply (origin_held s r r); [right; right; by destruct s | done].
  - (* AddManualDish *)
    unfold addManualDish. destruct (JsString.falsy _); [by apply origin_same |].
    intros [Hr | [Hr | Hr]].
    + assert (r ∈ manualRecipe uuid now (customDish s) :: savedRecipes s) as Hin
        by (by destruct s).
      apply elem_of_cons in Hin as [-> | Hin];
        [by eapply origin_manual | apply (origin_held s r r); [by left | done]].
    + apply (origin_held s r r); [right; left; by destruct s | done].
    + apply (origin_held s r r); [right; right; by destruct s | done].
  - (* RemoveRecipe *)
    intros [Hr | [Hr | Hr]].
    + unfold removeRecipe in Hr. rewrite savedRecipes_setSavedRecipes in Hr.
      apply list_elem_of_In, filter_In in Hr as [Hr _].
      apply (origin_held s r r); [left; by apply list_elem_of_In | done].
    + apply (origin_held s r r); [right; left; by destruct s | done].
    + apply (origin_held s r r); [right; right; by destruct s | done].
  - (* SelectRecipe *)
    destruct (savedRecipes s !! i) as [r'|] eqn:Hi; simpl; [| by apply origin_same].
    intros [Hr | [Hr | Hr]].
    + apply (origin_held s r r); [left; by destruct s | done].
    + assert (r' = r) as -> by (destruct s; simpl in Hr; congruence).
      apply (origin_held s r r); [left; by eapply list_elem_of_lookup_2 | done].
    + apply (origin_held s r r); [right; right; by destruct s | done].
  - (* AddShoppingItem *)
    unfold addShoppingItem. destruct (JsString.falsy _); apply origin_same; by destruct s.
  - (* EnterCooking *)
    unfold enterCookingMode. destruct (currentRecipe s) as [cur|] eqn:Hcur; [| by apply origin_same].
    intros [Hr | [Hr | Hr]].
    + apply (origin_held s r r); [left; by destruct s | done].
    + apply (origin_held s r r); [right; left; by destruct s | done].
    + assert (cur = r) as -> by (destruct s; simpl in Hr; congruence).
      apply (origin_held s r r); [right; by left | done].
  - (* ExitCooking *)
    intros [Hr | [Hr | Hr]].
    + apply (origin_held s r r); [left; by destruct s | done].
    + apply (origin_held s r r); [right; left; by destruct s | done].
    + by destruct s.
  - (* Previous *)
    unfold clickPrevious. destruct (cookingMode s); [| by apply origin_same].
    destruct (prevDisabled s); apply origin_same; by destruct s.
  - (* Next *)
    unfold clickNext. destruct (cookingMode s) as [r'|]; [| by apply origin_same].
    destruct (stepCount r'); [| by apply origin_same].
    destruct (nextDisabled _ s); apply origin_same; by destruct s.
  - (* Speak *)
    unfold speakStep. destruct (isSpeaking s); apply origin_same; by destruct s.
  - (* SpeechSettled *)
    unfold speakStep_resume. destruct resp as [|[b64|]]; simpl;
      try (apply origin_same; by destruct s).
    destruct (JsString.falsy b64); [apply origin_same; by destruct s |].
    destruct (_ ≫= _); apply origin_same; by destruct s.
  - (* Reload *)
    intros Hr%holds_mount_stored. apply (origin_held s r r); [by left | done].
Qed.

Lemma marked_origin s r : (∀ r0, holds s r0 → marked r0) → Origin s r → marked r.
Proof.
  intros Hs [r0 Hr0 Ht | uuid now resp Hgen | uuid now ->]; unfold marked.
  - rewrite <- Ht. by apply Hs.
  - apply generatedRecipe_title in Hgen as (text & data & t & _ & _ & _ & ->).
    apply marked_finalTitle.
  - rewrite title_manualRecipe. apply marked_suffix.
Qed.

(** Every recipe of every state of the application is marked. *)
Lemma reachable_marked s :
  reachable atob ctx s → ∀ r, holds s r → marked r.
Proof.
  induction 1 as [|e s Hs IH]; intros r Hr.
  - destruct Hr as [Hr | [Hr | Hr]].
    + unfold mount in Hr. simpl in Hr. rewrite savedRecipes_loadEffect in Hr.
      rewrite lookup_empty in Hr. simpl in Hr. by apply elem_of_nil in Hr.
    + unfold mount, loadEffect in Hr. simpl in Hr.
      repeat (destruct (parsedItem _) in Hr); by simpl in Hr.
    + unfold mount, loadEffect in Hr. simpl in Hr.
      repeat (destruct (parsedItem _) in Hr); by simpl in Hr.
  - eapply marked_origin; [exact IH |]. exact (handle_origin e s r Hr).
Qed.

End Provenance.

(** Claim C10. For a [JSON.parse] that reads back what [JSON.stringify]
    wrote: a generated recipe has the response's title when that contains
    "by praj", and the title followed by " (by praj)" otherwise; a dish
    entered by hand has the name typed followed by " (by praj)"; either way
    the title contains "by praj". No event alters a title: a recipe of the
    next state has the title of a recipe of the state before, or was just
    generated or entered. So every recipe of every state reached from a
    first mount, saved, current or being cooked, has "by praj" in its title. *)
Theorem C10_titles_carry_the_marker
    {dataParse : JsonParse RecipeData}
    {recipesParse : JsonParse (list Recipe)} {itemsParse : JsonParse (list string)}
    {recipesText : JsonStringify (list Recipe)} {itemsText : JsonStringify (list string)}
    (atob : string → option string) (ctx : AudioContext) :
  (∀ l : list Recipe, JSON_parse (JSON_stringify l) = Some l) →
  (∀ l : list Recipe, JsString.falsy (JSON_stringify l) = false) →
  (∀ uuid now resp r,
     generatedRecipe uuid now resp = Some r →
     marked r
     ∧ ∃ text data t,
         resp = GenerationAnswer text
         ∧ JSON_parse (textOrEmptyObject text) = Some data
         ∧ d_title data = Some t
         ∧ title r = if JsString.includes t "by praj" then t else t ++ " (by praj)")
  ∧ (∀ uuid now s,
       dish_title (customDish s) ≠ EmptyString →
       ∃ r, savedRecipes (addManualDish uuid now s) = r :: savedRecipes s
            ∧ title r = dish_title (customDish s) ++ " (by praj)"
            ∧ marked r)
  ∧ (∀ e s r, holds (handle atob ctx e s) r → Origin s r)
  ∧ (∀ s, reachable atob ctx s → ∀ r, holds s r → marked r).
Proof.
  intros Hround Htruthy. split; [| split; [| split]].
  - intros uuid now resp r Hgen.
    destruct (generatedRecipe_title uuid now resp r Hgen)
      as (text & data & t & Hresp & Hparse & Ht & Htitle).
    split; [unfold marked; rewrite Htitle; apply marked_finalTitle |].
    by exists text, data, t.
  - intros uuid now s Hname. exists (manualRecipe uuid now (customDish s)).
    split; [by apply addManualDish_savedRecipes |]. split; [done |].
    apply marked_suffix.
  - intros e s r. by apply handle_origin.
  - intros s. by apply reachable_marked.
Qed.

(** C10 with the codec of this development, at the soup entered by hand
    after the first mount. *)
Lemma C10_titles_carry_the_marker_witness :
  let noAudio : string → option string := λ _, None in
  let s := handle (dataParse := Codec.parseData)
             (recipesParse := Codec.parseRecipes) (itemsParse := Codec.parseStrings)
             (recipesText := Codec.stringifyRecipes) (itemsText := Codec.stringifyStrings)
             noAudio webAudioContext (AddManualDish "id-1" 1)
             (handle (dataParse := Codec.parseData)
                (recipesParse := Codec.parseRecipes) (itemsParse := Codec.parseStrings)
                (recipesText := Codec.stringifyRecipes) (itemsText := Codec.stringifyStrings)
                noAudio webAudioContext (EditDish soup) initialState) in
  savedRecipes s = [manualRecipe "id-1" 1 soup]
  ∧ marked (manualRecipe "id-1" 1 soup).
Proof.
  intros noAudio s. split; [reflexivity |].
  pose proof (C10_titles_carry_the_marker
                (dataParse := Codec.parseData)
                (recipesParse := Codec.parseRecipes) (itemsParse := Codec.parseStrings)
                (recipesText := Codec.stringifyRecipes) (itemsText := Codec.stringifyStrings)
                noAudio webAudioContext
                CodecFacts.parseRecipes_stringifyRecipes
                CodecFacts.stringifyRecipes_truthy) as (_ & _ & _ & Hreach).
  apply (Hreach s).
  - do 2 apply reachable_handle. exact (reachable_mount _ _).
  - left. apply list_elem_of_singleton. reflexivity.
Defined.

(** * Further properties *)

(** ** The Heart button and the bin of a pantry card *)

Section Library.
Implicit Types (s : State) (r : Recipe).

Lemma currentRecipe_setSavedRecipes l s :
  currentRecipe (setSavedRecipes l s) = currentRecipe s.
Proof. by destruct s. Qed.

Lemma find_None_title r (l : list Recipe) :
  List.find (λ r', String.eqb (title r') (title r)) l = None →
  title r ∉ List.map title l.
Proof.
  intros Hfind Hin. apply list_elem_of_In, in_map_iff in Hin as (r' & Ht & Hin).
  pose proof (find_none _ _ Hfind r' Hin) as Hneq. simpl in Hneq.
  apply String.eqb_neq in Hneq. by apply Hneq.
Qed.

Lemma saveCurrentRecipe_saved r s :
  r ∈ savedRecipes s → saveCurrentRecipe (selectRecipe r s) = selectRecipe r s.
Proof.
  intros Hin. apply (saveCurrentRecipe_duplicate _ r); [by destruct s |].
  exists r. split; [by destruct s | done].
Qed.

Lemma filter_id_absent rid (l : list Recipe) :
  (∀ r, r ∈ l → id r ≠ rid) →
  List.filter (λ r, negb (String.eqb (id r) rid)) l = l.
Proof.
  induction l as [|r l IH]; intros Habs; simpl; [done |].
  assert (String.eqb (id r) rid = false) as ->
    by (apply String.eqb_neq, Habs; left).
  simpl. f_equal. apply IH. intros r' Hr'. apply Habs. by right.
Qed.

Lemma filter_sublist {A} (p : A → bool) (l : list A) : sublist (List.filter p l) l.
Proof.
  induction l as [|x l IH]; simpl; [constructor |].
  destruct (p x); by constructor.
Qed.

Lemma filter_id_unique r (l : list Recipe) :
  NoDup (List.map id l) → r ∈ l →
  S (List.length (List.filter (λ r', negb (String.eqb (id r') (id r))) l))
  = List.length l.
Proof.
  induction l as [|x l IH]; intros Hnd Hin; [by apply elem_of_nil in Hin |].
  simpl in Hnd. apply NoDup_cons in Hnd as [Hx Hnd]. simpl.
  destruct (String.eqb (id x) (id r)) eqn:Hid; simpl.
  - apply String.eqb_eq in Hid. f_equal. f_equal. apply filter_id_absent.
    intros r' Hr' Heq. apply Hx. rewrite Hid, <- Heq.
    by apply list_elem_of_In, in_map, list_elem_of_In.
  - f_equal. apply IH; [done |].
    apply elem_of_cons in Hin as [-> | Hin]; [| done].
    by rewrite String.eqb_refl in Hid.
Qed.

End Library.

(** X1.  The Heart button is idempotent, a second click changes nothing;
    it keeps the titles of the saved recipes distinct when they were; and
    on a recipe opened from the pantry it changes nothing. *)
Theorem X1_heart_button (s : State) :
  saveCurrentRecipe (saveCurrentRecipe s) = saveCurrentRecipe s
  ∧ (NoDup (List.map title (savedRecipes s)) →
     NoDup (List.map title (savedRecipes (saveCurrentRecipe s))))
  ∧ (∀ r, r ∈ savedRecipes s →
          saveCurrentRecipe (selectRecipe r s) = selectRecipe r s).
Proof.
  split; [| split].
  - assert (saveCurrentRecipe s = s
            ∨ ∃ cur, currentRecipe s = Some cur
                     ∧ saveCurrentRecipe s = setSavedRecipes (cur :: savedRecipes s) s)
      as [Hs | (cur & Hcur & Hs)].
    { unfold saveCurrentRecipe. destruct (currentRecipe s) as [cur|]; [| by left].
      destruct (List.find _ _); [by left | right; by exists cur]. }
    + by rewrite !Hs.
    + rewrite Hs. unfold saveCurrentRecipe.
      rewrite currentRecipe_setSavedRecipes, Hcur, savedRecipes_setSavedRecipes.
      simpl. by rewrite String.eqb_refl.
  - intros Hnd. unfold saveCurrentRecipe.
    destruct (currentRecipe s) as [cur|]; [| done].
    destruct (List.find _ _) eqn:Hfind; [done |].
    rewrite savedRecipes_setSavedRecipes. simpl. apply NoDup_cons.
    split; [by apply find_None_title | done].
  - intros r. apply saveCurrentRecipe_saved.
Qed.

(** X1 at the toast, saved and opened from the pantry. *)
Lemma X1_heart_button_witness :
  let s := setSavedRecipes [toast] initialState in
  NoDup (List.map title (savedRecipes (saveCurrentRecipe s)))
  ∧ saveCurrentRecipe (selectRecipe toast s) = selectRecipe toast s.
Proof.
  intros s. destruct (X1_heart_button s) as (_ & Hdistinct & Hopened). split.
  - apply Hdistinct. apply NoDup_singleton.
  - apply Hopened. by apply list_elem_of_singleton.
Defined.

(** X2.  The bin of a pantry card takes out every saved recipe that has the
    card's identifier and no other, and keeps the order of the rest.  When
    no saved recipe has the identifier the state is unchanged; when the
    identifiers of the saved recipes are distinct, exactly one recipe goes. *)
Theorem X2_remove_recipe (s : State) (rid : string) :
  (∀ r, r ∈ savedRecipes (removeRecipe rid s) ↔ r ∈ savedRecipes s ∧ id r ≠ rid)
  ∧ sublist (savedRecipes (removeRecipe rid s)) (savedRecipes s)
  ∧ ((∀ r, r ∈ savedRecipes s → id r ≠ rid) → removeRecipe rid s = s)
  ∧ (∀ r, NoDup (List.map id (savedRecipes s)) → r ∈ savedRecipes s → id r = rid →
          S (List.length (savedRecipes (removeRecipe rid s)))
          = List.length (savedRecipes s)).
Proof.
  unfold removeRecipe. rewrite savedRecipes_setSavedRecipes.
  split; [| split; [| split]].
  - intros r. rewrite !list_elem_of_In, filter_In, negb_true_iff, String.eqb_neq. done.
  - apply filter_sublist.
  - intros Habs. rewrite (filter_id_absent rid _ Habs). by destruct s.
  - intros r Hnd Hin <-. by apply filter_id_unique.
Qed.

(** X2 at the toast and the soup, removing the toast, then an identifier
    that no recipe has. *)
Lemma X2_remove_recipe_witness :
  let dish := manualRecipe "id-1" 1 soup in
  let s := setSavedRecipes [toast; dish] initialState in
  S (List.length (savedRecipes (removeRecipe "id-t" s))) = 2%nat
  ∧ removeRecipe "id-0" s = s.
Proof.
  intros dish s. split.
  - destruct (X2_remove_recipe s "id-t") as (_ & _ & _ & Hone).
    apply (Hone toast); [| by left | reflexivity].
    simpl. apply NoDup_cons. split; [| apply NoDup_singleton].
    intros Hin. apply list_elem_of_singleton in Hin. discriminate.
  - destruct (X2_remove_recipe s "id-0") as (_ & _ & Habsent & _).
    apply Habsent. intros r Hr.
    apply elem_of_cons in Hr as [-> | Hr]; [discriminate |].
    apply list_elem_of_singleton in Hr. subst r. discriminate.
Defined.

(** ** The pantry filter *)

Section Filter.
Implicit Types (s : State) (r : Recipe).

Lemma lowerChar_idemp (c : ascii) : lowerChar (lowerChar c) = lowerChar c.
Proof. destruct c as [[] [] [] [] [] [] [] []]; reflexivity. Qed.

Lemma toLowerCase_idemp (t : string) : toLowerCase (toLowerCase t) = toLowerCase t.
Proof. induction t as [|c t IH]; simpl; [done |]. by rewrite lowerChar_idemp, IH. Qed.

Lemma includes_empty (t : string) : JsString.includes t EmptyString = true.
Proof. by destruct t. Qed.

Lemma includes_refl (t : string) : JsString.includes t t = true.
Proof.
  apply JsStringFacts.includes_spec. exists EmptyString, EmptyString.
  by rewrite JsonFacts.app_nil_r.
Qed.

Lemma filter_all {A} (p : A → bool) (l : list A) :
  (∀ x, x ∈ l → p x = true) → List.filter p l = l.
Proof.
  induction l as [|x l IH]; intros Hp; simpl; [done |].
  rewrite Hp by left. f_equal. apply IH. intros y Hy. apply Hp. by right.
Qed.

Lemma searchQuery_set q s : searchQuery (setSearchQuery q s) = q.
Proof. by destruct s. Qed.

Lemma savedRecipes_setSearchQuery q s :
  savedRecipes (setSearchQuery q s) = savedRecipes s.
Proof. by destruct s. Qed.

End Filter.

(** X3.  The cards of the pantry are the saved recipes whose title, in lower
    case, contains the query in lower case, in the order they are saved in.
    The empty query shows them all; the letter case of the query does not
    matter; the title of a saved recipe typed in any letter case shows that
    recipe; and typing a query changes no saved recipe. *)
Theorem X3_filter_library (s : State) :
  (searchQuery s = EmptyString → filterLibrary s = savedRecipes s)
  ∧ sublist (filterLibrary s) (savedRecipes s)
  ∧ (∀ r, r ∈ filterLibrary s ↔
          r ∈ savedRecipes s
          ∧ ∃ pre post,
              toLowerCase (title r) = pre ++ toLowerCase (searchQuery s) ++ post)
  ∧ (∀ q, filterLibrary (setSearchQuery (toLowerCase q) s)
          = filterLibrary (setSearchQuery q s))
  ∧ (∀ q r, r ∈ savedRecipes s → toLowerCase q = toLowerCase (title r) →
            r ∈ filterLibrary (setSearchQuery q s))
  ∧ (∀ q, savedRecipes (setSearchQuery q s) = savedRecipes s).
Proof.
  unfold filterLibrary. split; [| split; [| split; [| split; [| split]]]].
  - intros ->. apply filter_all. intros r _. apply includes_empty.
  - apply filter_sublist.
  - intros r. by rewrite !list_elem_of_In, filter_In, JsStringFacts.includes_spec.
  - intros q. by rewrite !searchQuery_set, !savedRecipes_setSearchQuery, toLowerCase_idemp.
  - intros q r Hr Hq. rewrite searchQuery_set, savedRecipes_setSearchQuery.
    apply list_elem_of_In, filter_In. split; [by apply list_elem_of_In |].
    rewrite Hq. apply includes_refl.
  - intros q. apply savedRecipes_setSearchQuery.
Qed.

(** X3 at the toast, with no query and with the query "TOAST (BY PRAJ)". *)
Lemma X3_filter_library_witness :
  let s := setSavedRecipes [toast; manualRecipe "id-1" 1 soup] initialState in
  filterLibrary s = [toast; manualRecipe "id-1" 1 soup]
  ∧ toast ∈ filterLibrary (setSearchQuery "TOAST (BY PRAJ)" s).
Proof.
  intros s. split.
  - apply (proj1 (X3_filter_library s)). reflexivity.
  - destruct (X3_filter_library s) as (_ & _ & _ & _ & Hown & _).
    apply Hown; [by left | reflexivity].
Defined.

(** ** The shopping list *)

Section ShoppingBounds.
Implicit Types (s : State).

Lemma delete_ge {A} (l : list A) (i : nat) : (List.length l ≤ i)%nat → delete i l = l.
Proof.
  revert i. induction l as [|x l IH]; intros i Hi; [by destruct i |].
  destruct i as [|i]; simpl in *; [lia |]. f_equal. apply IH. lia.
Qed.

Lemma setManualShoppingItems_same s : setManualShoppingItems (manualShoppingItems s) s = s.
Proof. by destruct s. Qed.

Lemma manualShoppingItems_addShoppingItem s :
  JsString.trim (newItemText s) ≠ EmptyString →
  manualShoppingItems (addShoppingItem s)
  = (manualShoppingItems s ++ [JsString.trim (newItemText s)])%list.
Proof.
  intros Ht%JsStringFacts.falsy_false. unfold addShoppingItem. rewrite Ht.
  by destruct s.
Qed.

End ShoppingBounds.

(** X4.  Adding an item and then removing the last position gives the list
    back; removing at a position past the end changes nothing; removing at a
    position of the list shortens it by one; adding text that is not blank
    lengthens it by one and empties the input. *)
Theorem X4_shopping_add_and_remove (s : State) :
  (JsString.trim (newItemText s) ≠ EmptyString →
     manualShoppingItems
       (removeShoppingItem (List.length (manualShoppingItems s)) (addShoppingItem s))
     = manualShoppingItems s
     ∧ List.length (manualShoppingItems (addShoppingItem s))
       = S (List.length (manualShoppingItems s))
     ∧ newItemText (addShoppingItem s) = EmptyString)
  ∧ (∀ i, (List.length (manualShoppingItems s) ≤ i)%nat → removeShoppingItem i s = s)
  ∧ (∀ i, (i < List.length (manualShoppingItems s))%nat →
          S (List.length (manualShoppingItems (removeShoppingItem i s)))
          = List.length (manualShoppingItems s)).
Proof.
  split; [| split].
  - intros Ht. rewrite removeShoppingItem_delete, manualShoppingItems_set.
    rewrite (manualShoppingItems_addShoppingItem s Ht).
    split; [| split].
    + rewrite delete_middle. by rewrite app_nil_r.
    + rewrite length_app. simpl. lia.
    + apply JsStringFacts.falsy_false in Ht. unfold addShoppingItem. rewrite Ht.
      by destruct s.
  - intros i Hi. rewrite removeShoppingItem_delete, (delete_ge _ _ Hi).
    apply setManualShoppingItems_same.
  - intros i Hi. rewrite removeShoppingItem_delete, manualShoppingItems_set.
    rewrite length_delete by (by apply lookup_lt_is_Some). lia.
Qed.

(** X4 at the list "Milk", with "Eggs" typed. *)
Lemma X4_shopping_add_and_remove_witness :
  let s := setNewItemText "Eggs" (addShoppingItem (setNewItemText "Milk" initialState)) in
  manualShoppingItems (removeShoppingItem 1 (addShoppingItem s)) = ["Milk"]
  ∧ removeShoppingItem 1 s = s
  ∧ S (List.length (manualShoppingItems (removeShoppingItem 0 s))) = 1%nat.
Proof.
  intros s. destruct (X4_shopping_add_and_remove s) as (Hadd & Hpast & Hin).
  split; [apply Hadd; discriminate |].
  split; [apply Hpast; reflexivity | apply Hin; simpl; lia].
Defined.

(** ** The cells an event leaves alone *)

Section Frames.
Context {dataParse : JsonParse RecipeData}.
Context {recipesParse : JsonParse (list Recipe)} {itemsParse : JsonParse (list string)}.
Context {recipesText : JsonStringify (list Recipe)} {itemsText : JsonStringify (list string)}.
Context (atob : string → option string) (ctx : AudioContext).
Implicit Types (s : State) (e : Event).

Ltac frame :=
  unfold handle, react, generateRecipe, generateRecipe_resume, visualizeRecipe,
    visualizeRecipe_resume, saveCurrentRecipe, addManualDish, removeRecipe,
    selectRecipe, addShoppingItem, removeShoppingItem, enterCookingMode,
    exitCookingMode, clickPrevious, clickNext, speakStep, speakStep_resume,
    playbackEnded;
  repeat case_match; simplify_eq/=;
  repeat match goal with s : State |- _ => destruct s end; done.

Lemma handle_savedRecipes e s :
  touchesLibrary e = false → savedRecipes (handle atob ctx e s) = savedRecipes s.
Proof. destruct e; intros He; try discriminate He; frame. Qed.

Lemma handle_manualShoppingItems e s :
  touchesShopping e = false →
  manualShoppingItems (handle atob ctx e s) = manualShoppingItems s.
Proof. destruct e; intros He; try discriminate He; frame. Qed.

Lemma handle_currentRecipe e s :
  touchesCurrent e = false → currentRecipe (handle atob ctx e s) = currentRecipe s.
Proof. destruct e; intros He; try discriminate He; frame. Qed.

Lemma handle_cookingMode e s :
  touchesCooking e = false → cookingMode (handle atob ctx e s) = cookingMode s.
Proof. destruct e; intros He; try discriminate He; frame. Qed.

End Frames.

(** X5.  Only the Heart button, the form of a manual dish, the bin of a
    pantry card and a reload can change the saved recipes; only the input
    of the shopping view, the bin of a shopping item and a reload can change
    the manual shopping items.  Generation, illustration, narration, the
    cooking overlay, the camera and navigation leave both as they are. *)
Theorem X5_persisted_collections_frame
    {dataParse : JsonParse RecipeData}
    {recipesParse : JsonParse (list Recipe)} {itemsParse : JsonParse (list string)}
    {recipesText : JsonStringify (list Recipe)} {itemsText : JsonStringify (list string)}
    (atob : string → option string) (ctx : AudioContext) (e : Event) (s : State) :
  (touchesLibrary e = false → savedRecipes (handle atob ctx e s) = savedRecipes s)
  ∧ (touchesShopping e = false →
     manualShoppingItems (handle atob ctx e s) = manualShoppingItems s).
Proof. split; [apply handle_savedRecipes | apply handle_manualShoppingItems]. Qed.

(** X5 at the settlement of a generation, with one recipe saved and one
    item listed. *)
Lemma X5_persisted_collections_frame_witness :
  let s := setManualShoppingItems ["Milk"] (setSavedRecipes [toast] initialState) in
  let s' := handle (dataParse := Codec.parseData)
              (recipesParse := Codec.parseRecipes) (itemsParse := Codec.parseStrings)
              (recipesText := Codec.stringifyRecipes) (itemsText := Codec.stringifyStrings)
              (λ _, None) webAudioContext
              (GenerationSettled "id-2" 2 (GenerationAnswer (Some soupResponse))) s in
  savedRecipes s' = [toast] ∧ manualShoppingItems s' = ["Milk"].
Proof.
  intros s s'.
  destruct (X5_persisted_collections_frame
              (dataParse := Codec.parseData)
              (recipesParse := Codec.parseRecipes) (itemsParse := Codec.parseStrings)
              (recipesText := Codec.stringifyRecipes) (itemsText := Codec.stringifyStrings)
              (λ _, None) webAudioContext
              (GenerationSettled "id-2" 2 (GenerationAnswer (Some soupResponse))) s)
    as [Hsaved Hitems].
  split; [apply Hsaved; reflexivity | apply Hitems; reflexivity].
Defined.

(** ** Mounting and reloading *)

Section Reloading.
Context {dataParse : JsonParse RecipeData}.
Context {recipesParse : JsonParse (list Recipe)} {itemsParse : JsonParse (list string)}.
Context {recipesText : JsonStringify (list Recipe)} {itemsText : JsonStringify (list string)}.
Context (atob : string → option string) (ctx : AudioContext).
Implicit Types (s : State) (ls : Storage).

Lemma stored_items s ls :
  stored s ls !! shoppingKey = Some (JSON_stringify (manualShoppingItems s)).
Proof. unfold stored, persist, applyEffects. simpl. apply lookup_insert_eq. Qed.

Lemma stored_other s ls key :
  key ≠ recipesKey → key ≠ shoppingKey → stored s ls !! key = ls !! key.
Proof.
  intros Hr Hi. unfold stored, persist, applyEffects. simpl.
  by rewrite !lookup_insert_ne.
Qed.

Lemma manualShoppingItems_loadEffect ls s :
  manualShoppingItems (loadEffect ls s)
  = default (manualShoppingItems s) (parsedItem (ls !! shoppingKey)).
Proof.
  unfold loadEffect.
  destruct (parsedItem (ls !! shoppingKey)) as [items|];
    destruct (parsedItem (ls !! recipesKey)) as [l|]; by destruct s.
Qed.

Lemma loadEffect_both ls s l items :
  parsedItem (ls !! recipesKey) = Some l →
  parsedItem (ls !! shoppingKey) = Some items →
  loadEffect ls s = setManualShoppingItems items (setSavedRecipes l s).
Proof. intros Hl Hitems. unfold loadEffect. by rewrite Hl, Hitems. Qed.

End Reloading.

(** X6.  For a [JSON.parse] that reads back what [JSON.stringify] wrote:
    a reload of the page keeps the saved recipes and the manual shopping
    items, and puts every other cell back to its first value; the recipe
    on display, the cooking overlay and its step, and the texts typed are
    lost. *)
Theorem X6_reload_keeps_the_collections
    {dataParse : JsonParse RecipeData}
    {recipesParse : JsonParse (list Recipe)} {itemsParse : JsonParse (list string)}
    {recipesText : JsonStringify (list Recipe)} {itemsText : JsonStringify (list string)}
    (atob : string → option string) (ctx : AudioContext) (s : State) :
  (∀ l : list Recipe, JSON_parse (JSON_stringify l) = Some l) →
  (∀ l : list Recipe, JsString.falsy (JSON_stringify l) = false) →
  (∀ l : list string, JSON_parse (JSON_stringify l) = Some l) →
  (∀ l : list string, JsString.falsy (JSON_stringify l) = false) →
  handle atob ctx Reload s
  = setManualShoppingItems (manualShoppingItems s)
      (setSavedRecipes (savedRecipes s) initialState).
Proof.
  intros Hrecipes Hrtruthy Hitems Hitruthy. unfold handle, react, mount. cbn [fst].
  apply loadEffect_both.
  - rewrite stored_recipes. unfold parsedItem. by rewrite Hrtruthy, Hrecipes.
  - rewrite stored_items. unfold parsedItem. by rewrite Hitruthy, Hitems.
Qed.

(** X6 with the codec of this development, in the middle of cooking. *)
Lemma X6_reload_keeps_the_collections_witness :
  let s := clickNext (enterCookingMode (selectRecipe toast
             (setManualShoppingItems ["Milk"] (setSavedRecipes [toast] initialState)))) in
  handle (dataParse := Codec.parseData)
    (recipesParse := Codec.parseRecipes) (itemsParse := Codec.parseStrings)
    (recipesText := Codec.stringifyRecipes) (itemsText := Codec.stringifyStrings)
    (λ _, None) webAudioContext Reload s
  = setManualShoppingItems ["Milk"] (setSavedRecipes [toast] initialState).
Proof.
  intros s.
  apply (X6_reload_keeps_the_collections
           (dataParse := Codec.parseData)
           (recipesParse := Codec.parseRecipes) (itemsParse := Codec.parseStrings)
           (recipesText := Codec.stringifyRecipes) (itemsText := Codec.stringifyStrings)
           (λ _, None) webAudioContext s
           CodecFacts.parseRecipes_stringifyRecipes CodecFacts.stringifyRecipes_truthy
           CodecFacts.parseStrings_stringifyStrings CodecFacts.stringifyStrings_truthy).
Defined.

(** X7.  Once the component is mounted the storage holds, under each of the
    two keys, the text of the collection the state holds, whatever it held
    before: a text that could not be loaded is overwritten by the text of
    the empty collection.  No other key is written. *)
Theorem X7_mount_leaves_storage_in_step
    {recipesParse : JsonParse (list Recipe)} {itemsParse : JsonParse (list string)}
    {recipesText : JsonStringify (list Recipe)} {itemsText : JsonStringify (list string)}
    (ls : Storage) :
  let after := applyEffects (mount ls).2 ls in
  after !! recipesKey = Some (JSON_stringify (savedRecipes (mount ls).1))
  ∧ after !! shoppingKey = Some (JSON_stringify (manualShoppingItems (mount ls).1))
  ∧ (∀ text, ls !! recipesKey = Some text →
             JSON_parse (T := list Recipe) text = None →
             after !! recipesKey = Some (JSON_stringify ([] : list Recipe)))
  ∧ (∀ key, key ≠ recipesKey → key ≠ shoppingKey → after !! key = ls !! key).
Proof.
  intros after. subst after. rewrite mount_writes_back.
  split; [apply stored_recipes |]. split; [apply stored_items |]. split.
  - intros text Htext Hparse. rewrite stored_recipes. do 2 f_equal.
    unfold mount. simpl. rewrite savedRecipes_loadEffect, Htext.
    unfold parsedItem. rewrite Hparse. by destruct (JsString.falsy text).
  - intros key Hr Hi. by rewrite !stored_other.
Qed.

(** X7 with the codec of this development, over the stored text [{oops]. *)
Lemma X7_mount_leaves_storage_in_step_witness :
  let broken : Storage := {[ recipesKey := "{oops" ]} in
  applyEffects (codecMount broken).2 broken !! recipesKey = Some "[]".
Proof.
  intros broken.
  destruct (X7_mount_leaves_storage_in_step
              (recipesParse := Codec.parseRecipes) (itemsParse := Codec.parseStrings)
              (recipesText := Codec.stringifyRecipes) (itemsText := Codec.stringifyStrings)
              broken) as (_ & _ & Hbroken & _).
  apply (Hbroken "{oops"); reflexivity.
Defined.

(** X8.  Each collection is loaded from its own key, in its own [try]: the
    manual shopping items a mount loads are the ones the stored text parses
    to, whatever is stored for the recipes, and the other way round.  For a
    [JSON.parse] that reads back what [JSON.stringify] wrote, the shopping
    items a session leaves in the storage are the ones the next mount
    loads, in the same order. *)
Theorem X8_shopping_items_round_trip
    {recipesParse : JsonParse (list Recipe)} {itemsParse : JsonParse (list string)}
    {recipesText : JsonStringify (list Recipe)} {itemsText : JsonStringify (list string)} :
  (∀ ls text items,
     ls !! shoppingKey = Some text → JsString.falsy text = false →
     JSON_parse text = Some items →
     manualShoppingItems (mount ls).1 = items)
  ∧ (∀ ls text l,
       ls !! recipesKey = Some text → JsString.falsy text = false →
       JSON_parse text = Some l →
       savedRecipes (mount ls).1 = l)
  ∧ ((∀ l : list string, JSON_parse (JSON_stringify l) = Some l) →
     (∀ l : list string, JsString.falsy (JSON_stringify l) = false) →
     ∀ s ls, manualShoppingItems (mount (stored s ls)).1 = manualShoppingItems s).
Proof.
  split; [| split].
  - intros ls text items Htext Htruthy Hparse. unfold mount. simpl.
    rewrite manualShoppingItems_loadEffect, Htext. unfold parsedItem.
    by rewrite Htruthy, Hparse.
  - intros ls text l Htext Htruthy Hparse. unfold mount. simpl.
    rewrite savedRecipes_loadEffect, Htext. unfold parsedItem.
    by rewrite Htruthy, Hparse.
  - intros Hround Htruthy s ls. unfold mount. simpl.
    rewrite manualShoppingItems_loadEffect, stored_items. unfold parsedItem.
    by rewrite Htruthy, Hround.
Qed.

(** X8 with the codec of this development: the items load beside a text
    for the recipes that is not JSON. *)
Lemma X8_shopping_items_round_trip_witness :
  let s := setManualShoppingItems ["Milk"; "Eggs"] initialState in
  let ls : Storage := <[ recipesKey := "{oops" ]> (codecStored s ∅) in
  manualShoppingItems (codecMount ls).1 = ["Milk"; "Eggs"]
  ∧ manualShoppingItems (codecMount (codecStored s ∅)).1 = ["Milk"; "Eggs"].
Proof.
  intros s ls.
  destruct (X8_shopping_items_round_trip
              (recipesParse := Codec.parseRecipes) (itemsParse := Codec.parseStrings)
              (recipesText := Codec.stringifyRecipes) (itemsText := Codec.stringifyStrings))
    as (Hown & _ & Hround).
  split.
  - apply (Hown ls (Codec.stringifyStrings ["Milk"; "Eggs"])); reflexivity.
  - apply (Hround CodecFacts.parseStrings_stringifyStrings
             CodecFacts.stringifyStrings_truthy s ∅).
Defined.

(** ** Two invariants of the machine *)

Section Trimmed.
Import JsString JsStringFacts.

Lemma trimEnd_idemp (t : string) : trimEnd (trimEnd t) = trimEnd t.
Proof.
  induction t as [|c t IH]; simpl; [done |].
  destruct (trimEnd t) as [|a u] eqn:Hu.
  - destruct (is_whitespace c) eqn:Hc; simpl; [done | by rewrite Hc].
  - simpl in *. by rewrite IH.
Qed.

Lemma trimStart_clean (c : ascii) (t : string) :
  is_whitespace c = false → trimStart (String c t) = String c t.
Proof. intros Hc. simpl. by rewrite Hc. Qed.

(** Trimming a trimmed text changes nothing. *)
Lemma trim_idemp (t : string) : trim (trim t) = trim t.
Proof.
  destruct (trim t) as [|c u] eqn:Ht; [done |].
  pose proof (proj2 (trim_spec t) c u Ht) as Hc.
  unfold trim in *. rewrite (trimStart_clean c u Hc), <- Ht. apply trimEnd_idemp.
Qed.

End Trimmed.

Section Invariants.
Context {dataParse : JsonParse RecipeData}.
Context {recipesParse : JsonParse (list Recipe)} {itemsParse : JsonParse (list string)}.
Context {recipesText : JsonStringify (list Recipe)} {itemsText : JsonStringify (list string)}.
Context (atob : string → option string) (ctx : AudioContext).
Implicit Types (s : State) (e : Event) (r : Recipe).

Lemma manualShoppingItems_mount_empty :
  manualShoppingItems (mount ∅).1 = [].
Proof. unfold mount. simpl. by rewrite manualShoppingItems_loadEffect, lookup_empty. Qed.

Lemma savedRecipes_mount_empty : savedRecipes (mount ∅).1 = [].
Proof. unfold mount. simpl. by rewrite savedRecipes_loadEffect, lookup_empty. Qed.

Lemma currentRecipe_mount ls : currentRecipe (mount ls).1 = None.
Proof.
  unfold mount, loadEffect. simpl. by repeat (destruct (parsedItem _)).
Qed.

Lemma cookingMode_mount ls : cookingMode (mount ls).1 = None.
Proof.
  unfold mount, loadEffect. simpl. by repeat (destruct (parsedItem _)).
Qed.

Lemma addShoppingItem_trimmed s :
  Forall trimmed (manualShoppingItems s) →
  Forall trimmed (manualShoppingItems (addShoppingItem s)).
Proof.
  intros Hs. unfold addShoppingItem.
  destruct (JsString.falsy (JsString.trim (newItemText s))) eqn:Ht; [done |].
  replace (manualShoppingItems _)
    with (manualShoppingItems s ++ [JsString.trim (newItemText s)])%list
    by (by destruct s).
  apply Forall_app. split; [done |]. apply Forall_singleton. split.
  - by apply JsStringFacts.falsy_false.
  - apply trim_idemp.
Qed.

Hypothesis recipes_round_trip :
  ∀ l : list Recipe, JSON_parse (JSON_stringify l) = Some l.
Hypothesis recipes_truthy :
  ∀ l : list Recipe, JsString.falsy (JSON_stringify l) = false.
Hypothesis items_round_trip :
  ∀ l : list string, JSON_parse (JSON_stringify l) = Some l.
Hypothesis items_truthy :
  ∀ l : list string, JsString.falsy (JSON_stringify l) = false.

Lemma savedRecipes_reload s :
  savedRecipes (handle atob ctx Reload s) = savedRecipes s.
Proof.
  unfold handle, react, mount. cbn [fst].
  rewrite savedRecipes_loadEffect, stored_recipes. unfold parsedItem.
  by rewrite recipes_truthy, recipes_round_trip.
Qed.

Lemma manualShoppingItems_reload s :
  manualShoppingItems (handle atob ctx Reload s) = manualShoppingItems s.
Proof.
  unfold handle, react, mount. cbn [fst].
  rewrite manualShoppingItems_loadEffect, stored_items. unfold parsedItem.
  by rewrite items_truthy, items_round_trip.
Qed.

Lemma reachable_trimmed s :
  reachable atob ctx s → Forall trimmed (manualShoppingItems s).
Proof.
  induction 1 as [|e s Hs IH].
  - by rewrite manualShoppingItems_mount_empty.
  - destruct (touchesShopping e) eqn:He;
      [| by rewrite handle_manualShoppingItems].
    destruct e; try discriminate He.
    + by apply addShoppingItem_trimmed.
    + unfold handle, react. cbn [fst].
      rewrite removeShoppingItem_delete, manualShoppingItems_set.
      by apply Forall_delete.
    + by rewrite manualShoppingItems_reload.
Qed.

(** *** Identifiers *)

Lemma source_same e s r : holds s r → Source e s r.
Proof. intros Hr. by apply (source_held e s r r). Qed.

Lemma handle_source e s r : holds (handle atob ctx e s) r → Source e s r.
Proof.
  intros [Hr | [Hr | Hr]].
  - destruct (touchesLibrary e) eqn:He;
      [| rewrite handle_savedRecipes in Hr by done; apply source_same; by left].
    destruct e; try discriminate He; unfold handle, react in Hr; cbn [fst] in Hr.
    + unfold saveCurrentRecipe in Hr.
      destruct (currentRecipe s) as [cur|] eqn:Hcur; [| apply source_same; by left].
      destruct (List.find _ _); [apply source_same; by left |].
      rewrite savedRecipes_setSavedRecipes in Hr.
      apply elem_of_cons in Hr as [-> | Hr]; apply source_same; [right | ]; by left.
    + unfold addManualDish in Hr.
      destruct (JsString.falsy _); [apply source_same; by left |].
      assert (r ∈ manualRecipe uuid now (customDish s) :: savedRecipes s) as Hin
        by (by destruct s).
      apply elem_of_cons in Hin as [-> | Hin];
        [by eapply source_manual | apply source_same; by left].
    + unfold removeRecipe in Hr. rewrite savedRecipes_setSavedRecipes in Hr.
      apply list_elem_of_In, filter_In in Hr as [Hr _].
      apply source_same. left. by apply list_elem_of_In.
    + fold (react atob ctx Reload s) in Hr. fold (handle atob ctx Reload s) in Hr.
      rewrite savedRecipes_reload in Hr. apply source_same. by left.
  - destruct (touchesCurrent e) eqn:He;
      [| rewrite handle_currentRecipe in Hr by done; apply source_same; right; by left].
    destruct e; try discriminate He; unfold handle, react in Hr; cbn [fst] in Hr.
    + by destruct s.
    + unfold generateRecipe_resume in Hr.
      destruct (generatedRecipe uuid now resp) as [r'|] eqn:Hgen.
      * assert (r' = r) as -> by (destruct s; simpl in Hr; congruence).
        by eapply source_generated.
      * apply source_same. right. left. by destruct s.
    + unfold visualizeRecipe_resume in Hr. destruct part as [[mimeType data]|].
      * destruct (currentRecipe s) as [r0|] eqn:Hcur; [| by destruct s].
        apply (source_held _ s r r0); [right; by left | |];
          destruct s; simpl in *; by injection Hr as <-.
      * apply source_same. right. left. by destruct s.
    + destruct (savedRecipes s !! i) as [r'|] eqn:Hi;
        [| apply source_same; right; by left].
      assert (r' = r) as -> by (destruct s; simpl in Hr; congruence).
      apply source_same. left. by eapply list_elem_of_lookup_2.
    + by rewrite currentRecipe_mount in Hr.
  - destruct (touchesCooking e) eqn:He;
      [| rewrite handle_cookingMode in Hr by done; apply source_same; right; by right].
    destruct e; try discriminate He; unfold handle, react in Hr; cbn [fst] in Hr.
    + unfold enterCookingMode in Hr.
      destruct (currentRecipe s) as [cur|] eqn:Hcur;
        [| apply source_same; right; by right].
      assert (cur = r) as -> by (destruct s; simpl in Hr; congruence).
      apply source_same. right. by left.
    + by destruct s.
    + by rewrite cookingMode_mount in Hr.
Qed.

Lemma NoDup_map_filter {A B} (f : A → B) (p : A → bool) (l : list A) :
  NoDup (List.map f l) → NoDup (List.map f (List.filter p l)).
Proof.
  induction l as [|x l IH]; simpl; [done |].
  intros [Hx Hl]%NoDup_cons. destruct (p x); simpl; [| by apply IH].
  apply NoDup_cons. split; [| by apply IH].
  intros Hin. apply Hx.
  apply list_elem_of_In, in_map_iff in Hin as (y & Hy & Hin%filter_In).
  apply list_elem_of_In, in_map_iff. exists y. by destruct Hin.
Qed.

Lemma handle_distinctIds e s :
  freshFor e s → distinctIds s → distinctIds (handle atob ctx e s).
Proof.
  intros Hfresh [Hnd Htitle]. split.
  - destruct (touchesLibrary e) eqn:He; [| by rewrite handle_savedRecipes].
    destruct e; try discriminate He; unfold handle, react; cbn [fst].
    + unfold saveCurrentRecipe.
      destruct (currentRecipe s) as [cur|] eqn:Hcur; [| done].
      destruct (List.find _ _) eqn:Hfind; [done |].
      rewrite savedRecipes_setSavedRecipes. simpl. apply NoDup_cons. split; [| done].
      intros Hin. apply list_elem_of_In, in_map_iff in Hin as (r & Hid & Hr).
      apply (find_None_title cur _ Hfind).
      apply list_elem_of_In, in_map_iff. exists r. split; [| done].
      apply Htitle; [left; by apply list_elem_of_In | right; by left | done].
    + unfold addManualDish. destruct (JsString.falsy _); [done |].
      replace (savedRecipes _)
        with (manualRecipe uuid now (customDish s) :: savedRecipes s)
        by (by destruct s).
      simpl. apply NoDup_cons. split; [| done].
      intros Hin. apply list_elem_of_In, in_map_iff in Hin as (r & Hid & Hr).
      apply (Hfresh r); [left; by apply list_elem_of_In | done].
    + unfold removeRecipe. rewrite savedRecipes_setSavedRecipes.
      by apply NoDup_map_filter.
    + fold (react atob ctx Reload s). fold (handle atob ctx Reload s).
      by rewrite savedRecipes_reload.
  - intros r r' Hr Hr' Hid.
    destruct (handle_source e s r Hr) as [r0 Hr0 Hid0 Ht0 | uuid now resp -> Hgen | uuid now -> ->];
      destruct (handle_source _ s r' Hr')
        as [r0' Hr0' Hid0' Ht0' | uuid' now' resp' Heq Hgen' | uuid' now' Heq ->].
    + rewrite <- Ht0, <- Ht0'. apply Htitle; [done | done | congruence].
    + subst e. exfalso. apply (Hfresh r0 Hr0).
      destruct resp' as [|text]; [done |]. simpl in Hgen'.
      destruct (JSON_parse _) as [data|]; [| done]. simpl in Hgen'.
      destruct (d_title data); [| done]. injection Hgen' as <-. simpl in Hid. congruence.
    + subst e. exfalso. apply (Hfresh r0 Hr0). simpl in Hid. congruence.
    + exfalso. apply (Hfresh r0' Hr0').
      destruct resp as [|text]; [done |]. simpl in Hgen.
      destruct (JSON_parse _) as [data|]; [| done]. simpl in Hgen.
      destruct (d_title data); [| done]. injection Hgen as <-. simpl in Hid. congruence.
    + injection Heq as <- <- <-. congruence.
    + discriminate Heq.
    + exfalso. apply (Hfresh r0' Hr0'). simpl in Hid. congruence.
    + discriminate Heq.
    + by injection Heq as <- <-.
Qed.

Lemma reachableFresh_distinctIds s : reachableFresh atob ctx s → distinctIds s.
Proof.
  induction 1 as [|e s Hs Hfresh IH]; [| by apply handle_distinctIds].
  split.
  - rewrite savedRecipes_mount_empty. constructor.
  - intros r r' [Hr | [Hr | Hr]].
    + rewrite savedRecipes_mount_empty in Hr. by apply elem_of_nil in Hr.
    + by rewrite currentRecipe_mount in Hr.
    + by rewrite cookingMode_mount in Hr.
Qed.

End Invariants.

(** X9.  For a [JSON.parse] that reads back what [JSON.stringify] wrote:
    in every state reached from a first mount, every manual shopping item
    is a text that is not empty and that has no whitespace at either end.
    The input of the shopping view stores the trimmed text only, and no
    other handler adds an item. *)
Theorem X9_shopping_items_are_trimmed
    {dataParse : JsonParse RecipeData}
    {recipesParse : JsonParse (list Recipe)} {itemsParse : JsonParse (list string)}
    {recipesText : JsonStringify (list Recipe)} {itemsText : JsonStringify (list string)}
    (atob : string → option string) (ctx : AudioContext) :
  (∀ l : list string, JSON_parse (JSON_stringify l) = Some l) →
  (∀ l : list string, JsString.falsy (JSON_stringify l) = false) →
  ∀ s, reachable atob ctx s →
       ∀ item, item ∈ manualShoppingItems s →
               item ≠ EmptyString
               ∧ JsString.trim item = item
               ∧ ∀ c t, item = String c t → JsString.is_whitespace c = false.
Proof.
  intros Hround Htruthy s Hs item Hitem.
  pose proof (reachable_trimmed atob ctx Hround Htruthy s Hs) as Hall.
  rewrite Forall_forall in Hall. destruct (Hall item Hitem) as [Hne Htrim].
  split; [done |]. split; [done |].
  intros c t Heq. apply (proj2 (JsStringFacts.trim_spec item) c t). congruence.
Qed.

(** X9 with the codec of this development, at an item typed with blanks
    around it, added after the first mount and kept over a reload. *)
Lemma X9_shopping_items_are_trimmed_witness :
  let noAudio : string → option string := λ _, None in
  let run := handle (dataParse := Codec.parseData)
               (recipesParse := Codec.parseRecipes) (itemsParse := Codec.parseStrings)
               (recipesText := Codec.stringifyRecipes) (itemsText := Codec.stringifyStrings)
               noAudio webAudioContext in
  let s := run Reload (run AddShoppingItem (run (TypeItem "  Milk ") initialState)) in
  manualShoppingItems s = ["Milk"] ∧ JsString.trim "Milk" = "Milk".
Proof.
  intros noAudio run s. split; [by vm_compute |].
  pose proof (X9_shopping_items_are_trimmed
                (dataParse := Codec.parseData)
                (recipesParse := Codec.parseRecipes) (itemsParse := Codec.parseStrings)
                (recipesText := Codec.stringifyRecipes) (itemsText := Codec.stringifyStrings)
                noAudio webAudioContext
                CodecFacts.parseStrings_stringifyStrings
                CodecFacts.stringifyStrings_truthy s) as Hitems.
  apply (Hitems (ltac:(do 3 apply reachable_handle; exact (reachable_mount _ _)))
           "Milk").
  replace (manualShoppingItems s) with ["Milk"] by (by vm_compute).
  by left.
Defined.

(** X10.  For a [JSON.parse] that reads back what [JSON.stringify] wrote,
    and identifiers from [crypto.randomUUID] that no recipe of the state
    has yet: in every state reached from a first mount, the saved recipes
    have distinct identifiers, so the bin of a pantry card removes that
    card and no other. *)
Theorem X10_bin_removes_one_card
    {dataParse : JsonParse RecipeData}
    {recipesParse : JsonParse (list Recipe)} {itemsParse : JsonParse (list string)}
    {recipesText : JsonStringify (list Recipe)} {itemsText : JsonStringify (list string)}
    (atob : string → option string) (ctx : AudioContext) :
  (∀ l : list Recipe, JSON_parse (JSON_stringify l) = Some l) →
  (∀ l : list Recipe, JsString.falsy (JSON_stringify l) = false) →
  ∀ s, reachableFresh atob ctx s →
       NoDup (List.map id (savedRecipes s))
       ∧ ∀ r, r ∈ savedRecipes s →
              S (List.length (savedRecipes (removeRecipe (id r) s)))
              = List.length (savedRecipes s)
              ∧ ∀ r', r' ∈ savedRecipes (removeRecipe (id r) s)
                      ↔ r' ∈ savedRecipes s ∧ r' ≠ r.
Proof.
  intros Hround Htruthy s Hs.
  destruct (reachableFresh_distinctIds atob ctx Hround Htruthy s Hs) as [Hnd _].
  split; [done |]. intros r Hr.
  unfold removeRecipe. rewrite savedRecipes_setSavedRecipes.
  split; [by apply filter_id_unique |].
  intros r'. rewrite !list_elem_of_In, filter_In, negb_true_iff, String.eqb_neq.
  rewrite <- !list_elem_of_In. split.
  - intros [Hr' Hid]. split; [done |]. by intros ->.
  - intros [Hr' Hne]. split; [done |]. intros Hid. apply Hne.
    apply list_elem_of_lookup in Hr as [i Hi]. apply list_elem_of_lookup in Hr' as [j Hj].
    assert (i = j) as ->; [| congruence].
    apply (NoDup_lookup _ i j (id r) Hnd).
    + change (List.map id (savedRecipes s)) with (id <$> savedRecipes s).
      by rewrite list_lookup_fmap, Hi.
    + change (List.map id (savedRecipes s)) with (id <$> savedRecipes s).
      rewrite list_lookup_fmap, Hj. simpl. by rewrite Hid.
Qed.

(** X10 with the codec of this development: two dishes entered by hand
    under two identifiers, the first removed by its bin. *)
Lemma X10_bin_removes_one_card_witness :
  let noAudio : string → option string := λ _, None in
  let run := handle (dataParse := Codec.parseData)
               (recipesParse := Codec.parseRecipes) (itemsParse := Codec.parseStrings)
               (recipesText := Codec.stringifyRecipes) (itemsText := Codec.stringifyStrings)
               noAudio webAudioContext in
  let s := run (AddManualDish "id-2" 2)
             (run (EditDish salad)
                (run (AddManualDish "id-1" 1) (run (EditDish soup) initialState))) in
  List.length (savedRecipes s) = 2%nat
  ∧ S (List.length (savedRecipes (removeRecipe "id-1" s))) = List.length (savedRecipes s).
Proof.
  intros noAudio run s. split; [reflexivity |].
  assert (reachableFresh (dataParse := Codec.parseData)
            (recipesParse := Codec.parseRecipes) (itemsParse := Codec.parseStrings)
            (recipesText := Codec.stringifyRecipes) (itemsText := Codec.stringifyStrings)
            noAudio webAudioContext s) as Hs.
  { apply fresh_handle; [apply fresh_handle; [apply fresh_handle; [apply fresh_handle |] |] |].
    - exact (fresh_mount _ _).
    - exact I.
    - intros r [Hr | [Hr | Hr]]; [by apply elem_of_nil in Hr | done | done].
    - exact I.
    - intros r [Hr | [Hr | Hr]]; [| done | done].
      apply list_elem_of_singleton in Hr. by subst r. }
  destruct (X10_bin_removes_one_card
              (dataParse := Codec.parseData)
              (recipesParse := Codec.parseRecipes) (itemsParse := Codec.parseStrings)
              (recipesText := Codec.stringifyRecipes) (itemsText := Codec.stringifyStrings)
              noAudio webAudioContext
              CodecFacts.parseRecipes_stringifyRecipes
              CodecFacts.stringifyRecipes_truthy s Hs) as [_ Hone].
  destruct (Hone (manualRecipe "id-1" 1 soup)) as [Hlen _]; [right; by left |].
  exact Hlen.
Defined.
(** ** Illustration *)

Section Illustration.
Implicit Types (s : State) (r : Recipe).

Lemma isVisualizing_resume part s : isVisualizing (visualizeRecipe_resume part s) = false.
Proof. destruct part as [[mimeType data]|]; by destruct s. Qed.

Lemma savedRecipes_resume part s :
  savedRecipes (visualizeRecipe_resume part s) = savedRecipes s.
Proof. destruct part as [[mimeType data]|]; by destruct s. Qed.

Lemma currentRecipe_resume mimeType data s :
  currentRecipe (visualizeRecipe_resume (Some (mimeType, data)) s)
  = withImageUrl ("data:" ++ mimeType ++ ";base64," ++ data) <$> currentRecipe s.
Proof. by destruct s. Qed.

Lemma currentRecipe_resume_None s :
  currentRecipe (visualizeRecipe_resume None s) = currentRecipe s.
Proof. by destruct s. Qed.

End Illustration.

(** X11.  Illustration.  Without a current recipe [visualizeRecipe] does
    nothing.  However the request settles, the flag is cleared and the
    saved recipes are as they were.  An image goes to the recipe that is
    current when the request settles, which need not be the recipe the
    image was asked for: a card selected in between receives it.  All but
    the image of that recipe is kept.  And on a recipe whose title is
    saved, the Heart button does nothing afterwards either, so the image
    never reaches the pantry. *)
Theorem X11_illustration (s : State) :
  (currentRecipe s = None → visualizeRecipe s = (s, []))
  ∧ (∀ part, isVisualizing (visualizeRecipe_resume part s) = false
             ∧ savedRecipes (visualizeRecipe_resume part s) = savedRecipes s)
  ∧ (∀ mimeType data r r',
       currentRecipe s = Some r →
       let url := "data:" ++ mimeType ++ ";base64," ++ data in
       let s1 := selectRecipe r' (visualizeRecipe s).1 in
       currentRecipe (visualizeRecipe_resume (Some (mimeType, data)) s1)
       = Some (withImageUrl url r')
       ∧ imageUrl (withImageUrl url r') = Some url
       ∧ id (withImageUrl url r') = id r'
       ∧ title (withImageUrl url r') = title r'
       ∧ ingredients (withImageUrl url r') = ingredients r'
       ∧ instructions (withImageUrl url r') = instructions r')
  ∧ (∀ part r r0,
       currentRecipe s = Some r → r0 ∈ savedRecipes s → title r0 = title r →
       saveCurrentRecipe (visualizeRecipe_resume part s) = visualizeRecipe_resume part s).
Proof.
  split; [| split; [| split]].
  - intros Hcur. unfold visualizeRecipe. by rewrite Hcur.
  - intros part. split; [apply isVisualizing_resume | apply savedRecipes_resume].
  - intros mimeType data r r' Hcur url s1. split; [| done].
    subst s1. rewrite currentRecipe_resume. unfold visualizeRecipe. rewrite Hcur.
    by destruct s.
  - intros part r r0 Hcur Hin Ht.
    destruct part as [[mimeType data]|].
    + apply (saveCurrentRecipe_duplicate _
               (withImageUrl ("data:" ++ mimeType ++ ";base64," ++ data) r)).
      * by rewrite currentRecipe_resume, Hcur.
      * exists r0. by rewrite savedRecipes_resume.
    + apply (saveCurrentRecipe_duplicate _ r).
      * by rewrite currentRecipe_resume_None.
      * exists r0. by rewrite savedRecipes_resume.
Qed.

(** X11 at the toast, saved and current, illustrated after the salad was
    selected. *)
Lemma X11_illustration_witness :
  let dish := manualRecipe "id-2" 2 salad in
  let s := setCurrentRecipe (Some toast) (setSavedRecipes [toast; dish] initialState) in
  let s1 := selectRecipe dish (visualizeRecipe s).1 in
  imageUrl <$> currentRecipe (visualizeRecipe_resume (Some ("image/png", "AAAA")) s1)
  = Some (Some "data:image/png;base64,AAAA")
  ∧ title <$> currentRecipe (visualizeRecipe_resume (Some ("image/png", "AAAA")) s1)
    = Some (title dish)
  ∧ saveCurrentRecipe (visualizeRecipe_resume (Some ("image/png", "AAAA")) s)
    = visualizeRecipe_resume (Some ("image/png", "AAAA")) s.
Proof.
  intros dish s s1.
  destruct (X11_illustration s) as (_ & _ & Himage & Hheart).
  destruct (Himage "image/png" "AAAA" toast dish) as (Hcur & _); [reflexivity |].
  split; [fold s1 in Hcur; by rewrite Hcur |].
  split; [fold s1 in Hcur; by rewrite Hcur |].
  apply (Hheart (Some ("image/png", "AAAA")) toast toast); [reflexivity | by left | reflexivity].
Defined.

(** ** Narration *)

Section Narration.
Context (atob : string → option string) (ctx : AudioContext).
Implicit Types (s : State) (resp : SpeechResponse).

Lemma isSpeaking_set b s : isSpeaking (setIsSpeaking b s) = b.
Proof. by destruct s. Qed.

(** How a speech request settles: the flag is cleared and nothing plays,
    or the decoded buffer plays and the state is as it was. *)
Lemma speakStep_resume_cases resp s :
  speakStep_resume atob ctx resp s = (setIsSpeaking false s, [])
  ∨ ∃ b64 bytes buffer,
      resp = SpeechAnswer (Some b64)
      ∧ b64 ≠ EmptyString
      ∧ decodeBase64 atob b64 = Some bytes
      ∧ decodeAudioData bytes ctx = Some buffer
      ∧ speakStep_resume atob ctx resp s = (s, [StartPlayback buffer]).
Proof.
  destruct resp as [|[b64|]]; [by left | | by left]. simpl.
  destruct (JsString.falsy b64) eqn:Hb; [by left |].
  destruct (decodeBase64 atob b64) as [bytes|] eqn:Hbytes; [| by left]. simpl.
  destruct (decodeAudioData bytes ctx) as [buffer|] eqn:Hbuf; [| by left].
  right. exists b64, bytes, buffer. by apply JsStringFacts.falsy_false in Hb.
Qed.

Lemma get_list_ascii (bin : string) (i : nat) :
  list_ascii_of_string bin !! i = String.get i bin.
Proof.
  revert i. induction bin as [|c bin IH]; intros [|i]; simpl; by try apply IH.
Qed.

Lemma length_list_ascii (bin : string) :
  List.length (list_ascii_of_string bin) = String.length bin.
Proof. induction bin as [|c bin IH]; simpl; [done | by rewrite IH]. Qed.

End Narration.

(** X12.  Narration.  A request that is accepted sets the flag and asks
    the speech model for the text.  When the request settles, either the
    flag is cleared and nothing plays, or a buffer decoded from the answer
    plays and the state is as it was, the flag staying set until the
    playback ends; so a narration that fails gives the button back.  And a
    move to another step clears the flag whatever is playing: the button
    then accepts a second narration over the first. *)
Theorem X12_narration_settles (atob : string → option string) (ctx : AudioContext)
    (text : string) (s : State) :
  (isSpeaking s = false →
   (speakStep text s).2 = [GenerateContent ttsModel false text]
   ∧ isSpeaking (speakStep text s).1 = true)
  ∧ (∀ resp,
       speakStep_resume atob ctx resp s = (setIsSpeaking false s, [])
       ∨ ∃ b64 bytes buffer,
           resp = SpeechAnswer (Some b64)
           ∧ b64 ≠ EmptyString
           ∧ decodeBase64 atob b64 = Some bytes
           ∧ decodeAudioData bytes ctx = Some buffer
           ∧ speakStep_resume atob ctx resp s = (s, [StartPlayback buffer]))
  ∧ (∀ resp, isSpeaking (playbackEnded (speakStep_resume atob ctx resp s).1) = false)
  ∧ (∀ r n, cookingMode s = Some r → stepCount r = Some n →
            (currentStep s ≠ n - 1 →
             (speakStep text (clickNext s)).2 = [GenerateContent ttsModel false text])
            ∧ (currentStep s ≠ 0 →
               (speakStep text (clickPrevious s)).2 = [GenerateContent ttsModel false text])).
Proof.
  split; [| split; [| split]].
  - intros Hs. unfold speakStep. rewrite Hs. split; [done | by destruct s].
  - intros resp. apply speakStep_resume_cases.
  - intros resp. apply isSpeaking_set.
  - intros r n Hr Hn. split; intros Hne.
    + unfold clickNext, nextDisabled. rewrite Hr, Hn.
      replace (currentStep s =? n - 1) with false by (symmetry; by apply Z.eqb_neq).
      unfold speakStep. by rewrite isSpeaking_set.
    + unfold clickPrevious, prevDisabled. rewrite Hr.
      replace (currentStep s =? 0) with false by (symmetry; by apply Z.eqb_neq).
      unfold speakStep. by rewrite isSpeaking_set.
Qed.

(** X12 on the first step of the toast, while its narration plays. *)
Lemma X12_narration_settles_witness :
  let s := setIsSpeaking true (setCookingMode (Some toast) initialState) in
  (speakStep "Toast." s).2 = []
  ∧ (speakStep "Toast." (clickNext s)).2
    = [GenerateContent ttsModel false "Toast."].
Proof.
  intros s. split; [reflexivity |].
  destruct (X12_narration_settles (λ _, None) webAudioContext "Toast." s)
    as (_ & _ & _ & Hstep).
  destruct (Hstep toast 2) as [Hnext _]; [reflexivity | reflexivity |].
  apply Hnext. discriminate.
Defined.

(** X13.  The two audio helpers on data that cannot be played.
    [decodeBase64] fails exactly when [atob] does, and otherwise gives one
    byte per code unit of the binary string, the code of that unit.
    [decodeAudioData] fails on an odd number of bytes in every context,
    and when it returns, the buffer has the rate, the length and the
    channel count of the buffer the context created for half as many
    frames as there are bytes.  An answer that [atob] refuses, or of an odd
    number of bytes, ends the narration: the flag is cleared and nothing
    plays. *)
Theorem X13_undecodable_audio (atob : string → option string) (ctx : AudioContext)
    (b64 : string) (s : State) :
  (decodeBase64 atob b64 = None ↔ atob b64 = None)
  ∧ (∀ bin, atob b64 = Some bin →
       ∃ bytes, decodeBase64 atob b64 = Some bytes
                ∧ List.length bytes = String.length bin
                ∧ ∀ i c, String.get i bin = Some c →
                         bytes !! i = Some (byte_of_ascii c)
                         ∧ Byte.to_N (byte_of_ascii c) = N_of_ascii c)
  ∧ (∀ data, Nat.even (List.length data) = false → decodeAudioData data ctx = None)
  ∧ (∀ data buffer, decodeAudioData data ctx = Some buffer →
       Nat.even (List.length data) = true
       ∧ ∃ created, createBuffer ctx 1%nat (List.length data / 2)%nat 24000 = Some created
                    ∧ sampleRate buffer = sampleRate created
                    ∧ frameCount buffer = frameCount created
                    ∧ numberOfChannels buffer = numberOfChannels created)
  ∧ (atob b64 = None
     ∨ (∃ bin, atob b64 = Some bin ∧ Nat.even (String.length bin) = false) →
     speakStep_resume atob ctx (SpeechAnswer (Some b64)) s = (setIsSpeaking false s, [])).
Proof.
  assert (∀ data, Nat.even (List.length data) = false → decodeAudioData data ctx = None)
    as Hodd.
  { intros data Hdata. unfold decodeAudioData. by rewrite int16Array_odd. }
  split; [| split; [| split; [| split]]].
  - unfold decodeBase64. destruct (atob b64); simpl; split; congruence.
  - intros bin Hbin. unfold decodeBase64. rewrite Hbin. simpl. eexists.
    split; [done |]. split; [by rewrite length_map, length_list_ascii |].
    intros i c Hc. split.
    + change (List.map byte_of_ascii (list_ascii_of_string bin))
        with (byte_of_ascii <$> list_ascii_of_string bin).
      by rewrite list_lookup_fmap, get_list_ascii, Hc.
    + unfold byte_of_ascii.
      destruct c as [[] [] [] [] [] [] [] []]; reflexivity.
  - exact Hodd.
  - intros data buffer Hbuf.
    destruct (Nat.even (List.length data)) eqn:Heven;
      [| rewrite (Hodd data Heven) in Hbuf; discriminate].
    split; [done |].
    destruct (int16Array_even data Heven) as (dataInt16 & Hview & Hlen & _).
    unfold decodeAudioData in Hbuf. rewrite Hview in Hbuf. simpl in Hbuf.
    rewrite Hlen in Hbuf.
    destruct (createBuffer ctx 1%nat _ 24000) as [created|]; [| done]. simpl in Hbuf.
    destruct (channels created !! 0%nat); [| done]. injection Hbuf as <-.
    exists created. split; [done |]. split; [done |]. split; [done |].
    unfold numberOfChannels. simpl. by rewrite length_insert.
  - intros Hbad. simpl.
    destruct (JsString.falsy b64); [done |].
    destruct Hbad as [Hnone | (bin & Hbin & Hlen)].
    + unfold decodeBase64. by rewrite Hnone.
    + unfold decodeBase64. rewrite Hbin. simpl. rewrite Hodd; [done |].
      by rewrite length_map, length_list_ascii.
Qed.

(** X13 at an answer of three bytes. *)
Lemma X13_undecodable_audio_witness :
  let atob : string → option string := λ _, Some "abc" in
  let s := setIsSpeaking true initialState in
  speakStep_resume atob webAudioContext (SpeechAnswer (Some "YWJj")) s
  = (setIsSpeaking false s, []).
Proof.
  intros atob s.
  destruct (X13_undecodable_audio atob webAudioContext "YWJj" s) as (_ & _ & _ & _ & Hends).
  apply Hends. right. exists "abc". split; reflexivity.
Defined.
(** ** Runs of clicks in cooking mode *)

Section Clicks.
Implicit Types (s : State) (r : Recipe) (clicks : list bool).

Lemma cookingMode_clickNext s : cookingMode (clickNext s) = cookingMode s.
Proof.
  unfold clickNext. destruct (cookingMode s) as [r|] eqn:Hr; [| done].
  destruct (stepCount r); [| done]. destruct (nextDisabled _ _); [done |].
  by rewrite cookingMode_step.
Qed.

Lemma cookingMode_clickPrevious s : cookingMode (clickPrevious s) = cookingMode s.
Proof.
  unfold clickPrevious. destruct (cookingMode s) as [r|] eqn:Hr; [| done].
  destruct (prevDisabled _); [done |]. by rewrite cookingMode_step.
Qed.

Lemma clickSteps_cons (next : bool) clicks s :
  clickSteps (next :: clicks) s
  = clickSteps clicks (if next then clickNext s else clickPrevious s).
Proof. reflexivity. Qed.

Lemma cookingMode_clickSteps clicks s :
  cookingMode (clickSteps clicks s) = cookingMode s.
Proof.
  revert s. induction clicks as [|[] clicks IH]; intros s; [done | |];
    rewrite clickSteps_cons, IH;
    [apply cookingMode_clickNext | apply cookingMode_clickPrevious].
Qed.

Lemma clickSteps_in_range clicks s : stepInRange s → stepInRange (clickSteps clicks s).
Proof.
  revert s. induction clicks as [|[] clicks IH]; intros s Hs; [done | |];
    rewrite clickSteps_cons; apply IH;
    [by apply clickNext_in_range | by apply clickPrevious_in_range].
Qed.

(** One click on next, on the overlay of a recipe with [n] steps. *)
Lemma currentStep_clickNext s r n :
  cookingMode s = Some r → stepCount r = Some n →
  currentStep (clickNext s)
  = if currentStep s =? n - 1 then currentStep s else currentStep s + 1.
Proof.
  intros Hr Hn. unfold clickNext, nextDisabled. rewrite Hr, Hn.
  destruct (currentStep s =? n - 1); [done | apply currentStep_step].
Qed.

Lemma currentStep_clickPrevious s r :
  cookingMode s = Some r →
  currentStep (clickPrevious s)
  = if currentStep s =? 0 then currentStep s else currentStep s - 1.
Proof.
  intros Hr. unfold clickPrevious, prevDisabled. rewrite Hr.
  destruct (currentStep s =? 0); [done | apply currentStep_step].
Qed.

Lemma stepCount_instructions r (l : list string) :
  instructions r = Some l → stepCount r = Some (Z.of_nat (List.length l)).
Proof. intros Hl. unfold stepCount. by rewrite Hl. Qed.

Lemma clickNext_run (k : nat) : ∀ s r n,
  cookingMode s = Some r → stepCount r = Some n → 0 ≤ currentStep s ≤ n - 1 →
  currentStep (clickSteps (replicate k true) s)
  = Z.min (currentStep s + Z.of_nat k) (n - 1).
Proof.
  induction k as [|k IH]; intros s r n Hr Hn Hrange.
  - simpl. lia.
  - change (replicate (S k) true) with (true :: replicate k true).
    rewrite clickSteps_cons.
    pose proof (currentStep_clickNext s r n Hr Hn) as Hstep.
    rewrite (IH (clickNext s) r n); [| by rewrite cookingMode_clickNext | done |].
    + rewrite Hstep. destruct (currentStep s =? n - 1) eqn:Hd; [apply Z.eqb_eq in Hd | ]; lia.
    + rewrite Hstep. destruct (currentStep s =? n - 1) eqn:Hd; [| apply Z.eqb_neq in Hd]; lia.
Qed.

Lemma clickPrevious_run (k : nat) : ∀ s r,
  cookingMode s = Some r → 0 ≤ currentStep s →
  currentStep (clickSteps (replicate k false) s)
  = Z.max (currentStep s - Z.of_nat k) 0.
Proof.
  induction k as [|k IH]; intros s r Hr Hrange.
  - simpl. lia.
  - change (replicate (S k) false) with (false :: replicate k false).
    rewrite clickSteps_cons.
    pose proof (currentStep_clickPrevious s r Hr) as Hstep.
    rewrite (IH (clickPrevious s) r); [| by rewrite cookingMode_clickPrevious |].
    + rewrite Hstep. destruct (currentStep s =? 0) eqn:Hd; [apply Z.eqb_eq in Hd | ]; lia.
    + rewrite Hstep. destruct (currentStep s =? 0) eqn:Hd; [| apply Z.eqb_neq in Hd]; lia.
Qed.

(** Past the last step the next button is enabled and stays so. *)
Lemma clickNext_past (k : nat) : ∀ s r n,
  cookingMode s = Some r → stepCount r = Some n → n ≤ currentStep s →
  currentStep (clickSteps (replicate k true) s) = currentStep s + Z.of_nat k.
Proof.
  induction k as [|k IH]; intros s r n Hr Hn Hpast.
  - simpl. lia.
  - change (replicate (S k) true) with (true :: replicate k true).
    rewrite clickSteps_cons.
    pose proof (currentStep_clickNext s r n Hr Hn) as Hstep.
    replace (currentStep s =? n - 1) with false in Hstep
      by (symmetry; apply Z.eqb_neq; lia).
    rewrite (IH (clickNext s) r n); [| by rewrite cookingMode_clickNext | done |]; lia.
Qed.

Lemma shownInstruction_in_range s r (l : list string) :
  cookingMode s = Some r → instructions r = Some l →
  0 ≤ currentStep s ≤ Z.of_nat (List.length l) - 1 →
  ∃ text, shownInstruction s = Some text ∧ text ∈ l.
Proof.
  intros Hr Hl Hrange. unfold shownInstruction. rewrite Hr. simpl. rewrite Hl. simpl.
  replace (currentStep s <? 0) with false by (symmetry; apply Z.ltb_ge; lia).
  destruct (lookup_lt_is_Some_2 l (Z.to_nat (currentStep s))) as [text Htext]; [lia |].
  exists text. split; [done |]. by eapply list_elem_of_lookup_2.
Qed.

Lemma shownInstruction_past s r (l : list string) :
  cookingMode s = Some r → instructions r = Some l →
  Z.of_nat (List.length l) ≤ currentStep s →
  shownInstruction s = None.
Proof.
  intros Hr Hl Hpast. unfold shownInstruction. rewrite Hr. simpl. rewrite Hl. simpl.
  destruct (currentStep s <? 0); [done |]. apply lookup_ge_None. lia.
Qed.

End Clicks.

(** X14.  On the overlay of a recipe with [N] steps, opened at one of its
    steps, any run of clicks on next and previous stays on that recipe and
    at one of its steps, and the heading is that step's instruction.  [k]
    clicks on next move from step [i] to step [min (i+k) (N-1)], and [k]
    clicks on previous to step [max (i-k) 0]. *)
Theorem X14_runs_of_clicks (s : State) (r : Recipe) (l : list string) :
  cookingMode s = Some r →
  instructions r = Some l →
  0 ≤ currentStep s ≤ Z.of_nat (List.length l) - 1 →
  (∀ clicks,
     cookingMode (clickSteps clicks s) = Some r
     ∧ 0 ≤ currentStep (clickSteps clicks s) ≤ Z.of_nat (List.length l) - 1
     ∧ ∃ text, shownInstruction (clickSteps clicks s) = Some text ∧ text ∈ l)
  ∧ (∀ k, currentStep (clickSteps (replicate k true) s)
          = Z.min (currentStep s + Z.of_nat k) (Z.of_nat (List.length l) - 1))
  ∧ (∀ k, currentStep (clickSteps (replicate k false) s)
          = Z.max (currentStep s - Z.of_nat k) 0).
Proof.
  intros Hr Hl Hrange.
  pose proof (stepCount_instructions r l Hl) as Hn.
  split; [| split].
  - intros clicks.
    assert (cookingMode (clickSteps clicks s) = Some r) as Hr'
      by (by rewrite cookingMode_clickSteps).
    assert (0 ≤ currentStep (clickSteps clicks s) ≤ Z.of_nat (List.length l) - 1) as Hin.
    { refine (clickSteps_in_range clicks s _ r _ Hr' Hn).
      intros r' n' Hr0 Hn0. assert (r' = r) as -> by congruence.
      assert (n' = Z.of_nat (List.length l)) as -> by congruence. done. }
    split; [done |]. split; [done |]. by apply (shownInstruction_in_range _ r).
  - intros k. by apply (clickNext_run k s r).
  - intros k. apply (clickPrevious_run k s r); [done | lia].
Qed.

(** X14 on the two steps of the toast: three clicks on next reach the
    second step and stay there, and next, next, previous shows the first. *)
Lemma X14_runs_of_clicks_witness :
  let s := setCookingMode (Some toast) initialState in
  currentStep (clickSteps [true; true; true] s) = 1
  ∧ 0 ≤ currentStep (clickSteps [true; true; false] s) ≤ 1.
Proof.
  intros s.
  destruct (X14_runs_of_clicks s toast ["Slice."; "Toast."])
    as (Hany & Hnext & _); [reflexivity | reflexivity | simpl; lia |].
  split; [exact (Hnext 3%nat) |].
  destruct (Hany [true; true; false]) as (_ & Hin & _). exact Hin.
Defined.

(** X15.  Past the last step, where an overlay opened on a stale index or
    on a recipe without steps is, the next button is not disabled: every
    click moves one further, and the heading shows no instruction. *)
Theorem X15_next_past_the_last_step (s : State) (r : Recipe) (l : list string) (k : nat) :
  cookingMode s = Some r →
  instructions r = Some l →
  Z.of_nat (List.length l) ≤ currentStep s →
  let s' := clickSteps (replicate k true) s in
  currentStep s' = currentStep s + Z.of_nat k
  ∧ nextDisabled (Z.of_nat (List.length l)) s' = false
  ∧ shownInstruction s' = None.
Proof.
  intros Hr Hl Hpast s'.
  pose proof (stepCount_instructions r l Hl) as Hn.
  assert (currentStep s' = currentStep s + Z.of_nat k) as Hstep
    by (by apply (clickNext_past k s r (Z.of_nat (List.length l)))).
  split; [done |]. split.
  - unfold nextDisabled. apply Z.eqb_neq. lia.
  - apply (shownInstruction_past s' r l); [| done | lia].
    subst s'. by rewrite cookingMode_clickSteps.
Qed.

(** X15 on the one-step manual dish opened at index 1. *)
Lemma X15_next_past_the_last_step_witness :
  let dish := manualRecipe "id-1" 1 soup in
  let s := setCurrentStep 1 (setCookingMode (Some dish) initialState) in
  currentStep (clickSteps (replicate 3 true) s) = 4
  ∧ shownInstruction (clickSteps (replicate 3 true) s) = None.
Proof.
  intros dish s.
  destruct (X15_next_past_the_last_step s dish
              ["Step-by-step instructions not provided for manual entry."] 3)
    as (Hstep & _ & Hshown); [reflexivity | reflexivity | simpl; lia |].
  split; [exact Hstep | exact Hshown].
Defined.
(** ** The form of a manual dish *)

Section Lines.
Import JsString JsStringFacts.

Lemma newline_eqb (c : ascii) : Ascii.eqb c newline = false ↔ c ≠ newline.
Proof. apply Ascii.eqb_neq. Qed.

Lemma split_lines_ne (s : string) : split_lines s ≠ [].
Proof.
  induction s as [|c s IH]; simpl; [done |].
  destruct (Ascii.eqb c newline); [done |]. by destruct (split_lines s).
Qed.

Lemma oneLine_cons (c : ascii) (t : string) :
  oneLine (String c t) ↔ c ≠ newline ∧ oneLine t.
Proof.
  unfold oneLine. simpl. split.
  - intros Hn. split; [intros ->; apply Hn; by left | intros Hin; apply Hn; by right].
  - intros [Hc Ht] [Heq | Hin]; [by apply Hc | by apply Ht].
Qed.

Lemma split_lines_oneLine (s : string) : Forall oneLine (split_lines s).
Proof.
  induction s as [|c s IH]; simpl.
  - constructor; [by intros [] | constructor].
  - destruct (Ascii.eqb c newline) eqn:Hc.
    + constructor; [by intros [] | done].
    + apply newline_eqb in Hc. destruct (split_lines s) as [|h t].
      * constructor; [| constructor]. apply oneLine_cons. split; [done | by intros []].
      * inversion IH as [|? ? Hh Ht]; subst. constructor; [| done].
        by apply oneLine_cons.
Qed.

Lemma split_lines_single (line : string) : oneLine line → split_lines line = [line].
Proof.
  induction line as [|c line IH]; [done |].
  intros [Hc Hline]%oneLine_cons. simpl.
  apply newline_eqb in Hc. rewrite Hc. by rewrite IH.
Qed.

Lemma split_lines_app (line rest : string) :
  oneLine line → split_lines (line ++ lineFeed ++ rest) = line :: split_lines rest.
Proof.
  induction line as [|c line IH].
  - intros _. change (EmptyString ++ lineFeed ++ rest) with (String newline rest).
    done.
  - intros [Hc Hline]%oneLine_cons. rewrite append_cons. simpl.
    apply newline_eqb in Hc. rewrite Hc. by rewrite IH.
Qed.

(** [lines.join('\n').split('\n')] is [lines]. *)
Lemma split_lines_concat (lines : list string) :
  lines ≠ [] → Forall oneLine lines →
  split_lines (String.concat lineFeed lines) = lines.
Proof.
  induction lines as [|x lines IH]; [done |]. intros _ Hall.
  inversion Hall as [|? ? Hx Hrest]; subst.
  destruct lines as [|y lines]; [by apply split_lines_single |].
  change (String.concat lineFeed (x :: y :: lines))
    with (x ++ lineFeed ++ String.concat lineFeed (y :: lines)).
  rewrite split_lines_app by done. f_equal. by apply IH.
Qed.

(** [s.split('\n').join('\n')] is [s]. *)
Lemma concat_split_lines (s : string) : String.concat lineFeed (split_lines s) = s.
Proof.
  induction s as [|c s IH]; [done |]. simpl.
  pose proof (split_lines_ne s) as Hne.
  destruct (Ascii.eqb c newline) eqn:Hc.
  - apply Ascii.eqb_eq in Hc as ->.
    destruct (split_lines s) as [|h t]; [done |].
    change (String.concat lineFeed (EmptyString :: h :: t))
      with (String newline (String.concat lineFeed (h :: t))).
    by rewrite IH.
  - destruct (split_lines s) as [|h t]; [done |].
    rewrite <- IH. by destruct t.
Qed.

Lemma split_lines_whitespace (s : string) :
  all_whitespace s → Forall all_whitespace (split_lines s).
Proof.
  unfold all_whitespace. induction s as [|c s IH]; simpl.
  - intros _. by repeat constructor.
  - inversion 1 as [|? ? Hc Hs]; subst. specialize (IH Hs).
    destruct (Ascii.eqb c newline); [by repeat constructor |].
    destruct (split_lines s) as [|h t]; [by repeat constructor |].
    inversion IH; subst. constructor; [| done]. simpl. by constructor.
Qed.

Lemma nonblank (line : string) :
  negb (falsy (trim line)) = true ↔ trim line ≠ EmptyString.
Proof. rewrite negb_true_iff. apply falsy_false. Qed.

End Lines.

(** X16.  The ingredients of a dish entered by hand are the lines of the
    text typed, in their order, without the lines that are blank; a line
    that is kept is kept as typed, blanks at its ends included.  So lines
    that are not blank, joined by line feeds, come back as they are; a
    text of blanks gives no ingredient at all. *)
Theorem X16_manual_dish_ingredients (uuid : string) (now : Z) (d : CustomDish) :
  ∃ l,
    ingredients (manualRecipe uuid now d) = Some l
    ∧ sublist l (JsString.split_lines (dish_ingredients d))
    ∧ (∀ line, line ∈ l ↔ line ∈ JsString.split_lines (dish_ingredients d)
                          ∧ JsString.trim line ≠ EmptyString)
    ∧ Forall oneLine l
    ∧ (∀ lines,
         lines ≠ [] →
         Forall (λ line, oneLine line ∧ JsString.trim line ≠ EmptyString) lines →
         dish_ingredients d = String.concat lineFeed lines →
         l = lines)
    ∧ (JsString.trim (dish_ingredients d) = EmptyString → l = []).
Proof.
  eexists. split; [reflexivity |]. split; [apply filter_sublist |].
  split; [| split; [| split]].
  - intros line. by rewrite !list_elem_of_In, filter_In, nonblank.
  - pose proof (split_lines_oneLine (dish_ingredients d)) as Hall.
    rewrite Forall_forall in Hall |- *. intros line Hin. apply Hall.
    apply list_elem_of_In. apply list_elem_of_In, filter_In in Hin. tauto.
  - intros lines Hne Hall ->. rewrite split_lines_concat; [| done |].
    + induction Hall as [|x lines [_ Hx] _ IH]; [done |]. simpl.
      apply nonblank in Hx. rewrite Hx. f_equal.
      destruct lines as [|y lines]; [done | by apply IH].
    + eapply Forall_impl; [exact Hall | by intros x [Hx _]].
  - intros Hblank%JsStringFacts.trim_empty%split_lines_whitespace.
    induction Hblank as [|x lines Hx _ IH]; [done |]. simpl.
    apply JsStringFacts.trim_empty in Hx. by rewrite Hx.
Qed.

(** X16 at three lines, the second blank and the third with blanks around
    the word. *)
Lemma X16_manual_dish_ingredients_witness :
  let text := "Salt" ++ lineFeed ++ " " ++ lineFeed ++ "  Pepper " in
  let d := {| dish_title := "Eggs"; dish_desc := EmptyString; dish_ingredients := text |} in
  ingredients (manualRecipe "id-1" 1 d) = Some ["Salt"; "  Pepper "]
  ∧ ∀ d', dish_ingredients d' = String.concat lineFeed ["Salt"; "  Pepper "] →
          ingredients (manualRecipe "id-1" 1 d') = Some ["Salt"; "  Pepper "].
Proof.
  intros text d. split; [reflexivity |]. intros d' Hd'.
  destruct (X16_manual_dish_ingredients "id-1" 1 d') as (l & Hl & _ & _ & _ & Hround & _).
  rewrite Hl. f_equal. apply Hround; [done | | done].
  repeat constructor; try discriminate; unfold oneLine; simpl; intros Hin;
    repeat (destruct Hin as [Hin | Hin]; [discriminate |]); done.
Defined.

Section Submit.
Implicit Types (s : State).

Lemma customDish_addManualDish uuid now s :
  dish_title (customDish s) ≠ EmptyString →
  customDish (addManualDish uuid now s) = emptyDish
  ∧ showAddDishModal (addManualDish uuid now s) = false.
Proof.
  intros Ht%JsStringFacts.falsy_false. unfold addManualDish. rewrite Ht. by destruct s.
Qed.

Lemma newItemText_addShoppingItem s :
  JsString.trim (newItemText s) ≠ EmptyString →
  newItemText (addShoppingItem s) = EmptyString.
Proof.
  intros Ht%JsStringFacts.falsy_false. unfold addShoppingItem. rewrite Ht. by destruct s.
Qed.

End Submit.

(** X17.  Each of the two forms is emptied by a submission that is
    accepted: the form of a manual dish is reset and closed, the input of
    the shopping view is cleared.  So a second submission right after the
    first adds nothing, whatever identifier and time it would have used. *)
Theorem X17_forms_are_emptied (s : State) :
  (∀ uuid now,
     dish_title (customDish s) ≠ EmptyString →
     customDish (addManualDish uuid now s) = emptyDish
     ∧ showAddDishModal (addManualDish uuid now s) = false)
  ∧ (∀ uuid now uuid' now',
       addManualDish uuid' now' (addManualDish uuid now s) = addManualDish uuid now s)
  ∧ (JsString.trim (newItemText s) ≠ EmptyString →
     newItemText (addShoppingItem s) = EmptyString)
  ∧ addShoppingItem (addShoppingItem s) = addShoppingItem s.
Proof.
  split; [| split; [| split]].
  - intros uuid now. apply customDish_addManualDish.
  - intros uuid now uuid' now'.
    destruct (JsString.falsy (dish_title (customDish s))) eqn:Ht.
    + unfold addManualDish. by rewrite !Ht.
    + apply JsStringFacts.falsy_false in Ht.
      destruct (customDish_addManualDish uuid now s Ht) as [Hdish _].
      apply addManualDish_untitled. by rewrite Hdish.
  - apply newItemText_addShoppingItem.
  - destruct (JsString.falsy (JsString.trim (newItemText s))) eqn:Ht.
    + unfold addShoppingItem. by rewrite !Ht.
    + apply JsStringFacts.falsy_false in Ht.
      pose proof (newItemText_addShoppingItem s Ht) as Hempty.
      unfold addShoppingItem at 1. by rewrite Hempty.
Qed.

(** X17 at the soup and at the item "Milk". *)
Lemma X17_forms_are_emptied_witness :
  let s := setNewItemText "Milk" (setCustomDish soup initialState) in
  customDish (addManualDish "id-1" 1 s) = emptyDish
  ∧ newItemText (addShoppingItem s) = EmptyString
  ∧ List.length (savedRecipes (addManualDish "id-2" 2 (addManualDish "id-1" 1 s))) = 1%nat.
Proof.
  intros s. destruct (X17_forms_are_emptied s) as (Hdish & Htwice & Hitem & _).
  split; [apply (Hdish "id-1" 1); discriminate |].
  split; [apply Hitem; discriminate |].
  by rewrite (Htwice "id-1" 1 "id-2" 2).
Defined.
(** ** The rows of the shopping view *)

Section Rows.
Implicit Types (s : State) (r : Recipe).

Lemma recipeItems_setSavedRecipes (l : list Recipe) s :
  recipeItems (setSavedRecipes l s)
  = flat_map (λ r, match ingredients r with
                   | Some l => List.map Some l
                   | None => [None]
                   end) l.
Proof. unfold recipeItems. by rewrite savedRecipes_setSavedRecipes. Qed.

Lemma recipeItems_cons r (l : list Recipe) s :
  recipeItems (setSavedRecipes (r :: l) s)
  = (recipeItems (setSavedRecipes [r] s) ++ recipeItems (setSavedRecipes l s))%list.
Proof. rewrite !recipeItems_setSavedRecipes. simpl. by rewrite List.app_nil_r. Qed.

Lemma recipeItems_same s : recipeItems (setSavedRecipes (savedRecipes s) s) = recipeItems s.
Proof. by rewrite recipeItems_setSavedRecipes. Qed.

Lemma flat_map_filter_sublist {A B} (f : A → list B) (p : A → bool) (l : list A) :
  sublist (flat_map f (List.filter p l)) (flat_map f l).
Proof.
  induction l as [|x l IH]; simpl; [constructor |].
  destruct (p x); simpl.
  - by apply sublist_app.
  - by apply sublist_inserts_l.
Qed.

Lemma length_eqb_0 {A} (l : list A) : Nat.eqb (List.length l) 0 = true ↔ l = [].
Proof. destruct l; simpl; split; congruence. Qed.

End Rows.

(** X18.  The shopping view.  The rows marked "Recipe" are the ingredients
    of the saved recipes, recipe after recipe, one row for a recipe whose
    ingredients are missing.  The Heart button and the form of a manual dish
    put the rows of the new recipe before the others, the bin of a pantry
    card takes rows away and never adds or reorders any, and the bin and
    the input of the manual items leave these rows alone.  The notice of
    the empty list appears exactly when there is no manual item and no
    saved recipe, and then there is no row. *)
Theorem X18_shopping_rows (s : State) :
  (∀ row, row ∈ recipeItems s ↔
          ∃ r, r ∈ savedRecipes s
               ∧ match ingredients r with
                 | Some l => ∃ item, row = Some item ∧ item ∈ l
                 | None => row = None
                 end)
  ∧ (∀ r, currentRecipe s = Some r →
          (∀ r', r' ∈ savedRecipes s → title r' ≠ title r) →
          recipeItems (saveCurrentRecipe s)
          = (recipeItems (setSavedRecipes [r] s) ++ recipeItems s)%list)
  ∧ (∀ uuid now,
       dish_title (customDish s) ≠ EmptyString →
       recipeItems (addManualDish uuid now s)
       = (recipeItems (setSavedRecipes [manualRecipe uuid now (customDish s)] s)
          ++ recipeItems s)%list)
  ∧ (∀ rid, sublist (recipeItems (removeRecipe rid s)) (recipeItems s))
  ∧ (∀ i, recipeItems (removeShoppingItem i s) = recipeItems s)
  ∧ recipeItems (addShoppingItem s) = recipeItems s
  ∧ (emptyShoppingNotice s = true ↔ manualShoppingItems s = [] ∧ savedRecipes s = [])
  ∧ (emptyShoppingNotice s = true → recipeItems s = []).
Proof.
  split; [| split; [| split; [| split; [| split; [| split; [| split]]]]]].
  - intros row. unfold recipeItems. rewrite list_elem_of_In, in_flat_map. split.
    + intros (r & Hr & Hrow). exists r. split; [by apply list_elem_of_In |].
      destruct (ingredients r) as [l|].
      * apply in_map_iff in Hrow as (item & <- & Hitem).
        exists item. split; [done | by apply list_elem_of_In].
      * by destruct Hrow as [<- | []].
    + intros (r & Hr & Hrow). exists r. split; [by apply list_elem_of_In |].
      destruct (ingredients r) as [l|].
      * destruct Hrow as (item & -> & Hitem). apply in_map. by apply list_elem_of_In.
      * left. by symmetry.
  - intros r Hcur Hfresh. rewrite (saveCurrentRecipe_fresh s r Hcur Hfresh).
    by rewrite recipeItems_cons, recipeItems_same.
  - intros uuid now Ht. unfold recipeItems at 1.
    rewrite (addManualDish_savedRecipes uuid now s Ht).
    rewrite <- (recipeItems_setSavedRecipes _ s).
    by rewrite recipeItems_cons, recipeItems_same.
  - intros rid. unfold removeRecipe. rewrite recipeItems_setSavedRecipes.
    apply flat_map_filter_sublist.
  - intros i. unfold recipeItems, removeShoppingItem. by destruct s.
  - unfold recipeItems, addShoppingItem.
    destruct (JsString.falsy _); [done | by destruct s].
  - unfold emptyShoppingNotice. by rewrite andb_true_iff, !length_eqb_0.
  - unfold emptyShoppingNotice. rewrite andb_true_iff, !length_eqb_0.
    intros [_ Hsaved]. unfold recipeItems. by rewrite Hsaved.
Qed.

(** X18 with the toast saved and the soup entered by hand. *)
Lemma X18_shopping_rows_witness :
  let s := setCustomDish soup (setSavedRecipes [toast] initialState) in
  recipeItems (addManualDish "id-1" 1 s) = [Some "Water"; Some "Bread"]
  ∧ emptyShoppingNotice s = false.
Proof.
  intros s. destruct (X18_shopping_rows s) as (_ & _ & Hdish & _).
  split; [| reflexivity].
  rewrite (Hdish "id-1" 1); [reflexivity | discriminate].
Defined.

(** ** Titles *)

Section Titles.

Lemma length_append (a b : string) :
  String.length (a ++ b) = (String.length a + String.length b)%nat.
Proof.
  induction a as [|c a IH]; [done |].
  rewrite JsStringFacts.append_cons. simpl. by rewrite IH.
Qed.

End Titles.

(** X19.  The final title of a generated recipe is the response's title
    or that title followed by " (by praj)", and it is the title itself
    exactly when the title contains "by praj"; so the final title of a
    final title is that title again.  The form of a manual dish appends
    the suffix without looking: its titles are final already, and a name
    typed with "by praj" in it gets the suffix all the same. *)
Theorem X19_final_title (t : string) :
  (finalTitle t = t ∨ finalTitle t = t ++ by_praj_suffix)
  ∧ (finalTitle t = t ↔ JsString.includes t marker = true)
  ∧ finalTitle (finalTitle t) = finalTitle t
  ∧ (∀ uuid now d,
       finalTitle (title (manualRecipe uuid now d)) = title (manualRecipe uuid now d)
       ∧ (JsString.includes (dish_title d) marker = true →
          title (manualRecipe uuid now d) ≠ finalTitle (dish_title d))).
Proof.
  assert (∀ u, u ++ by_praj_suffix ≠ u) as Hlonger.
  { intros u Heq. apply (f_equal String.length) in Heq.
    rewrite length_append in Heq. simpl in Heq. lia. }
  assert (∀ u, JsString.includes u marker = true → finalTitle u = u) as Hkept.
  { intros u Hu. unfold finalTitle. by rewrite Hu. }
  split; [| split; [| split]].
  - unfold finalTitle. destruct (JsString.includes t marker); [by left | by right].
  - split; [| apply Hkept]. unfold finalTitle.
    destruct (JsString.includes t marker); [done |]. intros Heq. by apply Hlonger in Heq.
  - apply Hkept, marked_finalTitle.
  - intros uuid now d. split; [apply Hkept, marked_suffix |].
    intros Hd. rewrite (Hkept _ Hd). apply Hlonger.
Qed.

(** X19 at a name typed with the marker in it. *)
Lemma X19_final_title_witness :
  let d := {| dish_title := "Pie by praj"; dish_desc := EmptyString;
              dish_ingredients := EmptyString |} in
  finalTitle "Pie by praj" = "Pie by praj"
  ∧ title (manualRecipe "id-1" 1 d) ≠ finalTitle "Pie by praj".
Proof.
  intros d. destruct (X19_final_title "Pie by praj") as (_ & Hkept & _ & Hmanual).
  split; [by apply Hkept |].
  destruct (Hmanual "id-1" 1 d) as [_ Hne]. by apply Hne.
Defined.

(** ** Generations that overlap *)

Section Overlap.
Context {dataParse : JsonParse RecipeData}.
Implicit Types (s : State) (resp : GenerationResponse).

Lemma isGenerating_resume uuid now resp s :
  isGenerating (generateRecipe_resume uuid now resp s).1 = false.
Proof.
  unfold generateRecipe_resume. destruct (generatedRecipe uuid now resp); by destruct s.
Qed.

Lemma currentRecipe_generateRecipe_resume uuid now resp s :
  currentRecipe (generateRecipe_resume uuid now resp s).1
  = match generatedRecipe uuid now resp with
    | Some r => Some r
    | None => currentRecipe s
    end.
Proof.
  unfold generateRecipe_resume. destruct (generatedRecipe uuid now resp); by destruct s.
Qed.

Lemma currentRecipe_generateRecipe withImage s :
  currentRecipe (generateRecipe withImage s).1 = None.
Proof. by destruct s. Qed.

End Overlap.

(** X20.  Two generations at once.  The button of the kitchen is disabled
    while a generation runs, but the camera is not: a photo can be sent
    for analysis while a request is pending.  When the first of the two
    requests settles the flag is cleared, and the button of the kitchen
    enabled, though the other request is still pending; the recipe on
    display in the end is that of the last request that settled with a
    recipe, and an alert is raised for each request that settled without.
    The saved recipes are as they were. *)
Theorem X20_overlapping_generations
    {dataParse : JsonParse RecipeData}
    {recipesParse : JsonParse (list Recipe)} {itemsParse : JsonParse (list string)}
    {recipesText : JsonStringify (list Recipe)} {itemsText : JsonStringify (list string)}
    (atob : string → option string) (ctx : AudioContext)
    (image uuid1 uuid2 : string) (now1 now2 : Z) (resp1 resp2 : GenerationResponse)
    (s : State) :
  let run := handle atob ctx in
  let s1 := run (Generate false) s in
  let s2 := run (Generate true) (run (CapturePhoto image) (run StartCamera s1)) in
  let s3 := run (GenerationSettled uuid1 now1 resp1) s2 in
  let s4 := run (GenerationSettled uuid2 now2 resp2) s3 in
  generateDisabled s1 = true
  ∧ isGenerating s2 = true
  ∧ isGenerating s3 = false
  ∧ generateDisabled s3 = JsString.falsy (prompt s)
  ∧ currentRecipe s3 = generatedRecipe uuid1 now1 resp1
  ∧ currentRecipe s4 = match generatedRecipe uuid2 now2 resp2 with
                       | Some r => Some r
                       | None => generatedRecipe uuid1 now1 resp1
                       end
  ∧ (generatedRecipe uuid2 now2 resp2 = None →
     (react atob ctx (GenerationSettled uuid2 now2 resp2) s3).2 = [Alert generationError])
  ∧ savedRecipes s4 = savedRecipes s.
Proof.
  intros run s1 s2 s3 s4. subst run s1 s2 s3 s4. unfold handle, react. cbn [fst].
  split; [by destruct s |]. split; [by destruct s |].
  split; [apply isGenerating_resume |].
  split.
  { unfold generateDisabled. rewrite isGenerating_resume.
    unfold generateRecipe_resume. destruct (generatedRecipe uuid1 now1 resp1); by destruct s. }
  split.
  { rewrite currentRecipe_generateRecipe_resume, currentRecipe_generateRecipe.
    by destruct (generatedRecipe uuid1 now1 resp1). }
  split.
  { rewrite !currentRecipe_generateRecipe_resume, currentRecipe_generateRecipe.
    by destruct (generatedRecipe uuid2 now2 resp2), (generatedRecipe uuid1 now1 resp1). }
  split.
  { intros Hnone. unfold generateRecipe_resume at 1. by rewrite Hnone. }
  unfold generateRecipe_resume.
  destruct (generatedRecipe uuid2 now2 resp2), (generatedRecipe uuid1 now1 resp1);
    by destruct s.
Qed.

(** X20 with the codec of this development: the soup asked for first
    settles last, after the photo's request was rejected. *)
Lemma X20_overlapping_generations_witness :
  let run := handle (dataParse := Codec.parseData)
               (recipesParse := Codec.parseRecipes) (itemsParse := Codec.parseStrings)
               (recipesText := Codec.stringifyRecipes) (itemsText := Codec.stringifyStrings)
               (λ _, None) webAudioContext in
  let s := setPrompt "soup" initialState in
  let s2 := run (Generate true)
              (run (CapturePhoto "data:image/jpeg;base64,AAAA")
                 (run StartCamera (run (Generate false) s))) in
  let s4 := run (GenerationSettled "id-2" 2 (GenerationAnswer (Some soupResponse)))
              (run (GenerationSettled "id-1" 1 GenerationRejected) s2) in
  title <$> currentRecipe s4 = Some "Soup (by praj)".
Proof.
  intros run s s2 s4.
  destruct (X20_overlapping_generations
              (dataParse := Codec.parseData)
              (recipesParse := Codec.parseRecipes) (itemsParse := Codec.parseStrings)
              (recipesText := Codec.stringifyRecipes) (itemsText := Codec.stringifyStrings)
              (λ _, None) webAudioContext "data:image/jpeg;base64,AAAA"
              "id-1" "id-2" 1 2 GenerationRejected (GenerationAnswer (Some soupResponse)) s)
    as (_ & _ & _ & _ & _ & Hlast & _).
  subst s4 s2 run. rewrite Hlast. reflexivity.
Defined.
